(** * Text similarity core of the Moodle question toolbox

    A shallow embedding of the duplicate-detection pipeline of
    [find_similar_questions.py] and of the [QuestionAnalyzer] class of
    [evaluate_questions_directory.py]: text normalisation, term
    frequencies, IDF tables, TF-IDF vectors, cosine similarity and the
    enumeration of similar pairs.

    Python strings are sequences of Unicode code points, dictionaries are
    finite maps, sets are finite sets, and Python floats are read as exact
    real numbers. Module [Float64] describes one run in binary64
    arithmetic, for the places where rounding and the order of a sum
    decide. *)

From Stdlib Require Import Reals Lra Lia NArith String Ascii.
From Stdlib Require Import Sorting.Sorted Sorting.Permutation.
From Stdlib Require Floats.PrimFloat.
From stdpp Require Import gmap list fin_maps fin_sets sorting.

#[local] Set Warnings "-clear-no-such-hyp".
#[local] Set Warnings "-register-all".

(** ** Python strings *)

Module PyStr.

(** A character is a Unicode code point; a [str] is a list of them. *)
Abbreviation char := N (only parsing).
Abbreviation str := (list N) (only parsing).

(** String literals of the development (ASCII only; accented letters are
    written as code points). *)
Definition lit (s : string) : str :=
  List.map N_of_ascii (list_ascii_of_string s).

(** [str.isspace] on one code point; the same class is matched by [\s]
    in a [re] pattern over [str], removed by [str.strip()] and used as
    separator by [str.split()]. *)
Definition is_space (c : char) : bool :=
  ((9 <=? c) && (c <=? 13) || (28 <=? c) && (c <=? 32)
   || (c =? 133) || (c =? 160) || (c =? 5760)
   || (8192 <=? c) && (c <=? 8202)
   || (c =? 8232) || (c =? 8233) || (c =? 8239) || (c =? 8287)
   || (c =? 12288))%N.

Definition SPACE : char := 32%N.

(** [s.lstrip()] *)
Fixpoint lstrip (s : str) : str :=
  match s with
  | [] => []
  | c :: r => if is_space c then lstrip r else s
  end.

(** [s.rstrip()] *)
Definition rstrip (s : str) : str := reverse (lstrip (reverse s)).

(** [s.strip()] *)
Definition strip (s : str) : str := rstrip (lstrip s).

(** [s.split()]: the maximal runs of non-space characters, in order.
    [cur] holds the characters of the run being read, last one first. *)
Definition flush (cur : str) (rest : list str) : list str :=
  match cur with
  | [] => rest
  | _ :: _ => reverse cur :: rest
  end.

Fixpoint split_from (cur : str) (s : str) : list str :=
  match s with
  | [] => flush cur []
  | c :: r =>
      if is_space c then flush cur (split_from [] r)
      else split_from (c :: cur) r
  end.

Definition split (s : str) : list str := split_from [] s.

(** [sep.join(parts)] *)
Fixpoint join (sep : str) (parts : list str) : str :=
  match parts with
  | [] => []
  | [p] => p
  | p :: ps => p ++ sep ++ join sep ps
  end.

End PyStr.

Import PyStr.

(** ** Regular-expression substitutions of [clean_text] *)

Module Regex.

(** The class [[a-záéíóúñü0-9\s]] whose complement the first
    substitution replaces. *)
Definition accented : list char :=
  [225; 233; 237; 243; 250; 241; 252]%N.

Definition in_kept_class (c : char) : bool :=
  ((97 <=? c) && (c <=? 122))%N
  || bool_decide (c ∈ accented)
  || ((48 <=? c) && (c <=? 57))%N
  || is_space c.

(** [re.sub(r'[^a-záéíóúñü0-9\s]', ' ', text)] *)
Definition sub_not_kept (text : str) : str :=
  List.map (fun c => if in_kept_class c then c else SPACE) text.

(** [re.sub(r'\s+', ' ', text)]: every maximal run of white space
    becomes one space. [in_run] tells that the previous character
    belonged to a run already replaced. *)
Fixpoint sub_spaces_from (in_run : bool) (text : str) : str :=
  match text with
  | [] => []
  | c :: r =>
      if is_space c then
        if in_run then sub_spaces_from true r
        else SPACE :: sub_spaces_from true r
      else c :: sub_spaces_from false r
  end.

Definition sub_spaces (text : str) : str := sub_spaces_from false text.

End Regex.

Import Regex.

(** ** Python floats, read as real numbers *)

#[global] Instance R_inhabited : Inhabited R := populate 0%R.
#[global] Instance R_eq_dec : EqDecision R := Req_dec_T.
#[global] Instance Rge_decision (x y : R) : Decision (x >= y)%R := Rge_dec x y.
#[global] Instance Rle_decision (x y : R) : Decision (x <= y)%R := Rle_dec x y.

(** A sparse vector, an IDF table: [dict] from token to weight. A pair
    of the result: the tuple [(i, j, similarity)]. *)
Abbreviation vector := (gmap (list N) R) (only parsing).
Abbreviation pair := (nat * nat * R)%type (only parsing).

(** ** Code shared by the two scripts *)

Module Common.

(** [d[word] += 1] on a [defaultdict(int)] *)
Definition incr (word : str) (d : gmap str nat) : gmap str nat :=
  <[word := default 0 (d !! word) + 1]> d.

(** [sum(freq.values())] *)
Definition sum_values (freq : gmap str nat) : nat :=
  map_fold (fun _ count acc => acc + count) 0 freq.

(** [sum(val**2 for val in vec.values())] *)
Definition sum_squares (vec : vector) : R :=
  map_fold (fun _ val acc => acc + val ^ 2)%R 0%R vec.

(** [sum(vec1[word] * vec2[word] for word in common_words)]; every
    word of [common_words] is a key of both vectors, so the two
    subscripts do not raise. *)
Definition dot_over (common_words : gset str) (vec1 vec2 : vector) : R :=
  set_fold (fun word acc => acc + (vec1 !!! word) * (vec2 !!! word))%R
           0%R common_words.

(** The key of [sort(key=lambda x: x[2], reverse=True)] *)
Definition similarity_of (p : pair) : R := p.2.

(** [list.sort(key=..., reverse=True)] is a stable sort: of two tuples
    with equal keys the one that was first stays first. *)
Fixpoint insert_desc (p : pair) (l : list pair) : list pair :=
  match l with
  | [] => [p]
  | q :: l' =>
      if bool_decide (similarity_of q <= similarity_of p)%R
      then p :: q :: l'
      else q :: insert_desc p l'
  end.

Definition sort_desc (l : list pair) : list pair :=
  foldr insert_desc [] l.

End Common.

Import Common.

(** ** XML elements, as [xml.etree.ElementTree] builds them *)

Module ElementTree.

(** An [Element]: its tag, its attribute dictionary, its [text] (which
    may be [None]) and its child elements in document order. *)
Inductive Element : Type := mkElement {
  tag : str;
  attrib : gmap str str;
  text : option str;
  children : list Element
}.

(** [elem.get(key, default)] *)
Definition get (elem : Element) (key dflt : str) : str :=
  default dflt (attrib elem !! key).

(** [elem.iter()]: the element and all elements below it, in document
    order. *)
Fixpoint iter (elem : Element) : list Element :=
  elem :: (children elem ≫= iter).

(** The step [/tag] of a path: the children with that tag. *)
Definition child_step (t : str) (elem : Element) : list Element :=
  filter (fun e => tag e = t) (children elem).

(** The step [.//tag] of a path: the elements of [elem.iter(tag)] other
    than [elem] itself. *)
Definition descendant_step (t : str) (elem : Element) : list Element :=
  filter (fun e => tag e = t) (children elem ≫= iter).

(** [elem.findall('tag')] and [elem.find('tag')] *)
Definition findall_child (t : str) (elem : Element) : list Element :=
  child_step t elem.
Definition find_child (t : str) (elem : Element) : option Element :=
  head (child_step t elem).

(** [elem.find('a/b')] *)
Definition find_child_child (a b : str) (elem : Element) : option Element :=
  head (child_step a elem ≫= child_step b).

(** [elem.findall('.//tag')] *)
Definition findall_descendant (t : str) (elem : Element) : list Element :=
  descendant_step t elem.

(** [elem.findall('.//a/b')] and [elem.find('.//a/b')] *)
Definition findall_descendant_child (a b : str) (elem : Element)
  : list Element :=
  descendant_step a elem ≫= child_step b.
Definition find_descendant_child (a b : str) (elem : Element)
  : option Element :=
  head (findall_descendant_child a b elem).

End ElementTree.

(** ** [find_similar_questions.py] *)

Module FindSimilar.

Section Normalizer.
(** [str.lower], a built-in of the interpreter. *)
Variable lower : str -> str.

Definition clean_text (text : str) : str :=
  let text := lower text in
  let text := sub_not_kept text in
  let text := sub_spaces text in
  strip text.
End Normalizer.

(** The dictionary built by [extract_question_info]. *)
Record question_info := {
  type : str;
  name : str;
  text : str;
  answers : list str;
  feedbacks : list str;
  generalfeedback : str
}.

Definition get_question_full_text (info : question_info) : str :=
  let parts := [text info] ++ answers info ++ feedbacks info in
  let parts :=
    if bool_decide (generalfeedback info ≠ [])
    then parts ++ [generalfeedback info] else parts in
  join [SPACE] parts.

Definition compute_word_freq (text : str) : gmap str nat :=
  let words := split text in
  foldl (fun freq word =>
           if bool_decide (2 < length word) then incr word freq else freq)
        ∅ words.

(** The [doc_count] dictionary of [compute_idf] after its first loop.
    Python leaves the order of iteration over [set(text.split())] open;
    the entries of the result do not depend on it. *)
Definition doc_count (all_texts : list str) : gmap str nat :=
  foldl (fun doc_count text =>
           let words : gset str := list_to_set (split text) in
           set_fold (fun word dc =>
                       if bool_decide (2 < length word)
                       then incr word dc else dc)
                    doc_count words)
        ∅ all_texts.

Definition compute_idf (all_texts : list str) : vector :=
  let num_docs := length all_texts in
  (fun count => ln (INR (num_docs + 1) / INR (count + 1)) + 1)%R
    <$> doc_count all_texts.

Definition compute_tfidf_vector (text : str) (idf : vector) : vector :=
  let freq := compute_word_freq text in
  let total_words := sum_values freq in
  if total_words =? 0 then ∅
  else
    map_imap (fun word count =>
                let tf := (INR count / INR total_words)%R in
                Some (tf * default 0 (idf !! word))%R)
             freq.

Definition cosine_similarity (vec1 vec2 : vector) : R :=
  if bool_decide (vec1 = ∅) || bool_decide (vec2 = ∅) then 0%R
  else
    let common_words := dom vec1 ∩ dom vec2 in
    if bool_decide (common_words = ∅) then 0%R
    else
      let dot_product := dot_over common_words vec1 vec2 in
      let mag1 := sqrt (sum_squares vec1) in
      let mag2 := sqrt (sum_squares vec2) in
      if bool_decide (mag1 = 0%R) || bool_decide (mag2 = 0%R) then 0%R
      else (dot_product / (mag1 * mag2))%R.

(** The list [similar_pairs] after the two nested loops over
    [range(len(questions))] and [range(i + 1, len(questions))]. *)
Definition compare_all (vectors : list vector) (threshold : R) : list pair :=
  let n := length vectors in
  i ← seq 0 n;
  j ← seq (i + 1) (n - (i + 1));
  let similarity := cosine_similarity (vectors !!! i) (vectors !!! j) in
  if bool_decide (similarity >= threshold)%R
  then [(i, j, similarity)] else [].

(** The list [similar_pairs] that is returned, after
    [similar_pairs.sort(key=lambda x: x[2], reverse=True)]. *)
Definition similar_pairs (vectors : list vector) (threshold : R)
  : list pair :=
  sort_desc (compare_all vectors threshold).

(** The same loops and the same sort over [n] questions, with the value
    that the call of [cosine_similarity] returns for the pair [(i, j)]
    in a run as a parameter. A finite float is a real number and is
    compared as one. *)
Definition compare_all_with (similarity : nat -> nat -> R) (n : nat)
    (threshold : R) : list pair :=
  i ← seq 0 n;
  j ← seq (i + 1) (n - (i + 1));
  if bool_decide (similarity i j >= threshold)%R
  then [(i, j, similarity i j)] else [].

Definition similar_pairs_with (similarity : nat -> nat -> R) (n : nat)
    (threshold : R) : list pair :=
  sort_desc (compare_all_with similarity n threshold).

(** [q['vector']] for every question, from the texts [q['text']]. *)
Definition vectors_of (all_texts : list str) : list vector :=
  let idf := compute_idf all_texts in
  (fun text => compute_tfidf_vector text idf) <$> all_texts.

(** [find_similar_questions_in_file] once the questions are loaded; a
    question is represented by its cleaned text [q['text']]. *)
Definition find_similar_questions (all_texts : list str) (threshold : R)
  : list pair :=
  similar_pairs (vectors_of all_texts) threshold.

(** *** Reading the questions of a file *)

Definition extract_text_from_cdata (text : option str) : str :=
  match text with
  | None => []
  | Some text => strip text
  end.

(** The assignments [info[key] = extract_text_from_cdata(elem.text)]
    that are guarded by [if elem is not None]; the entry keeps its
    initial [''] otherwise. *)
Definition text_or_empty (elem : option ElementTree.Element) : str :=
  match elem with
  | None => []
  | Some elem => extract_text_from_cdata (ElementTree.text elem)
  end.

(** The texts that the loop over the answers appends to a list: the
    cleaned text of the element found, when an element is found and its
    text is not empty. *)
Definition appended (elem : option ElementTree.Element) : list str :=
  match elem with
  | None => []
  | Some elem =>
      let t := extract_text_from_cdata (ElementTree.text elem) in
      if bool_decide (t ≠ []) then [t] else []
  end.

Definition extract_question_info (question_elem : ElementTree.Element)
  : question_info :=
  let answer_elems :=
    ElementTree.findall_descendant (lit "answer") question_elem in
  {| type := ElementTree.get question_elem (lit "type") [];
     name :=
       text_or_empty
         (ElementTree.find_descendant_child
            (lit "name") (lit "text") question_elem);
     text :=
       text_or_empty
         (ElementTree.find_descendant_child
            (lit "questiontext") (lit "text") question_elem);
     answers :=
       answer ← answer_elems;
       appended (ElementTree.find_child (lit "text") answer);
     feedbacks :=
       answer ← answer_elems;
       appended
         (ElementTree.find_child_child (lit "feedback") (lit "text") answer);
     generalfeedback :=
       text_or_empty
         (ElementTree.find_descendant_child
            (lit "generalfeedback") (lit "text") question_elem) |}.

(** The dictionary that [load_questions_from_file] builds for a
    question; [cleaned] is its entry ['text']. *)
Record question := {
  file : str;
  rel_file : str;
  index : nat;
  info : question_info;
  cleaned : str;
  full_text : str
}.

#[global] Instance question_inhabited : Inhabited question :=
  populate {| file := []; rel_file := []; index := 0;
              info := {| type := []; name := []; text := []; answers := [];
                         feedbacks := []; generalfeedback := [] |};
              cleaned := []; full_text := [] |}.

Section Loading.
Variable lower : str -> str.

(** [load_questions_from_file] from the parsed root on; [file] is
    [str(file_path.absolute())] and [rel_file] is [str(rel_path)]. *)
Definition load_questions_from_file (root : ElementTree.Element)
    (file rel_file : str) : list question :=
  let question_elems := ElementTree.findall_child (lit "question") root in
  '(i, question_elem) ← zip (seq 0 (length question_elems)) question_elems;
  let q_type := ElementTree.get question_elem (lit "type") [] in
  if bool_decide (q_type = lit "category") then []
  else
    let info := extract_question_info question_elem in
    let full_text := get_question_full_text info in
    let clean := clean_text lower full_text in
    if bool_decide (clean ≠ [])
    then [{| file := file; rel_file := rel_file; index := i; info := info;
             cleaned := clean; full_text := full_text |}]
    else [].

(** The part common to the file mode and the directory mode: IDF
    table, vectors and pairs of the loaded questions. The entry
    ['vector'] written into each question is the vector paired with
    it. *)
Definition analyse (questions : list question) (threshold : R)
  : list (question * vector) * list pair :=
  let all_texts := cleaned <$> questions in
  let idf := compute_idf all_texts in
  let vectors := (fun text => compute_tfidf_vector text idf) <$> all_texts in
  (zip questions vectors, similar_pairs vectors threshold).

(** [find_similar_questions_in_file], from the parsed root on; without
    [base_dir] the relative path is the path given. *)
Definition find_similar_questions_in_file (root : ElementTree.Element)
    (file rel_file : str) (threshold : R)
  : list (question * vector) * list pair :=
  analyse (load_questions_from_file root file rel_file) threshold.

(** [find_similar_questions_in_directory], from the parsed roots of the
    XML files that could be read, in the order of [xml_files]. *)
Definition find_similar_questions_in_directory
    (xml_files : list (ElementTree.Element * str * str)) (threshold : R)
  : list (question * vector) * list pair :=
  if bool_decide (xml_files = []) then ([], [])
  else
    let all_questions :=
      '(root, file, rel_file) ← xml_files;
      load_questions_from_file root file rel_file in
    if length all_questions =? 0 then ([], [])
    else analyse all_questions threshold.
End Loading.

(** *** Summary figures and the deletion script *)

(** [similar_pairs[0][2]] and [similar_pairs[-1][2]], which raise
    [IndexError] on the empty list. *)
Definition reported_maximum (similar_pairs : list pair) : option R :=
  similarity_of <$> head similar_pairs.
Definition reported_minimum (similar_pairs : list pair) : option R :=
  similarity_of <$> last similar_pairs.

(** [questions[i].get('file') != questions[j].get('file')]. The
    subscripts raise [IndexError] out of range, where this definition
    reads a default question: the properties below take pairs that
    index the list. *)
Definition cross_file (questions : list question) (p : pair) : Prop :=
  file (questions !!! p.1.1) ≠ file (questions !!! p.1.2).

#[global] Instance cross_file_dec questions p : Decision (cross_file questions p).
Proof. unfold cross_file. apply _. Defined.

Definition cross_file_pairs (questions : list question)
    (similar_pairs : list pair) : nat :=
  length (filter (cross_file questions) similar_pairs).

Definition same_file_pairs (questions : list question)
    (similar_pairs : list pair) : nat :=
  length similar_pairs - cross_file_pairs questions similar_pairs.

(** [sum(1 for _, _, s in similar_pairs if s >= 0.99)] *)
Definition exact_dups (similar_pairs : list pair) : nat :=
  length (filter (fun p => similarity_of p >= 0.99)%R similar_pairs).

(** The first loop of [generate_delete_script]: the pairs kept in
    [exact_duplicates] and the set [files_to_delete]. *)
Definition exact_duplicates (questions : list question)
    (similar_pairs : list pair) : list pair :=
  filter (fun p => (similarity_of p >= 0.99)%R /\ cross_file questions p)
         similar_pairs.

Definition files_to_delete (questions : list question)
    (similar_pairs : list pair) : gset str :=
  list_to_set
    ((fun p : pair => rel_file (questions !!! p.1.2))
       <$> exact_duplicates questions similar_pairs).

(** Whether [generate_delete_script] writes a script: it returns before
    opening the file when [exact_duplicates] is empty. *)
Definition writes_delete_script (questions : list question)
    (similar_pairs : list pair) : bool :=
  bool_decide (exact_duplicates questions similar_pairs ≠ []).

End FindSimilar.

(** ** [evaluate_questions_directory.py], class [QuestionAnalyzer] *)

Module QuestionAnalyzer.

Section Normalizer.
Variable lower : str -> str.

Definition clean_text (text : str) : str :=
  let text := lower text in
  let text := sub_not_kept text in
  let text := sub_spaces text in
  strip text.
End Normalizer.

(** The dictionary appended to [self.all_questions]. *)
Record question := {
  filepath : str;
  type : str;
  name : str;
  text : str;
  answers : list str;
  full_text : str
}.

(** The last statement of [analyze_question]: the dictionary stored for
    the duplicate analysis, with its f-string
    [f"{name} {text} {' '.join(answer_texts)}"]. *)
Definition stored_question (filepath q_type name text : str)
    (answer_texts : list str) : question :=
  {| filepath := filepath;
     type := q_type;
     name := name;
     text := text;
     answers := answer_texts;
     full_text :=
       name ++ [SPACE] ++ text ++ [SPACE] ++ join [SPACE] answer_texts |}.

Definition compute_word_freq (text : str) : gmap str nat :=
  let words := split text in
  foldl (fun freq word =>
           if bool_decide (2 < length word) then incr word freq else freq)
        ∅ words.

Definition doc_count (all_texts : list str) : gmap str nat :=
  foldl (fun doc_count text =>
           let words : gset str := list_to_set (split text) in
           set_fold (fun word dc =>
                       if bool_decide (2 < length word)
                       then incr word dc else dc)
                    doc_count words)
        ∅ all_texts.

Definition compute_idf (all_texts : list str) : vector :=
  let num_docs := length all_texts in
  (fun count => ln (INR num_docs / INR (1 + count)))%R
    <$> doc_count all_texts.

Definition compute_tfidf_vector (text : str) (idf : vector) : vector :=
  let freq := compute_word_freq text in
  let total_words := sum_values freq in
  if total_words =? 0 then ∅
  else
    map_imap (fun word count =>
                let tf := (INR count / INR total_words)%R in
                Some (tf * default 0 (idf !! word))%R)
             freq.

Definition cosine_similarity (vec1 vec2 : vector) : R :=
  if bool_decide (vec1 = ∅) || bool_decide (vec2 = ∅) then 0%R
  else
    let common_words := dom vec1 ∩ dom vec2 in
    if bool_decide (common_words = ∅) then 0%R
    else
      let dot_product := dot_over common_words vec1 vec2 in
      let mag1 := sqrt (sum_squares vec1) in
      let mag2 := sqrt (sum_squares vec2) in
      if bool_decide (mag1 = 0%R) || bool_decide (mag2 = 0%R) then 0%R
      else (dot_product / (mag1 * mag2))%R.

(** The part of the analyzer object that [find_duplicates] reads and
    writes. *)
Record analyzer := {
  similarity_threshold : R;
  all_questions : list question;
  duplicates : list pair
}.

(** [QuestionAnalyzer(similarity_threshold)] before any file is read. *)
Definition init (similarity_threshold : R) : analyzer :=
  {| similarity_threshold := similarity_threshold;
     all_questions := [];
     duplicates := [] |}.

Section FindDuplicates.
Variable lower : str -> str.

(** [q['vector']] for every question of [self.all_questions]; the
    entries ['clean_text'] and ['vector'] that [find_duplicates] writes
    into the question dictionaries are read by [find_duplicates] only
    and are kept here as the lists [all_texts] and [vectors]. *)
Definition vectors_of (questions : list question) : list vector :=
  let all_texts := (fun q => clean_text lower (full_text q)) <$> questions in
  let idf := compute_idf all_texts in
  (fun text => compute_tfidf_vector text idf) <$> all_texts.

(** The tuples that the comparison loops of [find_duplicates] append
    to [self.duplicates]. *)
Definition compare_all (vectors : list vector) (threshold : R)
  : list pair :=
  let n := length vectors in
  i ← seq 0 n;
  j ← seq (i + 1) (n - (i + 1));
  let similarity := cosine_similarity (vectors !!! i) (vectors !!! j) in
  if bool_decide (similarity >= threshold)%R
  then [(i, j, similarity)] else [].

Definition find_duplicates (self : analyzer) : analyzer :=
  if length (all_questions self) <? 2 then self
  else
    let vectors := vectors_of (all_questions self) in
    let found := compare_all vectors (similarity_threshold self) in
    {| similarity_threshold := similarity_threshold self;
       all_questions := all_questions self;
       duplicates := sort_desc (duplicates self ++ found) |}.
End FindDuplicates.

(** *** Reading and validating the questions *)

Definition extract_text (elem : option ElementTree.Element) : str :=
  match elem with
  | None => []
  | Some elem => strip (default [] (ElementTree.text elem))
  end.

(** The messages of [validate_xml_structure]; [idx] counts the
    questions from 1. *)
Inductive validation_error :=
  | RootNotQuiz               (* "El elemento raíz debe ser 'quiz'" *)
  | MissingType (idx : nat)   (* "Pregunta {idx}: Falta atributo 'type'" *)
  | CategoryWithoutText (idx : nat)
                              (* "Pregunta {idx}: Categoría sin texto" *)
  | MissingName (idx : nat) (q_type : str)
                    (* "Pregunta {idx} (tipo: {q_type}): Falta nombre" *)
  | MissingQuestionText (idx : nat) (q_type : str)
          (* "Pregunta {idx} (tipo: {q_type}): Falta texto de pregunta" *)
  | NoAnswers (idx : nat) (q_type : str).
                    (* "Pregunta {idx} (tipo: {q_type}): Sin respuestas" *)

(** [elem is None or not elem.text or not elem.text.strip()] *)
Definition blank (elem : option ElementTree.Element) : bool :=
  match elem with
  | None => true
  | Some elem =>
      match ElementTree.text elem with
      | None => true
      | Some t => bool_decide (t = []) || bool_decide (strip t = [])
      end
  end.

(** The question types that must have answers. *)
Definition answered_types : list str :=
  [lit "multichoice"; lit "truefalse"; lit "matching"; lit "shortanswer"].

(** The body of the loop of [validate_xml_structure] for one question. *)
Definition validate_question (idx : nat) (question : ElementTree.Element)
  : list validation_error :=
  match ElementTree.attrib question !! lit "type" with
  | None => [MissingType idx]
  | Some q_type =>
      if bool_decide (q_type = []) then [MissingType idx]
      else if bool_decide (q_type = lit "category") then
        match ElementTree.find_descendant_child
                (lit "category") (lit "text") question with
        | None => [CategoryWithoutText idx]
        | Some _ => []
        end
      else if bool_decide (q_type ≠ lit "description") then
        (if blank (ElementTree.find_descendant_child
                     (lit "name") (lit "text") question)
         then [MissingName idx q_type] else [])
        ++ (if blank (ElementTree.find_descendant_child
                        (lit "questiontext") (lit "text") question)
            then [MissingQuestionText idx q_type] else [])
        ++ (if bool_decide (q_type ∈ answered_types)
               && bool_decide
                    (ElementTree.findall_descendant (lit "answer") question
                     = [])
            then [NoAnswers idx q_type] else [])
      else []
  end.

Definition validate_xml_structure (root : ElementTree.Element)
  : list validation_error :=
  if bool_decide (ElementTree.tag root ≠ lit "quiz") then [RootNotQuiz]
  else
    let questions := ElementTree.findall_child (lit "question") root in
    '(idx, question) ← zip (seq 1 (length questions)) questions;
    validate_question idx question.

(** The counters and lists of [self.stats] and [self.categories] that
    [analyze_file] and [analyze_question] update. The messages of
    [self.issues] and the depth table [files_by_depth] are left out. *)
Record stats := {
  total_files : nat;
  valid_files : nat;
  invalid_files : nat;
  total_questions : nat;
  by_type : gmap str nat;
  by_category : gmap str nat;
  with_tags : nat;
  without_tags : nat;
  by_tag : gmap str nat;
  with_feedback : nat;
  without_feedback : nat;
  empty_questions : nat;
  parse_errors : list (str * str);
  xml_validation_errors : list (str * list validation_error);
  avg_answers_per_question : list nat;
  question_lengths : list nat;
  html_format_questions : list (str * str * str);
  categories : gmap str (list str)
}.

(** The values that [__init__] gives them. *)
Definition init_stats : stats :=
  {| total_files := 0; valid_files := 0; invalid_files := 0;
     total_questions := 0; by_type := ∅; by_category := ∅;
     with_tags := 0; without_tags := 0; by_tag := ∅;
     with_feedback := 0; without_feedback := 0; empty_questions := 0;
     parse_errors := []; xml_validation_errors := [];
     avg_answers_per_question := []; question_lengths := [];
     html_format_questions := []; categories := ∅ |}.

(** [any(self.extract_text(f.find('text')) for f in feedback_elems)] *)
Definition any_feedback_text (feedback_elems : list ElementTree.Element)
  : bool :=
  existsb (fun f => bool_decide
                      (extract_text (ElementTree.find_child (lit "text") f)
                       ≠ []))
          feedback_elems.

(** The loop [for tag in tags] of [analyze_question]. *)
Definition count_tags (tags : list ElementTree.Element)
    (by_tag : gmap str nat) : gmap str nat :=
  foldl (fun by_tag tag_elem =>
           let tag_text := extract_text (Some tag_elem) in
           if bool_decide (tag_text ≠ []) then incr tag_text by_tag
           else by_tag)
        by_tag tags.

(** [analyze_question] on the statistics and on [self.all_questions]. *)
Definition analyze_question (question_elem : ElementTree.Element)
    (filepath : str) (st : stats * list question)
  : stats * list question :=
  let '(s, all_questions) := st in
  let q_type := ElementTree.get question_elem (lit "type") (lit "unknown") in
  if bool_decide (q_type = lit "category") then
    match ElementTree.find_descendant_child
            (lit "category") (lit "text") question_elem with
    | Some category_elem =>
        let category := extract_text (Some category_elem) in
        (
          {| total_files := total_files s; valid_files := valid_files s;
             invalid_files := invalid_files s;
             total_questions := total_questions s; by_type := by_type s;
             by_category := incr category (by_category s);
             with_tags := with_tags s; without_tags := without_tags s;
             by_tag := by_tag s;
             with_feedback := with_feedback s;
             without_feedback := without_feedback s;
             empty_questions := empty_questions s;
             parse_errors := parse_errors s;
             xml_validation_errors := xml_validation_errors s;
             avg_answers_per_question := avg_answers_per_question s;
             question_lengths := question_lengths s;
             html_format_questions := html_format_questions s;
             categories :=
               <[category :=
                   default [] (categories s !! category) ++ [filepath]]>
                 (categories s) |},
          all_questions)
    | None => (s, all_questions)
    end
  else
    let name :=
      extract_text (ElementTree.find_descendant_child
                      (lit "name") (lit "text") question_elem) in
    let text :=
      extract_text (ElementTree.find_descendant_child
                      (lit "questiontext") (lit "text") question_elem) in
    let questiontext_elem :=
      head (ElementTree.findall_descendant
              (lit "questiontext") question_elem) in
    let is_html :=
      match questiontext_elem with
      | Some e => bool_decide (ElementTree.attrib e !! lit "format" = Some (lit "html"))
      | None => false
      end in
    let answers :=
      ElementTree.findall_descendant (lit "answer") question_elem in
    let feedback_elems :=
      ElementTree.findall_descendant (lit "feedback") question_elem in
    let has_feedback :=
      bool_decide (feedback_elems ≠ []) && any_feedback_text feedback_elems in
    let tags :=
      ElementTree.findall_descendant_child
        (lit "tag") (lit "text") question_elem in
    let answer_texts :=
      ans ← answers;
      match ElementTree.find_child (lit "text") ans with
      | Some e => [extract_text (Some e)]
      | None => []
      end in
    (
      {| total_files := total_files s; valid_files := valid_files s;
         invalid_files := invalid_files s;
         total_questions := total_questions s + 1;
         by_type := incr q_type (by_type s);
         by_category := by_category s;
         with_tags :=
           if bool_decide (tags ≠ []) then with_tags s + 1 else with_tags s;
         without_tags :=
           if bool_decide (tags ≠ []) then without_tags s
           else without_tags s + 1;
         by_tag :=
           if bool_decide (tags ≠ []) then count_tags tags (by_tag s)
           else by_tag s;
         with_feedback :=
           if has_feedback then with_feedback s + 1 else with_feedback s;
         without_feedback :=
           if has_feedback then without_feedback s
           else without_feedback s + 1;
         empty_questions :=
           if bool_decide (name = []) && bool_decide (text = [])
           then empty_questions s + 1 else empty_questions s;
         parse_errors := parse_errors s;
         xml_validation_errors := xml_validation_errors s;
         avg_answers_per_question :=
           if bool_decide (answers ≠ [])
           then avg_answers_per_question s ++ [length answers]
           else avg_answers_per_question s;
         question_lengths :=
           question_lengths s ++ [length name + length text];
         html_format_questions :=
           if is_html
           then html_format_questions s ++ [(filepath, name, q_type)]
           else html_format_questions s;
         categories := categories s |},
      all_questions ++ [stored_question filepath q_type name text answer_texts]).

(** What [ET.parse(filepath)] does: it returns a tree, or it raises
    [ParseError] with a message, or another exception. *)
Inductive parse_outcome :=
  | Parsed (root : ElementTree.Element)
  | ParseError (message : str)
  | OtherError.

(** [analyze_file]; [base_path] is [self.base_path], an attribute that
    only [scan_directory] sets. The body reads it after
    [valid_files += 1], to compute the depth of the file: when it is
    not set the [AttributeError] is caught by [except Exception], which
    adds [invalid_files += 1], and the questions of the file are not
    analysed. *)
Definition analyze_file (base_path : option str) (parsed : parse_outcome)
    (filepath : str) (st : stats * list question) : stats * list question :=
  let '(s, all_questions) := st in
  let counted (valid invalid : nat) (errors : list (str * str))
              (validation : list (str * list validation_error)) : stats :=
    {| total_files := total_files s + 1;
       valid_files := valid_files s + valid;
       invalid_files := invalid_files s + invalid;
       total_questions := total_questions s; by_type := by_type s;
       by_category := by_category s;
       with_tags := with_tags s; without_tags := without_tags s;
       by_tag := by_tag s;
       with_feedback := with_feedback s;
       without_feedback := without_feedback s;
       empty_questions := empty_questions s;
       parse_errors := parse_errors s ++ errors;
       xml_validation_errors := xml_validation_errors s ++ validation;
       avg_answers_per_question := avg_answers_per_question s;
       question_lengths := question_lengths s;
       html_format_questions := html_format_questions s;
       categories := categories s |} in
  match parsed with
  | ParseError message =>
      (counted 0 1 [(filepath, message)] [], all_questions)
  | OtherError => (counted 0 1 [] [], all_questions)
  | Parsed root =>
      if bool_decide (ElementTree.tag root ≠ lit "quiz")
      then (counted 0 1 [] [], all_questions)
      else
        let validation_errors := validate_xml_structure root in
        let validation :=
          if bool_decide (validation_errors ≠ [])
          then [(filepath, validation_errors)] else [] in
        match base_path with
        | None => (counted 1 1 [] validation, all_questions)
        | Some _ =>
            foldl (fun st question_elem =>
                     analyze_question question_elem filepath st)
                  (counted 1 0 [] validation, all_questions)
                  (ElementTree.findall_child (lit "question") root)
        end
  end.

Section ScanDirectory.
Variable lower : str -> str.

(** [scan_directory] on the files that the glob pattern gives, each
    with the outcome of [ET.parse]: [self.base_path], which is set
    first, the statistics and the part of the object that
    [find_duplicates] updates. *)
Definition scan_directory (directory : str)
    (xml_files : list (parse_outcome * str))
    (st : stats) (self : analyzer) : option str * stats * analyzer :=
  let base_path := Some directory in
  if bool_decide (xml_files = []) then (base_path, st, self)
  else
    let '(st', all_questions') :=
      foldl (fun acc '(parsed, filepath) =>
               analyze_file base_path parsed filepath acc)
            (st, all_questions self) xml_files in
    (base_path, st',
     find_duplicates lower
       {| similarity_threshold := similarity_threshold self;
          all_questions := all_questions';
          duplicates := duplicates self |}).
End ScanDirectory.

(** *** Figures of the report *)

(** The percentage lines: [(count / total * 100) if total > 0 else 0]. *)
Definition percentage (count total : nat) : R :=
  if 0 <? total then (INR count / INR total * 100)%R else 0%R.

End QuestionAnalyzer.

(** ** One run in binary64 arithmetic

    A Python float is a binary64 number; [+], [*], [/] and [math.sqrt]
    round to nearest, as the operations of [PrimFloat] do. The
    similarity that a run computes depends on the order in which the
    products are added, and that order is the iteration order of a
    set. *)

Module Float64.
Import PrimFloat.

(** A dictionary with float values, as the list of its items in
    insertion order. *)
Definition fvector : Type := list (str * float).

(** [vec[word]], which is read at keys of the dictionary only. *)
Fixpoint item (vec : fvector) (word : str) : float :=
  match vec with
  | [] => 0%float
  | (key, val) :: vec' =>
      if bool_decide (key = word) then val else item vec' word
  end.

(** [sum(...)] over floats: the terms are added from left to right,
    starting from 0 (the plain float loop of [sum]; a compensated
    summation is not modelled). *)
Definition sum (terms : list float) : float :=
  foldl add 0%float terms.

(** [common_words] lists the set [set(vec1.keys()) & set(vec2.keys())]
    in the order in which a run iterates over it. Python does not fix
    this order: for strings it changes with the hash seed of the
    process. *)
Definition iteration_of (common_words : list str) (vec1 vec2 : fvector)
  : Prop :=
  common_words ≡ₚ list_intersection vec1.*1 vec2.*1.

(** [cosine_similarity] in a run that iterates over the common words
    in the order [common_words]. [val**2] is the rounded square. *)
Definition cosine_similarity (common_words : list str)
    (vec1 vec2 : fvector) : float :=
  match vec1, vec2, common_words with
  | [], _, _ | _, [], _ | _, _, [] => 0%float
  | _, _, _ =>
      let dot_product :=
        sum ((fun word => item vec1 word * item vec2 word)%float
               <$> common_words) in
      let mag1 := sqrt (sum ((fun val => val * val)%float <$> vec1.*2)) in
      let mag2 := sqrt (sum ((fun val => val * val)%float <$> vec2.*2)) in
      if (mag1 =? 0)%float || (mag2 =? 0)%float then 0%float
      else (dot_product / (mag1 * mag2))%float
  end.

Definition fpair : Type := nat * nat * float.

(** The stable descending sort on the third component, for keys that
    are numbers. *)
Fixpoint insert_desc (p : fpair) (l : list fpair) : list fpair :=
  match l with
  | [] => [p]
  | q :: l' =>
      if (q.2 <=? p.2)%float then p :: q :: l' else q :: insert_desc p l'
  end.

Definition sort_desc (l : list fpair) : list fpair :=
  foldr insert_desc [] l.

(** The nested loops of the pair-finding step; [order i j] is the
    iteration order of the common words in the call for the pair
    [(i, j)]. *)
Definition compare_all (order : nat -> nat -> list str)
    (vectors : list fvector) (threshold : float) : list fpair :=
  let n := length vectors in
  i ← seq 0 n;
  j ← seq (i + 1) (n - (i + 1));
  let similarity :=
    cosine_similarity (order i j) (vectors !!! i) (vectors !!! j) in
  if (threshold <=? similarity)%float then [(i, j, similarity)] else [].

Definition similar_pairs (order : nat -> nat -> list str)
    (vectors : list fvector) (threshold : float) : list fpair :=
  sort_desc (compare_all order vectors threshold).

End Float64.

(** ** Notions used to state the properties *)

Module Spec.

(** The alphabet of a cleaned text: lower-case ASCII letters, the seven
    accented letters, digits and the plain space. *)
Definition clean_char (c : char) : bool :=
  in_kept_class c && (negb (is_space c) || (c =? SPACE)%N).

(** No run of two spaces; [after_space] tells that a space came just
    before. *)
Fixpoint single_spaced (after_space : bool) (s : str) : bool :=
  match s with
  | [] => true
  | c :: r =>
      if is_space c then negb after_space && single_spaced true r
      else single_spaced false r
  end.

(** A [str.lower] restricted to ASCII, used to instantiate the built-in
    in examples. *)
Definition ascii_lower (s : str) : str :=
  List.map (fun c => if ((65 <=? c) && (c <=? 90))%N then (c + 32)%N else c) s.

(** How many times [word] occurs in a list of tokens. *)
Definition occurrences (word : str) (words : list str) : nat :=
  length (filter (fun w => w = word) words).

(** Document frequency: how many texts contain [word] as a token. *)
Definition document_frequency (word : str) (all_texts : list str) : nat :=
  length (filter (fun text => word ∈ split text) all_texts).

(** The effect of [n] increments on the entry of a [defaultdict(int)]:
    none when [n] is zero, otherwise the entry exists afterwards. *)
Definition bump (n : nat) (entry : option nat) : option nat :=
  match n with
  | 0 => entry
  | S _ => Some (default 0 entry + n)
  end.

(** The same question under another display name. *)
Definition rename (new_name : str) (info : FindSimilar.question_info)
  : FindSimilar.question_info :=
  {| FindSimilar.type := FindSimilar.type info;
     FindSimilar.name := new_name;
     FindSimilar.text := FindSimilar.text info;
     FindSimilar.answers := FindSimilar.answers info;
     FindSimilar.feedbacks := FindSimilar.feedbacks info;
     FindSimilar.generalfeedback := FindSimilar.generalfeedback info |}.

(** The order in which the nested loops visit index pairs: document
    order, first on [i] and then on [j]. *)
Definition visited_before (p q : pair) : Prop :=
  p.1.1 < q.1.1 \/ (p.1.1 = q.1.1 /\ p.1.2 < q.1.2).

(** The order of a result list: higher similarity first, and among equal
    similarities the pair visited first. *)
Definition ranked_before (p q : pair) : Prop :=
  (similarity_of p > similarity_of q)%R
  \/ (similarity_of p = similarity_of q /\ visited_before p q).

(** A tidy text: only plain spaces as white space, none at the start,
    none at the end and no two in a row. [after_space] tells that the
    text read so far is empty or ends with a space. *)
Fixpoint tidy (after_space : bool) (t : str) : bool :=
  match t with
  | [] => negb after_space
  | c :: r =>
      if is_space c then (c =? SPACE)%N && negb after_space && tidy true r
      else tidy false r
  end.

(** A question that [validate_xml_structure] accepts. *)
Definition well_formed_question (question : ElementTree.Element) : Prop :=
  match ElementTree.attrib question !! lit "type" with
  | None => False
  | Some q_type =>
      q_type <> []
      /\ if bool_decide (q_type = lit "category") then
           is_Some (ElementTree.find_descendant_child
                      (lit "category") (lit "text") question)
         else if bool_decide (q_type = lit "description") then True
         else
           QuestionAnalyzer.blank
             (ElementTree.find_descendant_child
                (lit "name") (lit "text") question) = false
           /\ QuestionAnalyzer.blank
                (ElementTree.find_descendant_child
                   (lit "questiontext") (lit "text") question) = false
           /\ (q_type ∈ QuestionAnalyzer.answered_types ->
               ElementTree.findall_descendant (lit "answer") question <> [])
  end.

(** The number of the question that a validation message names. *)
Definition error_index (e : QuestionAnalyzer.validation_error)
  : option nat :=
  match e with
  | QuestionAnalyzer.RootNotQuiz => None
  | QuestionAnalyzer.MissingType idx
  | QuestionAnalyzer.CategoryWithoutText idx
  | QuestionAnalyzer.MissingName idx _
  | QuestionAnalyzer.MissingQuestionText idx _
  | QuestionAnalyzer.NoAnswers idx _ => Some idx
  end.

(** The relations between the counters of the questions that the
    report of the analyzer relies on. *)
Definition questions_consistent
    (st : QuestionAnalyzer.stats * list QuestionAnalyzer.question) : Prop :=
  let s := st.1 in
  let total := QuestionAnalyzer.total_questions s in
  total = length st.2
  /\ total = QuestionAnalyzer.with_tags s + QuestionAnalyzer.without_tags s
  /\ total
     = QuestionAnalyzer.with_feedback s + QuestionAnalyzer.without_feedback s
  /\ total = length (QuestionAnalyzer.question_lengths s)
  /\ total = sum_values (QuestionAnalyzer.by_type s)
  /\ QuestionAnalyzer.empty_questions s <= total
  /\ length (QuestionAnalyzer.avg_answers_per_question s) <= total
  /\ length (QuestionAnalyzer.html_format_questions s) <= total
  /\ length (QuestionAnalyzer.parse_errors s)
     <= QuestionAnalyzer.invalid_files s
  /\ length (QuestionAnalyzer.xml_validation_errors s)
     <= QuestionAnalyzer.valid_files s.

(** The counters of the files add up as well. *)
Definition consistent
    (st : QuestionAnalyzer.stats * list QuestionAnalyzer.question) : Prop :=
  QuestionAnalyzer.total_files st.1
  = QuestionAnalyzer.valid_files st.1 + QuestionAnalyzer.invalid_files st.1
  /\ questions_consistent st.

(** A small corpus for the examples; its last document has no token of
    more than two characters. *)
Definition example_corpus : list str :=
  [lit "hola mundo"; lit "hola clase"; lit "a b cd"].

End Spec.

Import Spec.

(** * Properties *)

(** ** Strings *)

Example split_example :
  split (lit "  uno dos   tres ") = [lit "uno"; lit "dos"; lit "tres"].
Proof. reflexivity. Qed.

Example strip_example : strip (lit "  a b  ") = lit "a b".
Proof. reflexivity. Qed.

Example sub_spaces_example :
  sub_spaces (lit "a   b" ++ [10%N; 9%N] ++ lit "c ") = lit "a b c ".
Proof. reflexivity. Qed.

Example clean_text_example :
  FindSimilar.clean_text ascii_lower (lit "  Hola,   MUNDO! 2+2=4 ")
  = lit "hola mundo 2 2 4".
Proof. reflexivity. Qed.

Section Strings.

Lemma kept_space : in_kept_class SPACE = true.
Proof. reflexivity. Qed.

Lemma clean_char_kept c : clean_char c = true -> in_kept_class c = true.
Proof. unfold clean_char. intros H%andb_prop. tauto. Qed.

Lemma sub_not_kept_kept s :
  Forall (fun c => in_kept_class c = true) (sub_not_kept s).
Proof.
  induction s as [|c r IH]; simpl; constructor; auto.
  destruct (in_kept_class c) eqn:E; auto using kept_space.
Qed.

Lemma sub_not_kept_id s :
  Forall (fun c => in_kept_class c = true) s -> sub_not_kept s = s.
Proof.
  induction 1 as [|c r Hc _ IH]; simpl; [reflexivity|].
  rewrite Hc. f_equal. exact IH.
Qed.

Lemma sub_spaces_from_clean b s :
  Forall (fun c => in_kept_class c = true) s ->
  Forall (fun c => clean_char c = true) (sub_spaces_from b s).
Proof.
  intros H. revert b.
  induction H as [|c r Hc _ IH]; intros b; simpl; [constructor|].
  destruct (is_space c) eqn:E.
  - destruct b; [apply IH|]. constructor; [reflexivity|apply IH].
  - constructor; [|apply IH]. unfold clean_char. rewrite Hc, E. reflexivity.
Qed.

Lemma sub_spaces_from_single b s :
  single_spaced b (sub_spaces_from b s) = true.
Proof.
  revert b. induction s as [|c r IH]; intros b; simpl; [reflexivity|].
  destruct (is_space c) eqn:E.
  - destruct b; [apply IH|]. simpl. apply IH.
  - simpl. rewrite E. apply IH.
Qed.

Lemma sub_spaces_from_id b s :
  Forall (fun c => clean_char c = true) s ->
  single_spaced b s = true -> sub_spaces_from b s = s.
Proof.
  intros H. revert b.
  induction H as [|c r Hc _ IH]; intros b; simpl; [reflexivity|].
  destruct (is_space c) eqn:E.
  - intros [Hb Hr]%andb_prop. destruct b; [discriminate|].
    unfold clean_char in Hc. rewrite E in Hc. simpl in Hc.
    apply andb_prop in Hc as [_ Hc]. apply N.eqb_eq in Hc.
    rewrite Hc. f_equal. apply IH, Hr.
  - intros Hr. f_equal. apply IH, Hr.
Qed.

Lemma single_spaced_weaken s :
  single_spaced true s = true -> single_spaced false s = true.
Proof.
  destruct s as [|c r]; simpl; [reflexivity|].
  destruct (is_space c); [discriminate|auto].
Qed.

(** [lstrip] *)

Lemma lstrip_suffix s : exists ws, s = ws ++ lstrip s.
Proof.
  induction s as [|c r [ws IH]]; simpl; [by exists []|].
  destruct (is_space c); [|by exists []].
  exists (c :: ws). simpl. by rewrite <- IH.
Qed.

Lemma lstrip_Forall (P : char -> Prop) s : Forall P s -> Forall P (lstrip s).
Proof.
  destruct (lstrip_suffix s) as [ws E]. intros H. rewrite E in H.
  by apply Forall_app in H as [_ H].
Qed.

Lemma lstrip_single s :
  single_spaced false s = true -> single_spaced false (lstrip s) = true.
Proof.
  induction s as [|c r IH]; simpl; [reflexivity|].
  destruct (is_space c) eqn:E; simpl.
  - intros H. apply IH, single_spaced_weaken, H.
  - rewrite E. auto.
Qed.

Lemma lstrip_idemp s : lstrip (lstrip s) = lstrip s.
Proof.
  induction s as [|c r IH]; simpl; [reflexivity|].
  destruct (is_space c) eqn:E; [exact IH|]. simpl. by rewrite E.
Qed.

Lemma lstrip_snoc s c :
  lstrip (s ++ [c]) =
  match lstrip s with
  | [] => if is_space c then [] else [c]
  | _ :: _ => lstrip s ++ [c]
  end.
Proof.
  induction s as [|d r IH]; simpl; [reflexivity|].
  destruct (is_space d); [exact IH|reflexivity].
Qed.

(** [rstrip], read from the left. *)

Lemma rstrip_cons c r :
  rstrip (c :: r) =
  match rstrip r with
  | [] => if is_space c then [] else [c]
  | _ :: _ => c :: rstrip r
  end.
Proof.
  unfold rstrip. rewrite reverse_cons, lstrip_snoc.
  destruct (lstrip (reverse r)) as [|d l] eqn:E.
  - rewrite reverse_nil. by destruct (is_space c).
  - rewrite reverse_app, reverse_singleton. simpl.
    destruct (reverse (d :: l)) eqn:E'; [|reflexivity].
    apply (f_equal length) in E'. rewrite length_reverse in E'. discriminate.
Qed.

Lemma rstrip_nil : rstrip [] = [].
Proof. reflexivity. Qed.

Lemma rstrip_Forall (P : char -> Prop) s : Forall P s -> Forall P (rstrip s).
Proof.
  induction 1 as [|c r Hc Hr IH]; [constructor|].
  rewrite rstrip_cons. destruct (rstrip r).
  - destruct (is_space c); auto.
  - by constructor.
Qed.

Lemma rstrip_single b s :
  single_spaced b s = true -> single_spaced b (rstrip s) = true.
Proof.
  revert b. induction s as [|c r IH]; intros b; [auto|].
  rewrite rstrip_cons. simpl.
  destruct (is_space c) eqn:E.
  - intros [Hb Hr]%andb_prop. specialize (IH _ Hr).
    destruct (rstrip r); [reflexivity|]. simpl (single_spaced b (c :: _)).
    rewrite E, Hb. exact IH.
  - intros Hr. specialize (IH _ Hr).
    destruct (rstrip r); simpl; by rewrite E.
Qed.

Lemma rstrip_idemp s : rstrip (rstrip s) = rstrip s.
Proof.
  unfold rstrip. by rewrite reverse_involutive, lstrip_idemp.
Qed.

Lemma lstrip_rstrip_lstrip s : lstrip (rstrip (lstrip s)) = rstrip (lstrip s).
Proof.
  assert (H : lstrip (lstrip s) = lstrip s) by apply lstrip_idemp.
  destruct (lstrip s) as [|c r]; [reflexivity|].
  simpl in H. destruct (is_space c) eqn:E.
  - apply (f_equal length) in H. destruct (lstrip_suffix r) as [ws Hws].
    apply (f_equal length) in Hws. rewrite length_app in Hws.
    simpl in H. lia.
  - rewrite rstrip_cons. destruct (rstrip r); rewrite ?E; simpl; by rewrite E.
Qed.

Lemma strip_idemp s : strip (strip s) = strip s.
Proof.
  unfold strip. by rewrite lstrip_rstrip_lstrip, rstrip_idemp.
Qed.

Lemma strip_Forall (P : char -> Prop) s : Forall P s -> Forall P (strip s).
Proof. intros H. apply rstrip_Forall, lstrip_Forall, H. Qed.

Lemma strip_single s :
  single_spaced false s = true -> single_spaced false (strip s) = true.
Proof. intros H. apply rstrip_single, lstrip_single, H. Qed.

End Strings.

(** ** The text normaliser *)

Section Normalizer.

Lemma clean_char_not_upper c :
  clean_char c = true -> ((65 <=? c) && (c <=? 90))%N = false.
Proof.
  intros H%clean_char_kept. apply not_true_is_false. revert H.
  unfold in_kept_class, is_space, accented.
  rewrite !orb_true_iff, !andb_true_iff, !N.leb_le, !N.eqb_eq,
    bool_decide_eq_true, !elem_of_cons, elem_of_nil.
  lia.
Qed.

Lemma ascii_lower_clean s :
  Forall (fun c => clean_char c = true) s -> ascii_lower s = s.
Proof.
  induction 1 as [|c r Hc _ IH]; simpl; [reflexivity|].
  rewrite (clean_char_not_upper c Hc). f_equal. exact IH.
Qed.

Variable lower : str -> str.

Lemma clean_text_same s :
  QuestionAnalyzer.clean_text lower s = FindSimilar.clean_text lower s.
Proof. reflexivity. Qed.

Lemma clean_text_clean s :
  Forall (fun c => clean_char c = true) (FindSimilar.clean_text lower s).
Proof.
  unfold FindSimilar.clean_text.
  apply strip_Forall, sub_spaces_from_clean, sub_not_kept_kept.
Qed.

Lemma clean_text_single s :
  single_spaced false (FindSimilar.clean_text lower s) = true.
Proof.
  unfold FindSimilar.clean_text. apply strip_single, sub_spaces_from_single.
Qed.

(** C9: the normaliser is idempotent, for the function of
    [find_similar_questions.py] and for the method of
    [QuestionAnalyzer]: cleaning a cleaned text gives the same text.
    [str.lower] is any function that leaves strings over the cleaned
    alphabet unchanged. *)
Theorem clean_text_idempotent :
  (forall t, Forall (fun c => clean_char c = true) t -> lower t = t) ->
  forall s,
    FindSimilar.clean_text lower (FindSimilar.clean_text lower s)
    = FindSimilar.clean_text lower s
    /\ QuestionAnalyzer.clean_text lower (QuestionAnalyzer.clean_text lower s)
       = QuestionAnalyzer.clean_text lower s.
Proof.
  intros Hlower s.
  assert (E : FindSimilar.clean_text lower (FindSimilar.clean_text lower s)
              = FindSimilar.clean_text lower s); [|split; exact E].
  pose proof (clean_text_clean s) as Hc.
  pose proof (clean_text_single s) as Hs.
  set (t := FindSimilar.clean_text lower s) in *.
  unfold FindSimilar.clean_text at 1.
  rewrite (Hlower t Hc).
  rewrite (sub_not_kept_id t)
    by (eapply Forall_impl; [exact Hc|apply clean_char_kept]).
  unfold sub_spaces. rewrite (sub_spaces_from_id false t Hc Hs).
  unfold t, FindSimilar.clean_text. apply strip_idemp.
Qed.

End Normalizer.

(** Idempotence on a text with capitals, punctuation and runs of spaces,
    with the ASCII [str.lower]. *)
Lemma clean_text_idempotent_witness :
  let s := lit "  Hola,   MUNDO! 2+2=4 " in
  (forall t, Forall (fun c => clean_char c = true) t -> ascii_lower t = t)
  /\ FindSimilar.clean_text ascii_lower (FindSimilar.clean_text ascii_lower s)
     = FindSimilar.clean_text ascii_lower s
  /\ QuestionAnalyzer.clean_text ascii_lower
       (QuestionAnalyzer.clean_text ascii_lower s)
     = QuestionAnalyzer.clean_text ascii_lower s.
Proof.
  split; [exact ascii_lower_clean|].
  exact (clean_text_idempotent ascii_lower ascii_lower_clean _).
Defined.

(** ** Term frequencies *)

Section TermFrequency.

Lemma occurrences_pos (word : str) (words : list str) : word ∈ words -> 1 <= occurrences word words.
Proof.
  unfold occurrences. induction 1 as [w l|w x l _ IH].
  - rewrite filter_cons_True by done. simpl. lia.
  - rewrite filter_cons. case_decide; simpl; lia.
Qed.

Lemma occurrences_zero (word : str) (words : list str) : word ∉ words -> occurrences word words = 0.
Proof.
  unfold occurrences. induction words as [|x l IH]; [done|].
  intros [Hx Hl]%not_elem_of_cons.
  rewrite filter_cons_False by congruence. auto.
Qed.

Lemma occurrences_cons (word x : str) (words : list str) :
  occurrences word (x :: words)
  = (if bool_decide (x = word) then 1 else 0) + occurrences word words.
Proof.
  unfold occurrences. rewrite filter_cons.
  case_decide; case_bool_decide; done.
Qed.

Lemma bump_bump (a b : nat) (entry : option nat) :
  bump a (bump b entry) = bump (b + a) entry.
Proof.
  destruct a, b; simpl; try done; f_equal; lia.
Qed.

Lemma incr_lookup (word : str) (d : gmap str nat) (w : str) :
  incr word d !! w = bump (if bool_decide (word = w) then 1 else 0) (d !! w).
Proof.
  unfold incr. rewrite lookup_insert.
  case_decide; case_bool_decide; subst; done.
Qed.

(** One iteration of the counting loops. *)
Lemma count_step_lookup (word : str) (d : gmap str nat) (w : str) :
  (if bool_decide (2 < length word) then incr word d else d) !! w
  = bump (if bool_decide (2 < length w)
          then (if bool_decide (word = w) then 1 else 0) else 0) (d !! w).
Proof.
  case_bool_decide as Hx; [rewrite incr_lookup|];
    repeat case_bool_decide; subst; done.
Qed.

(** The counting loop of [compute_word_freq], from any dictionary. *)
Lemma count_loop_lookup (words : list str) (acc : gmap str nat) (w : str) :
  foldl (fun freq word =>
           if bool_decide (2 < length word) then incr word freq else freq)
        acc words !! w
  = bump (if bool_decide (2 < length w) then occurrences w words else 0)
         (acc !! w).
Proof.
  revert acc. induction words as [|x l IH]; intros acc; simpl.
  - by case_bool_decide.
  - rewrite IH, count_step_lookup, bump_bump, occurrences_cons.
    by case_bool_decide.
Qed.

Lemma compute_word_freq_lookup (text w : str) :
  FindSimilar.compute_word_freq text !! w
  = bump (if bool_decide (2 < length w)
          then occurrences w (split text) else 0) None.
Proof.
  unfold FindSimilar.compute_word_freq. rewrite count_loop_lookup.
  by rewrite lookup_empty.
Qed.

Lemma compute_word_freq_Some (text w : str) (count : nat) :
  FindSimilar.compute_word_freq text !! w = Some count ->
  2 < length w /\ w ∈ split text /\ count = occurrences w (split text)
  /\ 1 <= count.
Proof.
  rewrite compute_word_freq_lookup. case_bool_decide as Hw; [|done].
  destruct (decide (w ∈ split text)) as [Hin|Hin].
  - pose proof (occurrences_pos _ _ Hin).
    destruct (occurrences w (split text)) eqn:E; [lia|].
    simpl. intros [= <-]. repeat split; [done..|lia].
  - by rewrite occurrences_zero.
Qed.

Lemma compute_word_freq_token (text w : str) :
  2 < length w -> w ∈ split text ->
  FindSimilar.compute_word_freq text !! w = Some (occurrences w (split text)).
Proof.
  intros Hw Hin. rewrite compute_word_freq_lookup, bool_decide_eq_true_2 by done.
  pose proof (occurrences_pos _ _ Hin).
  destruct (occurrences w (split text)) eqn:E; [lia|done].
Qed.

Lemma compute_word_freq_same (text : str) :
  QuestionAnalyzer.compute_word_freq text = FindSimilar.compute_word_freq text.
Proof. reflexivity. Qed.

Lemma sum_values_ge (freq : gmap str nat) (w : str) (count : nat) :
  freq !! w = Some count -> count <= sum_values freq.
Proof.
  unfold sum_values. revert w count.
  apply (map_fold_weak_ind
           (fun r (m : gmap str nat) => forall w c, m !! w = Some c -> c <= r)).
  - intros w c. by rewrite lookup_empty.
  - intros i x m r Hi IH w c. rewrite lookup_insert.
    case_decide; [intros [= ->]; lia|]. intros Hm%IH. lia.
Qed.

Lemma sum_values_empty : sum_values ∅ = 0.
Proof. apply map_fold_empty. Qed.

Lemma compute_tfidf_vector_same (text : str) (idf : vector) :
  QuestionAnalyzer.compute_tfidf_vector text idf
  = FindSimilar.compute_tfidf_vector text idf.
Proof. reflexivity. Qed.

(** An entry of a TF-IDF vector comes from an entry of the frequency
    dictionary of the same text. *)
Lemma compute_tfidf_vector_Some (text : str) (idf : vector) (w : str) (x : R) :
  FindSimilar.compute_tfidf_vector text idf !! w = Some x ->
  exists count,
    FindSimilar.compute_word_freq text !! w = Some count
    /\ 1 <= count <= sum_values (FindSimilar.compute_word_freq text)
    /\ x = (INR count / INR (sum_values (FindSimilar.compute_word_freq text))
            * default 0 (idf !! w))%R.
Proof.
  unfold FindSimilar.compute_tfidf_vector.
  destruct (sum_values _ =? 0) eqn:E; [by rewrite lookup_empty|].
  rewrite map_lookup_imap.
  destruct (FindSimilar.compute_word_freq text !! w) as [count|] eqn:Hw;
    [|done].
  simpl. intros [= <-]. exists count. split; [done|]. split; [|done].
  split.
  - by apply compute_word_freq_Some in Hw as (_ & _ & _ & ?).
  - by apply sum_values_ge in Hw.
Qed.

(** C10: every key of the frequency dictionary has at least three
    characters and a count of at least one, and every key of the TF-IDF
    vector of a text is a key of its frequency dictionary. *)
Theorem word_freq_keys_long_and_counted (text : str) :
  (forall w count,
      FindSimilar.compute_word_freq text !! w = Some count ->
      3 <= length w /\ 1 <= count)
  /\ (forall idf w,
         is_Some (FindSimilar.compute_tfidf_vector text idf !! w) ->
         is_Some (FindSimilar.compute_word_freq text !! w)).
Proof.
  split.
  - intros w count H. apply compute_word_freq_Some in H. lia.
  - intros idf w [x Hx].
    apply compute_tfidf_vector_Some in Hx as (count & Hc & _). eauto.
Qed.

End TermFrequency.

(** ** Inverse document frequencies *)

Section InverseDocumentFrequency.

Lemma document_frequency_cons (w text : str) (all_texts : list str) :
  document_frequency w (text :: all_texts)
  = (if bool_decide (w ∈ split text) then 1 else 0)
    + document_frequency w all_texts.
Proof.
  unfold document_frequency. rewrite filter_cons.
  case_decide; case_bool_decide; done.
Qed.

Lemma document_frequency_le (w : str) (all_texts : list str) :
  document_frequency w all_texts <= length all_texts.
Proof. apply length_filter. Qed.

Lemma document_frequency_pos (w text : str) (all_texts : list str) :
  text ∈ all_texts -> w ∈ split text -> 1 <= document_frequency w all_texts.
Proof.
  intros Hin Hw. induction Hin as [t l|t x l _ IH];
    rewrite document_frequency_cons.
  - rewrite bool_decide_eq_true_2 by done. lia.
  - specialize (IH Hw). case_bool_decide; lia.
Qed.

(** The inner loop of [compute_idf] over the set of words of one text. *)
Lemma doc_step_lookup (words : gset str) (dc : gmap str nat) (w : str) :
  set_fold (fun word dc =>
              if bool_decide (2 < length word) then incr word dc else dc)
           dc words !! w
  = bump (if bool_decide (2 < length w)
          then (if bool_decide (w ∈ words) then 1 else 0) else 0) (dc !! w).
Proof.
  revert w.
  pose (P := fun (r : gmap str nat) (X : gset str) =>
               forall w : str,
                 r !! w
                 = bump (if bool_decide (2 < length w)
                         then (if bool_decide (w ∈ X) then 1 else 0) else 0)
                        (dc !! w)).
  apply (set_fold_ind_L P); unfold P; clear P.
  - intros w. rewrite (bool_decide_eq_false_2 (w ∈ ∅)) by set_solver.
    by case_bool_decide.
  - intros x X r Hx IH w.
    rewrite count_step_lookup, IH, bump_bump. f_equal.
    repeat case_bool_decide; subst; first [done | exfalso; set_solver].
Qed.

(** The outer loop of [compute_idf], from any dictionary. *)
Lemma doc_loop_lookup (all_texts : list str) (acc : gmap str nat) (w : str) :
  foldl (fun doc_count text =>
           let words : gset str := list_to_set (split text) in
           set_fold (fun word dc =>
                       if bool_decide (2 < length word)
                       then incr word dc else dc)
                    doc_count words)
        acc all_texts !! w
  = bump (if bool_decide (2 < length w)
          then document_frequency w all_texts else 0) (acc !! w).
Proof.
  revert acc. induction all_texts as [|text l IH]; intros acc; simpl.
  - by case_bool_decide.
  - rewrite IH, doc_step_lookup, bump_bump, document_frequency_cons.
    f_equal. repeat case_bool_decide; first [done | exfalso; set_solver].
Qed.

Lemma doc_count_same (all_texts : list str) :
  QuestionAnalyzer.doc_count all_texts = FindSimilar.doc_count all_texts.
Proof. reflexivity. Qed.

(** A token of more than two characters that occurs in some text of the
    corpus is a key of [doc_count], with its document frequency. *)
Lemma doc_count_token (all_texts : list str) (w text : str) :
  2 < length w -> text ∈ all_texts -> w ∈ split text ->
  FindSimilar.doc_count all_texts !! w
  = Some (document_frequency w all_texts).
Proof.
  intros Hw Hin Hsplit. unfold FindSimilar.doc_count.
  rewrite doc_loop_lookup, bool_decide_eq_true_2, lookup_empty by done.
  pose proof (document_frequency_pos _ _ _ Hin Hsplit).
  by destruct (document_frequency w all_texts); [lia|].
Qed.

Lemma smoothed_weight_ge_1 (num_docs count : nat) :
  count <= num_docs ->
  (1 <= ln (INR (num_docs + 1) / INR (count + 1)) + 1)%R.
Proof.
  intros Hle.
  assert (0 < INR (count + 1))%R by (apply lt_0_INR; lia).
  assert (INR (count + 1) <= INR (num_docs + 1))%R by (apply le_INR; lia).
  assert (Hq : (1 <= INR (num_docs + 1) / INR (count + 1))%R).
  { apply (Rmult_le_reg_r (INR (count + 1))); [done|].
    unfold Rdiv. rewrite Rmult_assoc, Rinv_l by lra. lra. }
  destruct Hq as [Hq|Hq].
  - apply ln_increasing in Hq; [|lra]. rewrite ln_1 in Hq. lra.
  - rewrite <- Hq, ln_1. lra.
Qed.

Lemma raw_weight_sign (num_docs count : nat) :
  0 < num_docs ->
  (0 < ln (INR num_docs / INR (1 + count)))%R <-> count + 1 < num_docs.
Proof.
  intros Hn.
  assert (0 < INR (1 + count))%R by (apply lt_0_INR; lia).
  assert (0 < INR num_docs)%R by (apply lt_0_INR; lia).
  assert (Hpos : (0 < INR num_docs / INR (1 + count))%R)
    by (apply Rdiv_lt_0_compat; lra).
  rewrite <- ln_1. split.
  - intros Hlt%ln_lt_inv; [|lra|done].
    apply (Rmult_lt_compat_r (INR (1 + count))) in Hlt; [|done].
    unfold Rdiv in Hlt. rewrite Rmult_assoc, Rinv_l, Rmult_1_l, Rmult_1_r in Hlt by lra.
    apply INR_lt in Hlt. lia.
  - intros Hlt. apply ln_increasing; [lra|].
    apply (Rmult_lt_reg_r (INR (1 + count))); [done|].
    unfold Rdiv. rewrite Rmult_assoc, Rinv_l, Rmult_1_l, Rmult_1_r by lra.
    apply lt_INR. lia.
Qed.

Lemma compute_idf_token (all_texts : list str) (w text : str) :
  2 < length w -> text ∈ all_texts -> w ∈ split text ->
  FindSimilar.compute_idf all_texts !! w
  = Some (ln (INR (length all_texts + 1)
              / INR (document_frequency w all_texts + 1)) + 1)%R.
Proof.
  intros Hw Hin Hsplit. unfold FindSimilar.compute_idf.
  by rewrite lookup_fmap, (doc_count_token _ _ _ Hw Hin Hsplit).
Qed.

Lemma analyzer_compute_idf_token (all_texts : list str) (w text : str) :
  2 < length w -> text ∈ all_texts -> w ∈ split text ->
  QuestionAnalyzer.compute_idf all_texts !! w
  = Some (ln (INR (length all_texts)
              / INR (1 + document_frequency w all_texts)))%R.
Proof.
  intros Hw Hin Hsplit. unfold QuestionAnalyzer.compute_idf.
  by rewrite lookup_fmap, doc_count_same,
    (doc_count_token _ _ _ Hw Hin Hsplit).
Qed.

(** C1, as the code has it: a token of more than two characters that
    occurs in a document gets from [compute_idf] of
    [find_similar_questions.py] the weight
    [ln((N + 1) / (count + 1)) + 1], which is at least 1 and so
    strictly positive; from [QuestionAnalyzer.compute_idf] it gets
    [ln(N / (1 + count))], which is strictly positive exactly when
    [count + 1 < N]. [N] is the number of documents and [count] the
    number of documents that contain the token. *)
Theorem idf_weight_of_token (all_texts : list str) (w text : str) :
  2 < length w -> text ∈ all_texts -> w ∈ split text ->
  let num_docs := length all_texts in
  let count := document_frequency w all_texts in
  (exists x,
      FindSimilar.compute_idf all_texts !! w = Some x
      /\ x = (ln (INR (num_docs + 1) / INR (count + 1)) + 1)%R
      /\ (1 <= x)%R /\ (0 < x)%R)
  /\ (exists y,
         QuestionAnalyzer.compute_idf all_texts !! w = Some y
         /\ y = ln (INR num_docs / INR (1 + count))
         /\ ((0 < y)%R <-> count + 1 < num_docs)).
Proof.
  intros Hw Hin Hsplit num_docs count. split.
  - eexists. split; [by eapply compute_idf_token|]. split; [done|].
    pose proof (smoothed_weight_ge_1 num_docs count
                  (document_frequency_le w all_texts)).
    subst num_docs count. split; lra.
  - eexists. split; [by eapply analyzer_compute_idf_token|]. split; [done|].
    apply raw_weight_sign. subst num_docs.
    destruct all_texts; [by apply elem_of_nil in Hin|simpl; lia].
Qed.

End InverseDocumentFrequency.

(** The two weights of the token "mundo", which occurs in one document of
    three. *)
Lemma idf_weight_of_token_witness :
  let all_texts := [lit "hola mundo"; lit "hola clase"; lit "otra cosa"] in
  let w := lit "mundo" in
  (exists x,
      FindSimilar.compute_idf all_texts !! w = Some x
      /\ x = (ln (INR (3 + 1) / INR (document_frequency w all_texts + 1)) + 1)%R
      /\ (1 <= x)%R /\ (0 < x)%R)
  /\ (exists y,
         QuestionAnalyzer.compute_idf all_texts !! w = Some y
         /\ y = ln (INR 3 / INR (1 + document_frequency w all_texts))
         /\ ((0 < y)%R <-> document_frequency w all_texts + 1 < 3)).
Proof.
  apply (idf_weight_of_token
           [lit "hola mundo"; lit "hola clase"; lit "otra cosa"]
           (lit "mundo") (lit "hola mundo")).
  - vm_compute. lia.
  - left.
  - vm_compute. right. left.
Defined.

(** C1 fails for [QuestionAnalyzer.compute_idf]: in a corpus of two
    documents that both contain the token "hola", its weight is
    [ln(2 / 3)], a negative number. *)
Lemma analyzer_idf_not_positive :
  let all_texts := [lit "hola mundo"; lit "hola clase"] in
  let w := lit "hola" in
  2 < length w
  /\ lit "hola mundo" ∈ all_texts
  /\ w ∈ split (lit "hola mundo")
  /\ exists y,
      QuestionAnalyzer.compute_idf all_texts !! w = Some y /\ (y < 0)%R.
Proof.
  assert (Hw : 2 < length (lit "hola")) by (vm_compute; lia).
  assert (Hin : lit "hola mundo" ∈ [lit "hola mundo"; lit "hola clase"])
    by left.
  assert (Hsplit : lit "hola" ∈ split (lit "hola mundo"))
    by (vm_compute; left).
  do 3 (split; [done|]).
  eexists. split; [by eapply analyzer_compute_idf_token|].
  replace (document_frequency (lit "hola") _) with 2 by (by vm_compute).
  rewrite <- ln_1. apply ln_increasing.
  - simpl. lra.
  - simpl. lra.
Qed.

(** ** Assembling the text of a question *)

Section DocumentAssembler.

Lemma get_question_full_text_rename (new_name : str)
    (info : FindSimilar.question_info) :
  FindSimilar.get_question_full_text (rename new_name info)
  = FindSimilar.get_question_full_text info.
Proof. reflexivity. Qed.

Lemma analyzer_full_text_unfold (filepath q_type name text : str)
    (answer_texts : list str) :
  QuestionAnalyzer.full_text
    (QuestionAnalyzer.stored_question filepath q_type name text answer_texts)
  = name ++ [SPACE] ++ text ++ [SPACE] ++ join [SPACE] answer_texts.
Proof. reflexivity. Qed.

(** C2, as the code has it: [get_question_full_text] of
    [find_similar_questions.py] does not depend on the display name of
    the question, whereas the text that [analyze_question] of
    [QuestionAnalyzer] stores for the duplicate analysis starts with
    the display name, followed by the question text and the answers. *)
Theorem full_text_and_display_name :
  (forall (new_name : str) (info : FindSimilar.question_info),
      FindSimilar.get_question_full_text (rename new_name info)
      = FindSimilar.get_question_full_text info)
  /\ (forall (filepath q_type name text : str) (answer_texts : list str),
         QuestionAnalyzer.full_text
           (QuestionAnalyzer.stored_question
              filepath q_type name text answer_texts)
         = name ++ [SPACE] ++ text ++ [SPACE] ++ join [SPACE] answer_texts).
Proof.
  split.
  - exact get_question_full_text_rename.
  - exact analyzer_full_text_unfold.
Qed.

End DocumentAssembler.

(** C2 fails for [QuestionAnalyzer]: the stored text of a question named
    "Q1" contains that name, and the same question under the name "Q2"
    gets another text, also after cleaning. *)
Lemma analyzer_full_text_has_name :
  let q1 := QuestionAnalyzer.stored_question
              (lit "a.xml") (lit "multichoice") (lit "Q1")
              (lit "capital de Francia") [lit "Paris"; lit "Roma"] in
  let q2 := QuestionAnalyzer.stored_question
              (lit "a.xml") (lit "multichoice") (lit "Q2")
              (lit "capital de Francia") [lit "Paris"; lit "Roma"] in
  QuestionAnalyzer.full_text q1 = lit "Q1 capital de Francia Paris Roma"
  /\ QuestionAnalyzer.full_text q2 = lit "Q2 capital de Francia Paris Roma"
  /\ QuestionAnalyzer.full_text q1 <> QuestionAnalyzer.full_text q2
  /\ QuestionAnalyzer.clean_text ascii_lower (QuestionAnalyzer.full_text q1)
     <> QuestionAnalyzer.clean_text ascii_lower (QuestionAnalyzer.full_text q2).
Proof.
  repeat split; try reflexivity; vm_compute; discriminate.
Qed.

(** ** Sums over vectors *)

Section Sums.
Open Scope R_scope.

Lemma sum_squares_empty : sum_squares ∅ = 0.
Proof. apply map_fold_empty. Qed.

Lemma sum_squares_insert (k : str) (x : R) (m : vector) :
  m !! k = None -> sum_squares (<[k:=x]> m) = sum_squares m + x ^ 2.
Proof.
  intros Hk. unfold sum_squares. rewrite map_fold_insert_L; [done| |done].
  intros. lra.
Qed.

Lemma sum_squares_delete (k : str) (y : R) (m : vector) :
  m !! k = Some y -> sum_squares m = sum_squares (delete k m) + y ^ 2.
Proof.
  intros Hk. rewrite <- (insert_delete_id m k y Hk) at 1.
  apply sum_squares_insert, lookup_delete_eq.
Qed.

Lemma sum_squares_nonneg (m : vector) : 0 <= sum_squares m.
Proof.
  induction m as [|k x m Hk IH] using map_ind.
  - rewrite sum_squares_empty. lra.
  - rewrite sum_squares_insert by done.
    pose proof (pow2_ge_0 x). lra.
Qed.

Lemma sum_squares_ge (m : vector) (k : str) (x : R) :
  m !! k = Some x -> x ^ 2 <= sum_squares m.
Proof.
  intros Hk. rewrite (sum_squares_delete k x m Hk).
  pose proof (sum_squares_nonneg (delete k m)). lra.
Qed.

Lemma dot_over_empty (vec1 vec2 : vector) : dot_over ∅ vec1 vec2 = 0.
Proof. apply set_fold_empty. Qed.

Lemma dot_over_add (k : str) (X : gset str) (vec1 vec2 : vector) :
  k ∉ X ->
  dot_over ({[k]} ∪ X) vec1 vec2
  = dot_over X vec1 vec2 + (vec1 !!! k) * (vec2 !!! k).
Proof.
  intros Hk. unfold dot_over.
  rewrite (set_fold_disj_union_strong eq); [| solve_proper | | set_solver].
  - rewrite set_fold_singleton, Rplus_0_l.
    rewrite <- (Rplus_0_l (vec1 !!! k * vec2 !!! k)) at 1.
    rewrite (set_fold_comm_acc _ (fun acc => acc + vec1 !!! k * vec2 !!! k));
      [done|]. intros. lra.
  - intros. lra.
Qed.

Lemma dot_over_ext (X : gset str) (vec1 vec2 vec1' vec2' : vector) :
  (forall w, w ∈ X -> vec1 !!! w = vec1' !!! w /\ vec2 !!! w = vec2' !!! w) ->
  dot_over X vec1 vec2 = dot_over X vec1' vec2'.
Proof.
  induction X as [|k X Hk IH] using set_ind_L; intros Hext.
  - by rewrite !dot_over_empty.
  - rewrite !dot_over_add by done.
    destruct (Hext k) as [-> ->]; [set_solver|].
    rewrite IH; [done|]. intros w Hw. apply Hext. set_solver.
Qed.

Lemma dot_over_nonneg (X : gset str) (vec1 vec2 : vector) :
  (forall w, w ∈ X -> 0 <= (vec1 !!! w) * (vec2 !!! w)) ->
  0 <= dot_over X vec1 vec2.
Proof.
  induction X as [|k X Hk IH] using set_ind_L; intros Hpos.
  - rewrite dot_over_empty. lra.
  - rewrite dot_over_add by done.
    assert (0 <= vec1 !!! k * vec2 !!! k) by (apply Hpos; set_solver).
    assert (0 <= dot_over X vec1 vec2)
      by (apply IH; intros w Hw; apply Hpos; set_solver).
    lra.
Qed.

Lemma cauchy_schwarz_step (d x y A B : R) :
  0 <= A -> 0 <= B -> d ^ 2 <= A * B ->
  (d + x * y) ^ 2 <= (A + x ^ 2) * (B + y ^ 2).
Proof.
  intros HA HB Hd.
  assert (H : 2 * d * (x * y) <= A * y ^ 2 + B * x ^ 2).
  { apply Rsqr_incr_0_var.
    - unfold Rsqr.
      assert (0 <= (x * y) ^ 2) by apply pow2_ge_0.
      assert (0 <= (A * y ^ 2 - B * x ^ 2) ^ 2) by apply pow2_ge_0.
      assert ((x * y) ^ 2 * d ^ 2 <= (x * y) ^ 2 * (A * B))
        by (by apply Rmult_le_compat_l).
      nra.
    - assert (0 <= y ^ 2) by apply pow2_ge_0.
      assert (0 <= x ^ 2) by apply pow2_ge_0.
      nra. }
  nra.
Qed.

(** The Cauchy-Schwarz inequality for the dot product over the common
    keys of two sparse vectors. *)
Lemma dot_over_cauchy_schwarz (vec1 vec2 : vector) :
  dot_over (dom vec1 ∩ dom vec2) vec1 vec2 ^ 2
  <= sum_squares vec1 * sum_squares vec2.
Proof.
  revert vec2. induction vec1 as [|k x m Hk IH] using map_ind; intros vec2.
  - rewrite dom_empty_L, (left_id_L ∅ (∪)) || rewrite dom_empty_L.
    replace (∅ ∩ dom vec2) with (∅ : gset str) by set_solver.
    rewrite dot_over_empty, sum_squares_empty. lra.
  - rewrite sum_squares_insert by done.
    assert (Hkm : k ∉ dom m) by by apply not_elem_of_dom.
    destruct (vec2 !! k) as [y|] eqn:Hy.
    + replace (dom (<[k:=x]> m) ∩ dom vec2)
        with ({[k]} ∪ (dom m ∩ dom (delete k vec2))).
      2:{ rewrite dom_insert_L, dom_delete_L.
          apply elem_of_dom_2 in Hy. apply set_eq. intros w.
          destruct (decide (w = k)); set_solver. }
      rewrite dot_over_add by set_solver.
      rewrite (dot_over_ext _ _ _ m (delete k vec2)).
      2:{ intros w Hw. rewrite !lookup_total_alt.
          assert (w ≠ k) by set_solver.
          by rewrite lookup_insert_ne, lookup_delete_ne. }
      rewrite (sum_squares_delete k y vec2 Hy).
      rewrite lookup_total_insert_eq.
      rewrite (lookup_total_correct vec2 k y Hy).
      apply cauchy_schwarz_step; auto using sum_squares_nonneg.
    + replace (dom (<[k:=x]> m) ∩ dom vec2) with (dom m ∩ dom vec2).
      2:{ rewrite dom_insert_L. apply not_elem_of_dom in Hy. set_solver. }
      rewrite (dot_over_ext _ _ _ m vec2).
      2:{ intros w Hw. rewrite !lookup_total_alt.
          assert (w ≠ k) by set_solver.
          by rewrite lookup_insert_ne. }
      specialize (IH vec2).
      pose proof (sum_squares_nonneg vec2). pose proof (pow2_ge_0 x).
      nra.
Qed.

End Sums.

(** ** TF-IDF vectors *)

Section Vectorizer.
Open Scope R_scope.

Lemma compute_word_freq_no_token (text : str) :
  Forall (fun w => (length w <= 2)%nat) (split text) ->
  FindSimilar.compute_word_freq text = ∅.
Proof.
  intros Hshort. apply map_eq. intros w.
  rewrite compute_word_freq_lookup, lookup_empty.
  case_bool_decide as Hw; [|done].
  rewrite occurrences_zero; [done|].
  intros Hin. rewrite Forall_forall in Hshort. specialize (Hshort w Hin). lia.
Qed.

Lemma compute_tfidf_vector_no_token (text : str) (idf : vector) :
  Forall (fun w => (length w <= 2)%nat) (split text) ->
  FindSimilar.compute_tfidf_vector text idf = ∅.
Proof.
  intros Hshort. unfold FindSimilar.compute_tfidf_vector.
  by rewrite compute_word_freq_no_token, sum_values_empty.
Qed.

(** A token of more than two characters has an entry in the vector of
    its text. *)
Lemma compute_tfidf_vector_token (text : str) (idf : vector) (w : str) :
  (2 < length w)%nat -> w ∈ split text ->
  FindSimilar.compute_tfidf_vector text idf !! w
  = Some (INR (occurrences w (split text))
          / INR (sum_values (FindSimilar.compute_word_freq text))
          * default 0 (idf !! w)).
Proof.
  intros Hw Hin. unfold FindSimilar.compute_tfidf_vector.
  pose proof (compute_word_freq_token text w Hw Hin) as Hfreq.
  pose proof (sum_values_ge _ _ _ Hfreq) as Hsum.
  pose proof (occurrences_pos _ _ Hin) as Hocc.
  destruct (sum_values _ =? 0)%nat eqn:E.
  - apply Nat.eqb_eq in E. lia.
  - by rewrite map_lookup_imap, Hfreq.
Qed.

(** The term frequency of an entry is strictly positive. *)
Lemma term_frequency_pos (count total : nat) :
  (1 <= count <= total)%nat -> 0 < INR count / INR total.
Proof.
  intros [Hc Ht]. apply Rdiv_lt_0_compat; apply lt_0_INR; lia.
Qed.

(** Two vectors built with the same IDF table have, on each common
    key, weights of the same sign. *)
Lemma same_table_products_nonneg (idf : vector) (text1 text2 w : str) :
  0 <= (FindSimilar.compute_tfidf_vector text1 idf !!! w)
       * (FindSimilar.compute_tfidf_vector text2 idf !!! w).
Proof.
  rewrite !lookup_total_alt.
  destruct (FindSimilar.compute_tfidf_vector text1 idf !! w) as [x1|] eqn:H1;
    simpl; [|lra].
  destruct (FindSimilar.compute_tfidf_vector text2 idf !! w) as [x2|] eqn:H2;
    simpl; [|lra].
  apply compute_tfidf_vector_Some in H1 as (c1 & _ & Hc1 & ->).
  apply compute_tfidf_vector_Some in H2 as (c2 & _ & Hc2 & ->).
  pose proof (term_frequency_pos _ _ Hc1).
  pose proof (term_frequency_pos _ _ Hc2).
  set (t1 := INR c1 / _) in *. set (t2 := INR c2 / _) in *.
  set (i := default 0 (idf !! w)).
  clearbody t1 t2 i.
  replace (t1 * i * (t2 * i)) with ((t1 * t2) * i ^ 2) by ring.
  apply Rmult_le_pos; [|apply pow2_ge_0].
  left. by apply Rmult_lt_0_compat.
Qed.

End Vectorizer.

(** ** Cosine similarity *)

Section Cosine.
Open Scope R_scope.

Lemma cosine_similarity_same (vec1 vec2 : vector) :
  QuestionAnalyzer.cosine_similarity vec1 vec2
  = FindSimilar.cosine_similarity vec1 vec2.
Proof. reflexivity. Qed.

Lemma cosine_similarity_empty_l (vec : vector) :
  FindSimilar.cosine_similarity ∅ vec = 0.
Proof.
  unfold FindSimilar.cosine_similarity.
  by rewrite bool_decide_eq_true_2.
Qed.

Lemma cosine_similarity_empty_r (vec : vector) :
  FindSimilar.cosine_similarity vec ∅ = 0.
Proof.
  unfold FindSimilar.cosine_similarity.
  rewrite (bool_decide_eq_true_2 (∅ = ∅)) by done.
  by rewrite orb_true_r.
Qed.

(** Either one of the guards returns 0, or the quotient is computed
    with two non-zero magnitudes. *)
Lemma cosine_similarity_cases (vec1 vec2 : vector) :
  FindSimilar.cosine_similarity vec1 vec2 = 0
  \/ (0 < sqrt (sum_squares vec1)
      /\ 0 < sqrt (sum_squares vec2)
      /\ FindSimilar.cosine_similarity vec1 vec2
         = dot_over (dom vec1 ∩ dom vec2) vec1 vec2
           / (sqrt (sum_squares vec1) * sqrt (sum_squares vec2))).
Proof.
  unfold FindSimilar.cosine_similarity.
  destruct (bool_decide (vec1 = ∅) || bool_decide (vec2 = ∅));
    [by left|].
  case_bool_decide; [by left|].
  case_bool_decide as H1; [by left|].
  case_bool_decide as H2; [by left|].
  right. simpl.
  pose proof (sqrt_pos (sum_squares vec1)).
  pose proof (sqrt_pos (sum_squares vec2)).
  repeat split; lra.
Qed.

Lemma cosine_similarity_abs_le_1 (vec1 vec2 : vector) :
  -1 <= FindSimilar.cosine_similarity vec1 vec2 <= 1.
Proof.
  destruct (cosine_similarity_cases vec1 vec2) as [->|(H1 & H2 & ->)];
    [lra|].
  pose proof (dot_over_cauchy_schwarz vec1 vec2) as Hcs.
  pose proof (sum_squares_nonneg vec1) as Hn1.
  pose proof (sum_squares_nonneg vec2) as Hn2.
  set (d := dot_over _ _ _) in *.
  set (m1 := sqrt (sum_squares vec1)) in *.
  set (m2 := sqrt (sum_squares vec2)) in *.
  assert (Hm : 0 < m1 * m2) by by apply Rmult_lt_0_compat.
  assert (Hsq : (m1 * m2) ^ 2 = sum_squares vec1 * sum_squares vec2).
  { unfold m1, m2. rewrite Rpow_mult_distr, !pow2_sqrt by done. done. }
  assert (Hd : d <= m1 * m2 /\ - d <= m1 * m2).
  { split; apply Rsqr_incr_0_var; unfold Rsqr; nra. }
  split.
  - apply (Rmult_le_reg_r (m1 * m2)); [done|].
    unfold Rdiv. rewrite Rmult_assoc, Rinv_l by lra. lra.
  - apply (Rmult_le_reg_r (m1 * m2)); [done|].
    unfold Rdiv. rewrite Rmult_assoc, Rinv_l by lra. lra.
Qed.

Lemma cosine_similarity_nonneg (vec1 vec2 : vector) :
  (forall w, 0 <= (vec1 !!! w) * (vec2 !!! w)) ->
  0 <= FindSimilar.cosine_similarity vec1 vec2.
Proof.
  intros Hsign.
  destruct (cosine_similarity_cases vec1 vec2) as [->|(H1 & H2 & ->)];
    [lra|].
  apply Rmult_le_pos.
  - apply dot_over_nonneg. auto.
  - left. apply Rinv_0_lt_compat. by apply Rmult_lt_0_compat.
Qed.

(** C4: two vectors that the vectorizer builds with the same IDF table
    have a cosine similarity between 0 and 1, in exact arithmetic, for
    the functions of [find_similar_questions.py] and for the methods
    of [QuestionAnalyzer]. *)
Theorem cosine_similarity_of_vectors_in_unit_interval
    (idf : vector) (text1 text2 : str) :
  0 <= FindSimilar.cosine_similarity
         (FindSimilar.compute_tfidf_vector text1 idf)
         (FindSimilar.compute_tfidf_vector text2 idf) <= 1
  /\ 0 <= QuestionAnalyzer.cosine_similarity
            (QuestionAnalyzer.compute_tfidf_vector text1 idf)
            (QuestionAnalyzer.compute_tfidf_vector text2 idf) <= 1.
Proof.
  assert (H : 0 <= FindSimilar.cosine_similarity
                     (FindSimilar.compute_tfidf_vector text1 idf)
                     (FindSimilar.compute_tfidf_vector text2 idf) <= 1);
    [|split; exact H].
  split.
  - apply cosine_similarity_nonneg. intros w.
    apply same_table_products_nonneg.
  - apply cosine_similarity_abs_le_1.
Qed.

Lemma compute_idf_ge_1 (all_texts : list str) (w : str) (x : R) :
  FindSimilar.compute_idf all_texts !! w = Some x -> 1 <= x.
Proof.
  unfold FindSimilar.compute_idf, FindSimilar.doc_count.
  rewrite lookup_fmap, doc_loop_lookup, lookup_empty.
  intros (count & Hcount & ->)%fmap_Some.
  apply smoothed_weight_ge_1.
  case_bool_decide; [|done].
  pose proof (document_frequency_le w all_texts).
  destruct (document_frequency w all_texts) as [|df] eqn:E; [done|].
  simpl in Hcount. injection Hcount as <-. lia.
Qed.

(** With the smoothed tables of [find_similar_questions.py] the bound
    also holds for two vectors built with the tables of two corpora. *)
Lemma cosine_similarity_smoothed_in_unit_interval
    (corpus1 corpus2 : list str) (text1 text2 : str) :
  0 <= FindSimilar.cosine_similarity
         (FindSimilar.compute_tfidf_vector
            text1 (FindSimilar.compute_idf corpus1))
         (FindSimilar.compute_tfidf_vector
            text2 (FindSimilar.compute_idf corpus2)) <= 1.
Proof.
  assert (Hweight : forall corpus text w,
             0 <= FindSimilar.compute_tfidf_vector
                    text (FindSimilar.compute_idf corpus) !!! w).
  { intros corpus text w. rewrite lookup_total_alt.
    destruct (FindSimilar.compute_tfidf_vector text _ !! w) as [x|] eqn:Hx;
      simpl; [|lra].
    apply compute_tfidf_vector_Some in Hx as (count & _ & Hcount & ->).
    pose proof (term_frequency_pos _ _ Hcount).
    destruct (FindSimilar.compute_idf corpus !! w) as [y|] eqn:Hy; simpl.
    - apply compute_idf_ge_1 in Hy. apply Rmult_le_pos; lra.
    - lra. }
  split; [|apply cosine_similarity_abs_le_1].
  apply cosine_similarity_nonneg. intros w. apply Rmult_le_pos; apply Hweight.
Qed.

End Cosine.

(** ** Sorting by similarity *)

Section Sorting.

Lemma insert_desc_perm (p : pair) (l : list pair) :
  insert_desc p l ≡ₚ p :: l.
Proof.
  induction l as [|q l IH]; simpl; [done|].
  case_bool_decide; [done|]. rewrite IH. apply Permutation_swap.
Qed.

Lemma sort_desc_perm (l : list pair) : sort_desc l ≡ₚ l.
Proof.
  induction l as [|p l IH]; simpl; [done|].
  by rewrite insert_desc_perm, IH.
Qed.

Lemma sort_desc_length (l : list pair) : length (sort_desc l) = length l.
Proof. by rewrite sort_desc_perm. Qed.

Lemma elem_of_sort_desc (p : pair) (l : list pair) :
  p ∈ sort_desc l <-> p ∈ l.
Proof. by rewrite sort_desc_perm. Qed.

(** Inserting a tuple that was visited before all the others keeps
    the list ranked. *)
Lemma insert_desc_ranked (p : pair) (l : list pair) :
  Forall (visited_before p) l ->
  StronglySorted ranked_before l ->
  StronglySorted ranked_before (insert_desc p l).
Proof.
  intros Hp Hl. induction Hl as [|q l Hl IH Hq]; simpl.
  - repeat constructor.
  - apply Forall_cons in Hp as [Hpq Hpl]. case_bool_decide as Hle.
    + constructor; [by constructor|].
      constructor.
      * destruct Hle as [Hlt|Heq]; [left; lra|by right].
      * rewrite Forall_forall in Hq, Hpl |- *. intros r Hr.
        specialize (Hq r Hr). specialize (Hpl r Hr).
        destruct Hq as [Hgt|[Heq _]], Hle as [Hlt|Heq'];
          first [left; lra | right; split; [lra|done]].
    + constructor; [by apply IH|].
      rewrite insert_desc_perm. constructor; [|done].
      left. apply Rnot_le_lt in Hle. lra.
Qed.

Lemma sort_desc_ranked (l : list pair) :
  StronglySorted visited_before l ->
  StronglySorted ranked_before (sort_desc l).
Proof.
  induction 1 as [|p l Hl IH Hp]; simpl; [constructor|].
  apply insert_desc_ranked; [|done]. by rewrite sort_desc_perm.
Qed.

(** [ranked_before] never holds both ways, so a ranked list is the
    only ranked arrangement of its elements. *)
Lemma ranked_before_asymmetric (p q : pair) :
  ranked_before p q -> ranked_before q p -> False.
Proof.
  unfold ranked_before, visited_before.
  intros [H1|[H1 H1']] [H2|[H2 H2']]; try lra. lia.
Qed.

Lemma ranked_unique (l1 l2 : list pair) :
  StronglySorted ranked_before l1 -> StronglySorted ranked_before l2 ->
  l1 ≡ₚ l2 -> l1 = l2.
Proof.
  apply StronglySorted_unique_strong.
  intros p q _ _ H1 H2. destruct (ranked_before_asymmetric p q H1 H2).
Qed.

End Sorting.

(** ** Enumerating the pairs *)

Section Pairs.

Lemma bind_length_le {A B} (f g : A -> list B) (l : list A) :
  (forall a, length (f a) <= length (g a)) ->
  length (l ≫= f) <= length (l ≫= g).
Proof.
  intros Hfg. induction l as [|a l IH]; [done|].
  rewrite !bind_cons, !length_app. specialize (Hfg a). lia.
Qed.

Lemma bind_sorted {A B} (RA : relation A) (RB : relation B)
    (f : A -> list B) (l : list A) :
  StronglySorted RA l ->
  (forall a, StronglySorted RB (f a)) ->
  (forall a a' b b', RA a a' -> b ∈ f a -> b' ∈ f a' -> RB b b') ->
  StronglySorted RB (l ≫= f).
Proof.
  intros Hl Hf Hcross. induction Hl as [|a l Hl IH Ha]; [constructor|].
  rewrite bind_cons. apply StronglySorted_app_2; [|done..].
  intros b b' Hb (a' & Hb' & Ha')%list_elem_of_bind.
  rewrite Forall_forall in Ha. eauto.
Qed.

Lemma seq_sorted (start len : nat) : StronglySorted lt (seq start len).
Proof.
  revert start. induction len as [|len IH]; intros start; simpl;
    constructor; [done|].
  apply Forall_forall. intros k Hk%elem_of_seq. lia.
Qed.

Lemma StronglySorted_impl {A} (R1 R2 : relation A) (l : list A) :
  (forall x y, R1 x y -> R2 x y) ->
  StronglySorted R1 l -> StronglySorted R2 l.
Proof.
  intros HR. induction 1 as [|x l Hl IH Hx]; constructor; [done|].
  eapply Forall_impl; eauto.
Qed.

Lemma StronglySorted_NoDup {A} (R : relation A) (l : list A) :
  (forall x, ~ R x x) -> StronglySorted R l -> NoDup l.
Proof.
  intros Hirr. induction 1 as [|x l Hl IH Hx]; constructor; [|done].
  rewrite Forall_forall in Hx. intros Hin. exact (Hirr x (Hx x Hin)).
Qed.

Lemma compare_all_same (vectors : list vector) (threshold : R) :
  QuestionAnalyzer.compare_all vectors threshold
  = FindSimilar.compare_all vectors threshold.
Proof. reflexivity. Qed.

(** What the two nested loops retain. *)
Lemma elem_of_compare_all (vectors : list vector) (threshold : R)
    (i j : nat) (s : R) :
  (i, j, s) ∈ FindSimilar.compare_all vectors threshold
  <-> i < j < length vectors
      /\ s = FindSimilar.cosine_similarity (vectors !!! i) (vectors !!! j)
      /\ (s >= threshold)%R.
Proof.
  unfold FindSimilar.compare_all. rewrite list_elem_of_bind. split.
  - intros (i' & (j' & Hp & Hj)%list_elem_of_bind & Hi).
    apply elem_of_seq in Hi, Hj. simpl in Hp.
    case_bool_decide as Hge; [|by apply elem_of_nil in Hp].
    apply list_elem_of_singleton in Hp. simplify_eq. split; [lia|done].
  - intros (Hij & -> & Hge). exists i. split; [|apply elem_of_seq; lia].
    apply list_elem_of_bind. exists j. split; [|apply elem_of_seq; lia].
    simpl. rewrite bool_decide_eq_true_2 by done. left.
Qed.

(** The loops append the tuples in document order. *)
Lemma compare_all_visited (vectors : list vector) (threshold : R) :
  StronglySorted visited_before (FindSimilar.compare_all vectors threshold).
Proof.
  unfold FindSimilar.compare_all.
  apply (bind_sorted lt); [apply seq_sorted| |].
  - intros i. apply (bind_sorted lt); [apply seq_sorted| |].
    + intros j. simpl. case_bool_decide; repeat constructor.
    + intros j j' p p' Hlt Hp Hp'. simpl in Hp, Hp'.
      repeat case_bool_decide; try (by apply elem_of_nil in Hp);
        try (by apply elem_of_nil in Hp').
      apply list_elem_of_singleton in Hp, Hp'. subst. right. simpl. lia.
  - intros i i' p p' Hlt (j & Hp & _)%list_elem_of_bind
                          (j' & Hp' & _)%list_elem_of_bind.
    simpl in Hp, Hp'.
    repeat case_bool_decide; try (by apply elem_of_nil in Hp);
      try (by apply elem_of_nil in Hp').
    apply list_elem_of_singleton in Hp, Hp'. subst. by left.
Qed.

Lemma compare_all_length_mono (vectors : list vector) (t1 t2 : R) :
  (t1 <= t2)%R ->
  length (FindSimilar.compare_all vectors t2)
  <= length (FindSimilar.compare_all vectors t1).
Proof.
  intros Ht. unfold FindSimilar.compare_all.
  apply bind_length_le. intros i. apply bind_length_le. intros j. simpl.
  repeat case_bool_decide; simpl; try lia. exfalso. lra.
Qed.

Lemma compare_all_few (vectors : list vector) (threshold : R) :
  length vectors < 2 -> FindSimilar.compare_all vectors threshold = [].
Proof.
  intros Hlen. destruct vectors as [|v [|v' l]]; [done|done|simpl in Hlen; lia].
Qed.

Lemma visited_before_irreflexive (p : pair) : ~ visited_before p p.
Proof. unfold visited_before. lia. Qed.

Lemma ranked_before_irreflexive (p : pair) : ~ ranked_before p p.
Proof. intros H. exact (ranked_before_asymmetric p p H H). Qed.

Lemma ranked_before_descending (p q : pair) :
  ranked_before p q -> (similarity_of p >= similarity_of q)%R.
Proof. intros [H|[H _]]; lra. Qed.

End Pairs.

(** ** The pair-finding step *)

Section PairFinding.

Lemma elem_of_similar_pairs (vectors : list vector) (threshold : R)
    (i j : nat) (s : R) :
  (i, j, s) ∈ FindSimilar.similar_pairs vectors threshold
  <-> i < j < length vectors
      /\ s = FindSimilar.cosine_similarity (vectors !!! i) (vectors !!! j)
      /\ (s >= threshold)%R.
Proof.
  unfold FindSimilar.similar_pairs.
  by rewrite elem_of_sort_desc, elem_of_compare_all.
Qed.

Lemma similar_pairs_ranked (vectors : list vector) (threshold : R) :
  StronglySorted ranked_before (FindSimilar.similar_pairs vectors threshold).
Proof. apply sort_desc_ranked, compare_all_visited. Qed.

Lemma similar_pairs_few (vectors : list vector) (threshold : R) :
  length vectors < 2 -> FindSimilar.similar_pairs vectors threshold = [].
Proof.
  intros Hlen. unfold FindSimilar.similar_pairs.
  by rewrite compare_all_few.
Qed.

(** A first run of [find_duplicates] leaves in [self.duplicates] the
    result of the pair-finding step on the vectors of the questions. *)
Lemma find_duplicates_fresh (lower : str -> str)
    (self : QuestionAnalyzer.analyzer) :
  QuestionAnalyzer.duplicates self = [] ->
  QuestionAnalyzer.duplicates (QuestionAnalyzer.find_duplicates lower self)
  = FindSimilar.similar_pairs
      (QuestionAnalyzer.vectors_of lower (QuestionAnalyzer.all_questions self))
      (QuestionAnalyzer.similarity_threshold self).
Proof.
  intros Hfresh. unfold QuestionAnalyzer.find_duplicates.
  destruct (length (QuestionAnalyzer.all_questions self) <? 2) eqn:E.
  - apply Nat.ltb_lt in E. rewrite similar_pairs_few; [done|].
    unfold QuestionAnalyzer.vectors_of. by rewrite !length_fmap.
  - simpl. by rewrite Hfresh.
Qed.

(** The loops and the sort for the similarities of a run. *)
Lemma compare_all_as_run (vectors : list vector) (threshold : R) :
  FindSimilar.compare_all vectors threshold
  = FindSimilar.compare_all_with
      (fun i j =>
         FindSimilar.cosine_similarity (vectors !!! i) (vectors !!! j))
      (length vectors) threshold.
Proof. reflexivity. Qed.

Lemma elem_of_compare_all_with (similarity : nat -> nat -> R) (n : nat)
    (threshold : R) (i j : nat) (s : R) :
  (i, j, s) ∈ FindSimilar.compare_all_with similarity n threshold
  <-> i < j < n /\ s = similarity i j /\ (s >= threshold)%R.
Proof.
  unfold FindSimilar.compare_all_with. rewrite list_elem_of_bind. split.
  - intros (i' & (j' & Hp & Hj)%list_elem_of_bind & Hi).
    apply elem_of_seq in Hi, Hj.
    case_bool_decide as Hge; [|by apply elem_of_nil in Hp].
    apply list_elem_of_singleton in Hp. simplify_eq. split; [lia|done].
  - intros (Hij & -> & Hge). exists i. split; [|apply elem_of_seq; lia].
    apply list_elem_of_bind. exists j. split; [|apply elem_of_seq; lia].
    rewrite bool_decide_eq_true_2 by done. left.
Qed.

Lemma compare_all_with_visited (similarity : nat -> nat -> R) (n : nat)
    (threshold : R) :
  StronglySorted visited_before
                 (FindSimilar.compare_all_with similarity n threshold).
Proof.
  unfold FindSimilar.compare_all_with.
  apply (bind_sorted lt); [apply seq_sorted| |].
  - intros i. apply (bind_sorted lt); [apply seq_sorted| |].
    + intros j. case_bool_decide; repeat constructor.
    + intros j j' p p' Hlt Hp Hp'.
      repeat case_bool_decide; try (by apply elem_of_nil in Hp);
        try (by apply elem_of_nil in Hp').
      apply list_elem_of_singleton in Hp, Hp'. subst. right. simpl. lia.
  - intros i i' p p' Hlt (j & Hp & _)%list_elem_of_bind
                          (j' & Hp' & _)%list_elem_of_bind.
    repeat case_bool_decide; try (by apply elem_of_nil in Hp);
      try (by apply elem_of_nil in Hp').
    apply list_elem_of_singleton in Hp, Hp'. subst. by left.
Qed.

Lemma similar_pairs_with_ranked (similarity : nat -> nat -> R) (n : nat)
    (threshold : R) :
  StronglySorted ranked_before
                 (FindSimilar.similar_pairs_with similarity n threshold).
Proof. apply sort_desc_ranked, compare_all_with_visited. Qed.

(** The sort of a run in binary64 arithmetic keeps the tuples. *)
Lemma float_insert_desc_perm (p : Float64.fpair) (l : list Float64.fpair) :
  Float64.insert_desc p l ≡ₚ p :: l.
Proof.
  induction l as [|q l IH]; simpl; [done|].
  destruct (PrimFloat.leb q.2 p.2); [done|].
  rewrite IH. apply Permutation_swap.
Qed.

Lemma float_sort_desc_perm (l : list Float64.fpair) :
  Float64.sort_desc l ≡ₚ l.
Proof.
  induction l as [|p l IH]; simpl; [done|].
  by rewrite float_insert_desc_perm, IH.
Qed.

Lemma elem_of_float_similar_pairs (order : nat -> nat -> list str)
    (vectors : list Float64.fvector) (threshold : PrimFloat.float)
    (i j : nat) (s : PrimFloat.float) :
  (i, j, s) ∈ Float64.similar_pairs order vectors threshold
  <-> i < j < length vectors
      /\ s = Float64.cosine_similarity
               (order i j) (vectors !!! i) (vectors !!! j)
      /\ PrimFloat.leb threshold s = true.
Proof.
  unfold Float64.similar_pairs. rewrite float_sort_desc_perm.
  unfold Float64.compare_all. rewrite list_elem_of_bind. split.
  - intros (i' & (j' & Hp & Hj)%list_elem_of_bind & Hi).
    apply elem_of_seq in Hi, Hj. simpl in Hp.
    destruct (PrimFloat.leb threshold _) eqn:Hge;
      [|by apply elem_of_nil in Hp].
    apply list_elem_of_singleton in Hp. simplify_eq. split; [lia|done].
  - intros (Hij & -> & Hge). exists i. split; [|apply elem_of_seq; lia].
    apply list_elem_of_bind. exists j. split; [|apply elem_of_seq; lia].
    simpl. rewrite Hge. left.
Qed.

(** C3, as the code has it: whatever similarities a run computes, the
    pair-finding step returns exactly the index pairs [i < j] whose
    computed similarity is at least the threshold, each once, sorted
    by similarity descending with ties in the order of enumeration;
    this ranking leaves one possible result list, so the result is
    determined by the computed similarities. With exact arithmetic the
    similarities are those of [cosine_similarity] over the reals; in
    a run in binary64 arithmetic the retained pairs are those whose
    float similarity is at least the threshold. A first run of
    [QuestionAnalyzer.find_duplicates] stores the result of the same
    step. *)
Theorem similar_pairs_exact_and_ranked
    (similarity : nat -> nat -> R) (n : nat) (threshold : R) :
  let result := FindSimilar.similar_pairs_with similarity n threshold in
  (forall i j s,
      (i, j, s) ∈ result
      <-> i < j < n /\ s = similarity i j /\ (s >= threshold)%R)
  /\ NoDup result
  /\ StronglySorted
       (fun p q => (similarity_of p >= similarity_of q)%R) result
  /\ StronglySorted ranked_before result
  /\ (forall l,
         l ≡ₚ result -> StronglySorted ranked_before l -> l = result)
  /\ (forall vectors : list vector,
         FindSimilar.similar_pairs vectors threshold
         = FindSimilar.similar_pairs_with
             (fun i j =>
                FindSimilar.cosine_similarity (vectors !!! i) (vectors !!! j))
             (length vectors) threshold)
  /\ (forall (order : nat -> nat -> list str)
             (vectors : list Float64.fvector) (t : PrimFloat.float)
             (i j : nat) (s : PrimFloat.float),
         (i, j, s) ∈ Float64.similar_pairs order vectors t
         <-> i < j < length vectors
             /\ s = Float64.cosine_similarity
                      (order i j) (vectors !!! i) (vectors !!! j)
             /\ PrimFloat.leb t s = true)
  /\ (forall (lower : str -> str) (self : QuestionAnalyzer.analyzer),
         QuestionAnalyzer.duplicates self = [] ->
         QuestionAnalyzer.duplicates
           (QuestionAnalyzer.find_duplicates lower self)
         = FindSimilar.similar_pairs
             (QuestionAnalyzer.vectors_of
                lower (QuestionAnalyzer.all_questions self))
             (QuestionAnalyzer.similarity_threshold self)).
Proof.
  intros result.
  pose proof (similar_pairs_with_ranked similarity n threshold) as Hranked.
  split.
  { intros i j s. unfold result, FindSimilar.similar_pairs_with.
    by rewrite elem_of_sort_desc, elem_of_compare_all_with. }
  split; [eapply StronglySorted_NoDup;
          [apply ranked_before_irreflexive|exact Hranked]|].
  split; [eapply StronglySorted_impl;
          [apply ranked_before_descending|exact Hranked]|].
  split; [exact Hranked|].
  split; [intros l Hperm Hl; by apply ranked_unique|].
  split; [reflexivity|].
  split; [apply elem_of_float_similar_pairs|apply find_duplicates_fresh].
Qed.

End PairFinding.

Section FloatRun.
Import PrimFloat.

(** C3 as stated fails. Two copies of the text "uno dos dos dos dos dos
    dos dos tres" have the vector with the weights 1/9, 7/9 and 1/9
    (the IDF of each word is [ln(3/3) + 1 = 1]). A run that adds the
    three products in the order uno, dos, tres computes the similarity
    1 and retains the pair at threshold 1; a run that adds them in the
    order uno, tres, dos computes a similarity below 1 and retains
    nothing. *)
Lemma run_dependent_result :
  let vec : Float64.fvector :=
    [(lit "uno", 1 / 9); (lit "dos", 7 / 9); (lit "tres", 1 / 9)]%float in
  let run1 := [lit "uno"; lit "dos"; lit "tres"] in
  let run2 := [lit "uno"; lit "tres"; lit "dos"] in
  Float64.iteration_of run1 vec vec
  /\ Float64.iteration_of run2 vec vec
  /\ Float64.similar_pairs (fun _ _ => run1) [vec; vec] 1%float
     = [(0, 1, 1%float)]
  /\ Float64.similar_pairs (fun _ _ => run2) [vec; vec] 1%float = [].
Proof.
  intros vec run1 run2.
  assert (Hcommon : list_intersection vec.*1 vec.*1 = run1)
    by (vm_compute; reflexivity).
  unfold Float64.iteration_of. rewrite Hcommon.
  split; [done|]. split; [apply perm_skip, perm_swap|].
  split; vm_compute; reflexivity.
Qed.

End FloatRun.

Section Thresholds.

(** C5: raising the threshold never adds a pair: every pair retained
    at the higher threshold is retained at the lower one, and the
    number of retained pairs does not grow. *)
Theorem similar_pairs_threshold_monotone
    (vectors : list vector) (t1 t2 : R) :
  (t1 <= t2)%R ->
  length (FindSimilar.similar_pairs vectors t2)
  <= length (FindSimilar.similar_pairs vectors t1)
  /\ (forall p,
         p ∈ FindSimilar.similar_pairs vectors t2 ->
         p ∈ FindSimilar.similar_pairs vectors t1).
Proof.
  intros Ht. split.
  - unfold FindSimilar.similar_pairs. rewrite !sort_desc_length.
    by apply compare_all_length_mono.
  - intros [[i j] s]. rewrite !elem_of_similar_pairs.
    intros (Hij & Hs & Hge). repeat split; [lia..|done|lra].
Qed.

(** C7: with fewer than two documents the pair-finding step returns
    the empty list, from vectors and from texts, and
    [QuestionAnalyzer.find_duplicates] leaves [self.duplicates] empty. *)
Theorem few_documents_no_pairs (threshold : R) :
  (forall vectors : list vector,
      length vectors < 2 ->
      FindSimilar.similar_pairs vectors threshold = [])
  /\ (forall all_texts : list str,
         length all_texts < 2 ->
         FindSimilar.find_similar_questions all_texts threshold = [])
  /\ (forall (lower : str -> str)
             (questions : list QuestionAnalyzer.question),
         length questions < 2 ->
         QuestionAnalyzer.find_duplicates lower
           {| QuestionAnalyzer.similarity_threshold := threshold;
              QuestionAnalyzer.all_questions := questions;
              QuestionAnalyzer.duplicates := [] |}
         = {| QuestionAnalyzer.similarity_threshold := threshold;
              QuestionAnalyzer.all_questions := questions;
              QuestionAnalyzer.duplicates := [] |}).
Proof.
  split; [intros vectors; apply similar_pairs_few|]. split.
  - intros all_texts Hlen. unfold FindSimilar.find_similar_questions.
    apply similar_pairs_few. unfold FindSimilar.vectors_of.
    by rewrite length_fmap.
  - intros lower questions Hlen. unfold QuestionAnalyzer.find_duplicates.
    simpl. apply Nat.ltb_lt in Hlen. by rewrite Hlen.
Qed.

End Thresholds.

(** ** Degenerate documents and corpus vectors *)

Section Corpus.
Open Scope R_scope.

Lemma vectors_of_lookup (all_texts : list str) (k : nat) (text : str) :
  all_texts !! k = Some text ->
  FindSimilar.vectors_of all_texts !!! k
  = FindSimilar.compute_tfidf_vector text (FindSimilar.compute_idf all_texts).
Proof.
  intros Hk. apply list_lookup_total_correct.
  unfold FindSimilar.vectors_of. by rewrite list_lookup_fmap, Hk.
Qed.

(** A document with the empty vector is in no pair retained at a
    threshold above 0. *)
Lemma degenerate_not_in_pairs (all_texts : list str) (text : str)
    (k : nat) (threshold : R) (i j : nat) (s : R) :
  Forall (fun w => (length w <= 2)%nat) (split text) ->
  all_texts !! k = Some text ->
  0 < threshold ->
  (i, j, s) ∈ FindSimilar.find_similar_questions all_texts threshold ->
  i <> k /\ j <> k.
Proof.
  intros Hshort Hk Ht. unfold FindSimilar.find_similar_questions.
  rewrite elem_of_similar_pairs. intros (_ & Hs & Hge).
  pose proof (vectors_of_lookup all_texts k text Hk) as Hvec.
  rewrite (compute_tfidf_vector_no_token text _ Hshort) in Hvec.
  split; intros ->; rewrite Hvec in Hs.
  - rewrite cosine_similarity_empty_l in Hs. lra.
  - rewrite cosine_similarity_empty_r in Hs. lra.
Qed.

(** C6: a document without a token of more than two characters gets
    the empty vector; the cosine similarity of the empty vector with
    any vector is 0; so in no corpus and at no threshold above 0 does
    such a document occur in a retained pair. *)
Theorem degenerate_document_never_retained (text : str) :
  Forall (fun w => (length w <= 2)%nat) (split text) ->
  (forall idf : vector, FindSimilar.compute_tfidf_vector text idf = ∅)
  /\ (forall vec : vector,
         FindSimilar.cosine_similarity ∅ vec = 0
         /\ FindSimilar.cosine_similarity vec ∅ = 0)
  /\ (forall (all_texts : list str) (k : nat) (threshold : R)
             (i j : nat) (s : R),
         all_texts !! k = Some text ->
         0 < threshold ->
         (i, j, s) ∈ FindSimilar.find_similar_questions all_texts threshold ->
         i <> k /\ j <> k).
Proof.
  intros Hshort.
  split; [intros idf; by apply compute_tfidf_vector_no_token|].
  split; [intros vec; split;
          [apply cosine_similarity_empty_l|apply cosine_similarity_empty_r]|].
  intros all_texts k threshold i j s Hk Ht Hin.
  by apply (degenerate_not_in_pairs all_texts text k threshold i j s).
Qed.

Lemma corpus_weight_pos (all_texts : list str) (text w : str) (x : R) :
  text ∈ all_texts ->
  FindSimilar.compute_tfidf_vector text (FindSimilar.compute_idf all_texts)
    !! w = Some x ->
  0 < x.
Proof.
  intros Hin (count & Hfreq & Hcount & ->)%compute_tfidf_vector_Some.
  apply compute_word_freq_Some in Hfreq as (Hw & Hsplit & _).
  rewrite (compute_idf_token all_texts w text Hw Hin Hsplit). simpl.
  pose proof (smoothed_weight_ge_1 (length all_texts)
                (document_frequency w all_texts)
                (document_frequency_le w all_texts)).
  pose proof (term_frequency_pos _ _ Hcount).
  apply Rmult_lt_0_compat; lra.
Qed.

(** C8: in the pipeline of [find_similar_questions.py] every weight of
    the vector of a corpus document is strictly positive, and so the
    cosine similarity of two corpus vectors lies in [0, 1]. *)
Theorem corpus_vectors_positive (all_texts : list str) :
  let idf := FindSimilar.compute_idf all_texts in
  (forall (text w : str) (x : R),
      text ∈ all_texts ->
      FindSimilar.compute_tfidf_vector text idf !! w = Some x ->
      0 < x)
  /\ (forall vec1 vec2 : vector,
         vec1 ∈ FindSimilar.vectors_of all_texts ->
         vec2 ∈ FindSimilar.vectors_of all_texts ->
         0 <= FindSimilar.cosine_similarity vec1 vec2 <= 1).
Proof.
  intros idf. split; [apply corpus_weight_pos|].
  intros vec1 vec2 (text1 & -> & Hin1)%list_elem_of_fmap
                   (text2 & -> & Hin2)%list_elem_of_fmap.
  split; [|apply cosine_similarity_abs_le_1].
  apply cosine_similarity_nonneg. intros w. rewrite !lookup_total_alt.
  destruct (FindSimilar.compute_tfidf_vector text1 _ !! w) as [x1|] eqn:H1;
    simpl; [|lra].
  destruct (FindSimilar.compute_tfidf_vector text2 _ !! w) as [x2|] eqn:H2;
    simpl; [|lra].
  apply corpus_weight_pos in H1, H2; [|done..].
  left. by apply Rmult_lt_0_compat.
Qed.

End Corpus.

(** ** Scenarios of the specification *)

Section Scenarios.
Open Scope R_scope.

Example compute_word_freq_example :
  FindSimilar.compute_word_freq (lit "uno dos uno a de")
  = {[ lit "uno" := 2%nat; lit "dos" := 1%nat ]}.
Proof.
  apply map_eq. intros w. rewrite compute_word_freq_lookup.
  destruct (decide (w = lit "uno")) as [->|H1]; [by vm_compute|].
  destruct (decide (w = lit "dos")) as [->|H2]; [by vm_compute|].
  rewrite lookup_insert_ne, lookup_singleton_ne by done.
  case_bool_decide; [|done].
  rewrite occurrences_zero; [done|].
  vm_compute split. rewrite !elem_of_cons, elem_of_nil.
  intros [->|[->|[->|[->|[->|[]]]]]]; first [done | simpl in *; lia].
Qed.

Lemma dot_over_self (vec : vector) :
  dot_over (dom vec) vec vec = sum_squares vec.
Proof.
  induction vec as [|k x m Hk IH] using map_ind.
  - by rewrite dom_empty_L, dot_over_empty, sum_squares_empty.
  - rewrite dom_insert_L, dot_over_add by by apply not_elem_of_dom.
    rewrite sum_squares_insert, lookup_total_insert_eq by done.
    rewrite (dot_over_ext _ _ _ m m), IH; [lra|].
    intros w Hw. rewrite !lookup_total_alt.
    assert (w <> k) by (intros ->; by apply not_elem_of_dom in Hk).
    by rewrite lookup_insert_ne.
Qed.

(** Self-similarity: a vector with a non-zero weight has cosine
    similarity 1 with itself. *)
Lemma cosine_similarity_self (vec : vector) :
  0 < sum_squares vec -> FindSimilar.cosine_similarity vec vec = 1.
Proof.
  intros Hpos. unfold FindSimilar.cosine_similarity.
  assert (Hne : vec <> ∅).
  { intros ->. rewrite sum_squares_empty in Hpos. lra. }
  rewrite (bool_decide_eq_false_2 (vec = ∅)) by done. simpl.
  replace (dom vec ∩ dom vec) with (dom vec) by set_solver.
  rewrite bool_decide_eq_false_2 by by rewrite dom_empty_iff_L.
  assert (Hmag : 0 < sqrt (sum_squares vec)) by by apply sqrt_lt_R0.
  rewrite (bool_decide_eq_false_2 (sqrt (sum_squares vec) = 0)) by lra.
  simpl. rewrite dot_over_self, sqrt_sqrt by lra. field. lra.
Qed.

(** Scenario 1: two documents with the same text are retained at
    threshold 0.99 with similarity 1. *)
Example identical_documents_retained :
  FindSimilar.find_similar_questions
    [lit "hola mundo"; lit "hola mundo"] 0.99
  = [(0%nat, 1%nat, 1)].
Proof.
  set (all_texts := [lit "hola mundo"; lit "hola mundo"]).
  set (vec := FindSimilar.compute_tfidf_vector
                (lit "hola mundo") (FindSimilar.compute_idf all_texts)).
  assert (Hcos : FindSimilar.cosine_similarity vec vec = 1).
  { apply cosine_similarity_self.
    assert (Hlen : (2 < length (lit "hola"))%nat) by (vm_compute; lia).
    assert (Hin : lit "hola" ∈ split (lit "hola mundo")) by (vm_compute; left).
    pose proof (compute_tfidf_vector_token _ (FindSimilar.compute_idf all_texts)
                  _ Hlen Hin) as Hx.
    pose proof (corpus_weight_pos all_texts _ _ _ ltac:(left) Hx) as Hpos.
    apply sum_squares_ge in Hx. fold vec in Hx. nra. }
  unfold FindSimilar.find_similar_questions, FindSimilar.similar_pairs,
    FindSimilar.compare_all, FindSimilar.vectors_of.
  simpl. fold all_texts. fold vec. rewrite Hcos.
  rewrite bool_decide_eq_true_2 by lra. reflexivity.
Qed.

(** Scenario 5: in the example corpus the only retained pair at
    threshold 0.3 is the pair of the first two documents; the document
    "a b cd" is in no pair. *)
Example example_corpus_pairs (i j : nat) (s : R) :
  (i, j, s) ∈ FindSimilar.find_similar_questions example_corpus 0.3 ->
  i = 0%nat /\ j = 1%nat.
Proof.
  intros Hin.
  assert (Hshort : Forall (fun w => (length w <= 2)%nat) (split (lit "a b cd")))
    by (vm_compute; repeat constructor).
  destruct (degenerate_not_in_pairs
              example_corpus (lit "a b cd") 2%nat 0.3 i j s) as [Hi Hj];
    [done|done|lra|done|].
  apply elem_of_similar_pairs in Hin as (Hij & _).
  unfold FindSimilar.vectors_of, example_corpus in Hij.
  rewrite length_fmap in Hij. simpl in Hij. lia.
Qed.

End Scenarios.

(** ** Instances on the example corpus *)

(** The thresholds 0.7 and 0.85 on the example corpus. *)
Lemma similar_pairs_threshold_monotone_witness :
  let vectors := FindSimilar.vectors_of example_corpus in
  (0.7 <= 0.85)%R
  /\ length (FindSimilar.similar_pairs vectors 0.85)
     <= length (FindSimilar.similar_pairs vectors 0.7)
  /\ (forall p,
         p ∈ FindSimilar.similar_pairs vectors 0.85 ->
         p ∈ FindSimilar.similar_pairs vectors 0.7).
Proof.
  intros vectors.
  assert (H : (0.7 <= 0.85)%R) by lra.
  split; [exact H|].
  exact (similar_pairs_threshold_monotone vectors 0.7 0.85 H).
Defined.

(** A corpus of one document. *)
Lemma few_documents_no_pairs_witness :
  length [lit "hola mundo"] < 2
  /\ FindSimilar.find_similar_questions [lit "hola mundo"] 0.7 = [].
Proof.
  assert (H : length [lit "hola mundo"] < 2) by (simpl; lia).
  split; [exact H|].
  exact (proj1 (proj2 (few_documents_no_pairs 0.7)) [lit "hola mundo"] H).
Defined.

(** The document "a b cd" of the example corpus. *)
Lemma degenerate_document_never_retained_witness :
  let text := lit "a b cd" in
  Forall (fun w => length w <= 2) (split text)
  /\ (forall idf : vector, FindSimilar.compute_tfidf_vector text idf = ∅)
  /\ (forall i j s,
         (i, j, s) ∈ FindSimilar.find_similar_questions example_corpus 0.7 ->
         i <> 2 /\ j <> 2).
Proof.
  intros text.
  assert (H : Forall (fun w => length w <= 2) (split text)).
  { vm_compute. repeat constructor. }
  split; [exact H|].
  destruct (degenerate_document_never_retained text H) as (H1 & _ & H3).
  split; [exact H1|].
  intros i j s. apply (H3 example_corpus 2 0.7%R i j s); [reflexivity|lra].
Defined.

(** The weight of "mundo" in the first document of the example corpus. *)
Lemma corpus_vectors_positive_witness :
  exists x,
    FindSimilar.compute_tfidf_vector
      (lit "hola mundo") (FindSimilar.compute_idf example_corpus)
      !! lit "mundo" = Some x
    /\ (0 < x)%R.
Proof.
  assert (Hlen : 2 < length (lit "mundo")) by (vm_compute; lia).
  assert (Hin : lit "mundo" ∈ split (lit "hola mundo"))
    by (vm_compute; right; left).
  eexists. split.
  - exact (compute_tfidf_vector_token
             (lit "hola mundo") (FindSimilar.compute_idf example_corpus)
             (lit "mundo") Hlen Hin).
  - refine (proj1 (corpus_vectors_positive example_corpus)
              (lit "hola mundo") (lit "mundo") _ _ _).
    + left.
    + exact (compute_tfidf_vector_token
               (lit "hola mundo") (FindSimilar.compute_idf example_corpus)
               (lit "mundo") Hlen Hin).
Defined.

(** * Further properties of the two scripts *)

(** ** Cleaned texts and tokens *)

Section Tokens.

Lemma flush_app (cur : str) (rest : list str) :
  flush cur rest = flush cur [] ++ rest.
Proof. by destruct cur. Qed.

(** Splitting resumes afresh after a white-space character. *)
Lemma split_from_app_space (cur p : str) (c : char) (q : str) :
  is_space c = true ->
  split_from cur (p ++ c :: q) = split_from cur p ++ split q.
Proof.
  intros Hc. revert cur. induction p as [|d r IH]; intros cur; simpl.
  - rewrite Hc. apply flush_app.
  - destruct (is_space d).
    + rewrite IH, (flush_app cur (_ ++ _)), (flush_app cur (split_from _ _)).
      by rewrite (assoc_L (++)).
    + apply IH.
Qed.

Lemma split_join_space (parts : list str) :
  split (join [SPACE] parts) = parts ≫= split.
Proof.
  induction parts as [|p [|p' ps] IH].
  - done.
  - simpl. by rewrite (right_id_L [] (++)).
  - change (join [SPACE] (p :: p' :: ps))
      with (p ++ SPACE :: join [SPACE] (p' :: ps)).
    unfold split at 1. rewrite split_from_app_space by done.
    rewrite IH. by rewrite bind_cons.
Qed.

Lemma join_cons_cons (sep p : str) (ps : list str) :
  ps <> [] -> join sep (p :: ps) = p ++ sep ++ join sep ps.
Proof. by destruct ps. Qed.

(** Joining the tokens of a tidy text with single spaces gives the text
    back; [cur] is the token being read. *)
Lemma join_split_from_tidy (cur t : str) :
  tidy (bool_decide (cur = [])) t = true ->
  join [SPACE] (split_from cur t) = reverse cur ++ t.
Proof.
  revert cur. induction t as [|c r IH]; intros cur; simpl.
  - case_bool_decide as Hcur; [done|]. intros _.
    destruct cur; [done|]. simpl. by rewrite (right_id_L [] (++)).
  - destruct (is_space c) eqn:Hc.
    + intros [[Hc32 Hcur]%andb_prop Hr]%andb_prop.
      apply N.eqb_eq in Hc32. subst c.
      case_bool_decide as Hne; [done|].
      specialize (IH [] Hr). rewrite reverse_nil in IH. simpl in IH.
      destruct cur as [|d cur]; [done|].
      assert (split_from [] r <> []).
      { intros E. rewrite E in IH. simpl in IH. subst r. done. }
      change (flush (d :: cur) (split_from [] r))
        with (reverse (d :: cur) :: split_from [] r).
      rewrite join_cons_cons by done. by rewrite IH.
    + intros Hr. rewrite (IH (c :: cur)) by done.
      by rewrite reverse_cons, <- (assoc_L (++)).
Qed.

Lemma rstrip_fixed_cons (c : char) (r : str) :
  rstrip (c :: r) = c :: r ->
  (r = [] /\ is_space c = false) \/ (r <> [] /\ rstrip r = r).
Proof.
  rewrite rstrip_cons. destruct (rstrip r) as [|d l] eqn:E.
  - destruct (is_space c); [done|]. intros [= <-]. by left.
  - intros [= <-]. by right.
Qed.

Lemma tidy_intro (b : bool) (t : str) :
  Forall (fun c => clean_char c = true) t ->
  single_spaced b t = true -> rstrip t = t -> t <> [] ->
  tidy b t = true.
Proof.
  intros Hclean. revert b.
  induction Hclean as [|c r Hc _ IH]; intros b Hsingle Hfix Hne; [done|].
  simpl in *. apply rstrip_fixed_cons in Hfix as [[-> Hsp]|[Hr Hfix]].
  - by rewrite Hsp.
  - destruct (is_space c) eqn:Hsp.
    + apply andb_prop in Hsingle as [Hb Hsingle].
      unfold clean_char in Hc. rewrite Hsp in Hc.
      apply andb_prop in Hc as [_ Hc]. simpl in Hc.
      rewrite Hc, Hb. simpl. by apply IH.
    + by apply IH.
Qed.

Lemma strip_fixed (s : str) :
  lstrip (strip s) = strip s /\ rstrip (strip s) = strip s.
Proof.
  unfold strip. split; [apply lstrip_rstrip_lstrip|apply rstrip_idemp].
Qed.

Lemma lstrip_fixed_head (c : char) (r : str) :
  lstrip (c :: r) = c :: r -> is_space c = false.
Proof.
  simpl. destruct (is_space c); [|done]. intros E.
  destruct (lstrip_suffix r) as [ws Hws].
  apply (f_equal length) in E, Hws. rewrite length_app in Hws.
  simpl in E. lia.
Qed.

Lemma clean_text_tidy (lower : str -> str) (s : str) :
  FindSimilar.clean_text lower s = []
  \/ tidy true (FindSimilar.clean_text lower s) = true.
Proof.
  pose proof (clean_text_clean lower s) as Hclean.
  pose proof (clean_text_single lower s) as Hsingle.
  assert (Hfix : lstrip (FindSimilar.clean_text lower s)
                 = FindSimilar.clean_text lower s
                 /\ rstrip (FindSimilar.clean_text lower s)
                    = FindSimilar.clean_text lower s)
    by apply strip_fixed.
  destruct Hfix as [Hl Hr].
  destruct (FindSimilar.clean_text lower s) as [|c r] eqn:E; [by left|].
  right. apply tidy_intro; [done| |done|done].
  apply lstrip_fixed_head in Hl. simpl in *. by rewrite Hl in *.
Qed.

(** X1: whatever [str.lower] does, a cleaned text holds only lower-case
    ASCII letters, the seven accented letters, digits and plain spaces,
    and it is empty or tidy: no space at either end and no two spaces in
    a row. This holds for both copies of [clean_text]. *)
Theorem clean_text_normal_form (lower : str -> str) (s : str) :
  let t := FindSimilar.clean_text lower s in
  QuestionAnalyzer.clean_text lower s = t
  /\ Forall (fun c => clean_char c = true) t
  /\ (t = [] \/ tidy true t = true).
Proof.
  intros t. split; [done|]. split.
  - apply clean_text_clean.
  - apply clean_text_tidy.
Qed.

(** X2: joining the tokens of a cleaned text with single spaces gives
    the cleaned text back. *)
Theorem clean_text_join_split (lower : str -> str) (s : str) :
  join [SPACE] (split (FindSimilar.clean_text lower s))
  = FindSimilar.clean_text lower s.
Proof.
  destruct (clean_text_tidy lower s) as [->|Htidy]; [done|].
  unfold split. by rewrite join_split_from_tidy.
Qed.

(** X3: the tokens of the text that [get_question_full_text] assembles
    are the tokens of the question text, of the answers, of the
    feedbacks and of the general feedback, in this order: no token
    spans two parts. *)
Theorem get_question_full_text_tokens (info : FindSimilar.question_info) :
  split (FindSimilar.get_question_full_text info)
  = split (FindSimilar.text info)
    ++ (FindSimilar.answers info ≫= split)
    ++ (FindSimilar.feedbacks info ≫= split)
    ++ split (FindSimilar.generalfeedback info).
Proof.
  unfold FindSimilar.get_question_full_text. rewrite split_join_space.
  case_bool_decide as Hgf.
  - rewrite !bind_app, !bind_cons. simpl.
    by rewrite !(right_id_L [] (++)), <- !(assoc_L (++)).
  - rewrite Hgf, !bind_app, !bind_cons. simpl.
    change (split []) with (@nil (list N)).
    by rewrite !(right_id_L [] (++)).
Qed.

Lemma strip_all_space (t : str) :
  Forall (fun c => is_space c = true) t -> strip t = [].
Proof.
  intros Hall. unfold strip.
  assert (E : lstrip t = []); [|by rewrite E].
  induction Hall as [|c r Hc _ IH]; simpl; [done|]. by rewrite Hc.
Qed.

(** X4: [extract_text_from_cdata] and [QuestionAnalyzer.extract_text]
    return a text that [strip] leaves unchanged; without text
    ([None]) and for a text of white space only they return the empty
    string; and on an element the two functions agree. *)
Theorem extracted_text_is_stripped :
  (forall text : option str,
      strip (FindSimilar.extract_text_from_cdata text)
      = FindSimilar.extract_text_from_cdata text)
  /\ FindSimilar.extract_text_from_cdata None = []
  /\ (forall t : str,
         Forall (fun c => is_space c = true) t ->
         FindSimilar.extract_text_from_cdata (Some t) = [])
  /\ (forall elem : option ElementTree.Element,
         QuestionAnalyzer.extract_text elem = FindSimilar.text_or_empty elem).
Proof.
  split; [|split; [done|split]].
  - intros [t|]; simpl; [apply strip_idemp|done].
  - intros t Ht. simpl. by apply strip_all_space.
  - intros [elem|]; [|done]. simpl.
    by destruct (ElementTree.text elem).
Qed.

End Tokens.

(** ** Frequencies and IDF tables *)

Section Tables.

Lemma sum_values_insert (k : str) (x : nat) (m : gmap str nat) :
  m !! k = None -> sum_values (<[k:=x]> m) = sum_values m + x.
Proof.
  intros Hk. unfold sum_values. rewrite map_fold_insert_L; [done| |done].
  intros. lia.
Qed.

Lemma sum_values_incr (w : str) (d : gmap str nat) :
  sum_values (incr w d) = sum_values d + 1.
Proof.
  unfold incr. destruct (d !! w) as [c|] eqn:Hw; simpl.
  - rewrite <- (insert_delete_eq d), sum_values_insert
      by apply lookup_delete_eq.
    rewrite <- (insert_delete_id d w c Hw) at 2.
    rewrite sum_values_insert by apply lookup_delete_eq. lia.
  - rewrite sum_values_insert by done. lia.
Qed.

Lemma sum_values_count_loop (words : list str) (acc : gmap str nat) :
  sum_values
    (foldl (fun freq word =>
              if bool_decide (2 < length word) then incr word freq else freq)
           acc words)
  = sum_values acc + length (filter (fun w => 2 < length w) words).
Proof.
  revert acc. induction words as [|x l IH]; intros acc; simpl; [lia|].
  rewrite IH, filter_cons. case_bool_decide.
  - rewrite decide_True by done. rewrite sum_values_incr. simpl. lia.
  - by rewrite decide_False by done.
Qed.

(** X5: the frequency dictionary is the histogram of the tokens of more
    than two characters: a word has the entry [count] exactly when it
    is such a token and occurs [count] times, and the values add up to
    the number of such tokens (the [total_words] of
    [compute_tfidf_vector]). *)
Theorem compute_word_freq_histogram (text : str) :
  (forall (w : str) (count : nat),
      FindSimilar.compute_word_freq text !! w = Some count
      <-> 2 < length w /\ w ∈ split text
          /\ count = occurrences w (split text))
  /\ sum_values (FindSimilar.compute_word_freq text)
     = length (filter (fun w => 2 < length w) (split text))
  /\ QuestionAnalyzer.compute_word_freq text
     = FindSimilar.compute_word_freq text.
Proof.
  split; [|split; [|done]].
  - intros w count. split.
    + intros H. apply compute_word_freq_Some in H. tauto.
    + intros (Hw & Hin & ->). by apply compute_word_freq_token.
  - unfold FindSimilar.compute_word_freq.
    rewrite sum_values_count_loop. by rewrite sum_values_empty.
Qed.

Lemma compute_word_freq_total_zero (text : str) :
  sum_values (FindSimilar.compute_word_freq text) = 0 ->
  FindSimilar.compute_word_freq text = ∅.
Proof.
  intros Hsum. apply map_eq. intros w. rewrite lookup_empty.
  destruct (FindSimilar.compute_word_freq text !! w) as [c|] eqn:Hw; [|done].
  pose proof (sum_values_ge _ _ _ Hw).
  apply compute_word_freq_Some in Hw. lia.
Qed.

Lemma compute_tfidf_vector_lookup (text : str) (idf : vector) (w : str) :
  FindSimilar.compute_tfidf_vector text idf !! w
  = (fun count =>
       (INR count / INR (sum_values (FindSimilar.compute_word_freq text))
        * default 0 (idf !! w))%R)
      <$> FindSimilar.compute_word_freq text !! w.
Proof.
  unfold FindSimilar.compute_tfidf_vector.
  destruct (sum_values _ =? 0) eqn:E.
  - apply Nat.eqb_eq in E.
    by rewrite (compute_word_freq_total_zero text E), !lookup_empty.
  - rewrite map_lookup_imap.
    by destruct (FindSimilar.compute_word_freq text !! w).
Qed.

(** X6: a TF-IDF vector has the keys of the frequency dictionary of its
    text, whatever the IDF table; a word that the table lacks keeps its
    entry, with weight 0. *)
Theorem compute_tfidf_vector_keys (text : str) (idf : vector) :
  dom (FindSimilar.compute_tfidf_vector text idf)
  = dom (FindSimilar.compute_word_freq text)
  /\ (forall w : str,
         w ∈ dom (FindSimilar.compute_word_freq text) ->
         idf !! w = None ->
         FindSimilar.compute_tfidf_vector text idf !! w = Some 0%R).
Proof.
  split.
  - apply set_eq. intros w.
    rewrite !elem_of_dom, compute_tfidf_vector_lookup.
    by rewrite fmap_is_Some.
  - intros w [count Hw]%elem_of_dom Hidf.
    rewrite compute_tfidf_vector_lookup, Hw, Hidf. simpl.
    f_equal. lra.
Qed.

Lemma document_frequency_witness (w : str) (all_texts : list str) :
  1 <= document_frequency w all_texts ->
  exists text, text ∈ all_texts /\ w ∈ split text.
Proof.
  unfold document_frequency. intros Hdf.
  destruct (filter (fun text => w ∈ split text) all_texts) as [|text l] eqn:E;
    [simpl in Hdf; lia|].
  assert (Hin : text ∈ filter (fun text => w ∈ split text) all_texts)
    by (rewrite E; left).
  apply list_elem_of_filter in Hin as [? ?]. eauto.
Qed.

Lemma doc_count_Some (all_texts : list str) (w : str) (count : nat) :
  FindSimilar.doc_count all_texts !! w = Some count ->
  2 < length w /\ count = document_frequency w all_texts
  /\ 1 <= count <= length all_texts.
Proof.
  unfold FindSimilar.doc_count. rewrite doc_loop_lookup, lookup_empty.
  case_bool_decide; [|done].
  pose proof (document_frequency_le w all_texts).
  destruct (document_frequency w all_texts) as [|df] eqn:E; [done|].
  simpl. intros [= <-]. repeat split; lia.
Qed.

(** X7: both IDF tables have as keys exactly the tokens of more than
    two characters that occur in some document of the corpus. *)
Theorem compute_idf_keys (all_texts : list str) (w : str) :
  (w ∈ dom (FindSimilar.compute_idf all_texts)
   <-> 2 < length w /\ exists text, text ∈ all_texts /\ w ∈ split text)
  /\ dom (QuestionAnalyzer.compute_idf all_texts)
     = dom (FindSimilar.compute_idf all_texts).
Proof.
  split.
  - unfold FindSimilar.compute_idf. rewrite dom_fmap_L, elem_of_dom. split.
    + intros [count Hcount].
      apply doc_count_Some in Hcount as (Hw & -> & Hdf). split; [done|].
      apply document_frequency_witness. lia.
    + intros (Hw & text & Hin & Hsplit).
      rewrite (doc_count_token all_texts w text) by done. eauto.
  - unfold FindSimilar.compute_idf, QuestionAnalyzer.compute_idf.
    by rewrite !dom_fmap_L.
Qed.

Lemma ln_le (x y : R) : (0 < x)%R -> (x <= y)%R -> (ln x <= ln y)%R.
Proof.
  intros Hx [Hlt | ->]; [|lra]. left. by apply ln_increasing.
Qed.

Lemma compute_idf_Some (all_texts : list str) (w : str) (x : R) :
  FindSimilar.compute_idf all_texts !! w = Some x ->
  1 <= document_frequency w all_texts <= length all_texts
  /\ x = (ln (INR (length all_texts + 1)
              / INR (document_frequency w all_texts + 1)) + 1)%R.
Proof.
  unfold FindSimilar.compute_idf. rewrite lookup_fmap.
  intros (count & Hcount & ->)%fmap_Some.
  by apply doc_count_Some in Hcount as (_ & -> & Hdf).
Qed.

Lemma analyzer_compute_idf_Some (all_texts : list str) (w : str) (x : R) :
  QuestionAnalyzer.compute_idf all_texts !! w = Some x ->
  1 <= document_frequency w all_texts <= length all_texts
  /\ x = ln (INR (length all_texts)
             / INR (1 + document_frequency w all_texts)).
Proof.
  unfold QuestionAnalyzer.compute_idf. rewrite lookup_fmap, doc_count_same.
  intros (count & Hcount & ->)%fmap_Some.
  by apply doc_count_Some in Hcount as (_ & -> & Hdf).
Qed.

Lemma quotient_antitone (a b c : nat) :
  0 < a -> 0 < b -> b <= c ->
  (0 < INR a / INR c <= INR a / INR b)%R.
Proof.
  intros Ha Hb Hbc.
  assert (0 < INR a)%R by (apply lt_0_INR; lia).
  assert (0 < INR b)%R by (apply lt_0_INR; lia).
  assert (0 < INR c)%R by (apply lt_0_INR; lia).
  assert (INR b <= INR c)%R by by apply le_INR.
  split; [by apply Rdiv_lt_0_compat|].
  unfold Rdiv. apply Rmult_le_compat_l; [lra|].
  by apply Rinv_le_contravar.
Qed.

(** X8: in both IDF tables a token that occurs in more documents never
    weighs more than one that occurs in fewer, and the smoothed weight
    of [find_similar_questions.py] lies between 1 and
    [ln((N + 1) / 2) + 1]. *)
Theorem idf_weight_antitone (all_texts : list str) (w1 w2 : str) :
  document_frequency w1 all_texts <= document_frequency w2 all_texts ->
  (forall x1 x2 : R,
      FindSimilar.compute_idf all_texts !! w1 = Some x1 ->
      FindSimilar.compute_idf all_texts !! w2 = Some x2 ->
      (1 <= x2 <= x1)%R
      /\ (x1 <= ln (INR (length all_texts + 1) / 2) + 1)%R)
  /\ (forall y1 y2 : R,
         QuestionAnalyzer.compute_idf all_texts !! w1 = Some y1 ->
         QuestionAnalyzer.compute_idf all_texts !! w2 = Some y2 ->
         (y2 <= y1)%R).
Proof.
  intros Hdf. split.
  - intros x1 x2 (Hdf1 & ->)%compute_idf_Some (Hdf2 & ->)%compute_idf_Some.
    pose proof (smoothed_weight_ge_1 (length all_texts)
                  (document_frequency w2 all_texts) ltac:(lia)).
    pose proof (quotient_antitone (length all_texts + 1)
                  (document_frequency w1 all_texts + 1)
                  (document_frequency w2 all_texts + 1)
                  ltac:(lia) ltac:(lia) ltac:(lia)) as [Hpos Hle].
    pose proof (quotient_antitone (length all_texts + 1) 2
                  (document_frequency w1 all_texts + 1)
                  ltac:(lia) ltac:(lia) ltac:(lia)) as [Hpos' Hle'].
    apply ln_le in Hle; [|done]. apply ln_le in Hle'; [|done].
    change (INR 2) with 2%R in Hle'. lra.
  - intros y1 y2 (Hdf1 & ->)%analyzer_compute_idf_Some
                 (Hdf2 & ->)%analyzer_compute_idf_Some.
    pose proof (quotient_antitone (length all_texts)
                  (1 + document_frequency w1 all_texts)
                  (1 + document_frequency w2 all_texts)
                  ltac:(lia) ltac:(lia) ltac:(lia)) as [Hpos Hle].
    by apply ln_le.
Qed.

End Tables.

(** ** More on the cosine similarity *)

Section CosineAlgebra.
Open Scope R_scope.

Lemma dot_over_comm (X : gset str) (vec1 vec2 : vector) :
  dot_over X vec1 vec2 = dot_over X vec2 vec1.
Proof.
  induction X as [|k X Hk IH] using set_ind_L.
  - by rewrite !dot_over_empty.
  - rewrite !dot_over_add by done. rewrite IH. lra.
Qed.

(** X9: over the reals the cosine similarity is symmetric. (In
    binary64 arithmetic the two calls may add the products in
    different orders and differ in the last digit.) *)
Theorem cosine_similarity_symmetric (vec1 vec2 : vector) :
  FindSimilar.cosine_similarity vec1 vec2
  = FindSimilar.cosine_similarity vec2 vec1
  /\ QuestionAnalyzer.cosine_similarity vec1 vec2
     = QuestionAnalyzer.cosine_similarity vec2 vec1.
Proof.
  assert (H : FindSimilar.cosine_similarity vec1 vec2
              = FindSimilar.cosine_similarity vec2 vec1); [|split; exact H].
  unfold FindSimilar.cosine_similarity.
  rewrite (orb_comm (bool_decide (vec1 = ∅))).
  rewrite (comm_L (∩) (dom vec1)), (dot_over_comm _ vec1 vec2).
  rewrite (orb_comm (bool_decide (sqrt (sum_squares vec1) = 0))).
  by rewrite (Rmult_comm (sqrt (sum_squares vec1))).
Qed.

Lemma sum_squares_pos (vec : vector) (w : str) (x : R) :
  vec !! w = Some x -> x <> 0 -> 0 < sum_squares vec.
Proof.
  intros Hw Hx. apply sum_squares_ge in Hw.
  assert (0 < x ^ 2) by (apply pow_lt_0_compat_l || nra). lra.
Qed.

(** X10: a vector with some non-zero weight has cosine similarity 1
    with itself. *)
Theorem cosine_similarity_with_itself (vec : vector) (w : str) (x : R) :
  vec !! w = Some x -> x <> 0 ->
  FindSimilar.cosine_similarity vec vec = 1.
Proof.
  intros Hw Hx. apply cosine_similarity_self. by eapply sum_squares_pos.
Qed.

(** X11: for any two vectors the cosine similarity lies between -1 and
    1; it is not negative when no common key has weights of opposite
    signs. *)
Theorem cosine_similarity_general_bounds (vec1 vec2 : vector) :
  -1 <= FindSimilar.cosine_similarity vec1 vec2 <= 1
  /\ ((forall w : str, 0 <= (vec1 !!! w) * (vec2 !!! w)) ->
      0 <= FindSimilar.cosine_similarity vec1 vec2).
Proof.
  split; [apply cosine_similarity_abs_le_1|apply cosine_similarity_nonneg].
Qed.

(** Texts without a common token of more than two characters give
    vectors without a common key. *)
Lemma no_common_key (text1 text2 : str) (idf1 idf2 : vector) :
  (forall w : str,
      (2 < length w)%nat -> w ∈ split text1 -> w ∉ split text2) ->
  dom (FindSimilar.compute_tfidf_vector text1 idf1)
  ∩ dom (FindSimilar.compute_tfidf_vector text2 idf2) = ∅.
Proof.
  intros Hdisj. apply set_eq. intros w.
  rewrite elem_of_intersection, !elem_of_dom, !compute_tfidf_vector_lookup.
  rewrite !fmap_is_Some. split; [|set_solver].
  intros [[c1 H1] [c2 H2]].
  apply compute_word_freq_Some in H1 as (Hw & Hin1 & _).
  apply compute_word_freq_Some in H2 as (_ & Hin2 & _).
  destruct (Hdisj w Hw Hin1 Hin2).
Qed.

(** X12: two texts without a common token of more than two characters
    have cosine similarity 0, whatever the IDF tables. *)
Theorem no_common_token_similarity_zero
    (text1 text2 : str) (idf1 idf2 : vector) :
  (forall w : str,
      (2 < length w)%nat -> w ∈ split text1 -> w ∉ split text2) ->
  FindSimilar.cosine_similarity
    (FindSimilar.compute_tfidf_vector text1 idf1)
    (FindSimilar.compute_tfidf_vector text2 idf2) = 0.
Proof.
  intros Hdisj. unfold FindSimilar.cosine_similarity.
  destruct (bool_decide _ || bool_decide _); [done|].
  by rewrite (no_common_key text1 text2 idf1 idf2 Hdisj),
    bool_decide_eq_true_2.
Qed.

Lemma scaled_lookup_total (c : R) (vec : vector) (w : str) :
  (Rmult c <$> vec) !!! w = c * (vec !!! w).
Proof.
  rewrite !lookup_total_alt, lookup_fmap.
  destruct (vec !! w); simpl; lra.
Qed.

Lemma dot_over_scaled (c : R) (X : gset str) (vec1 vec2 : vector) :
  dot_over X (Rmult c <$> vec1) vec2 = c * dot_over X vec1 vec2.
Proof.
  induction X as [|k X Hk IH] using set_ind_L.
  - rewrite !dot_over_empty. lra.
  - rewrite !dot_over_add by done. rewrite IH, scaled_lookup_total. lra.
Qed.

Lemma sum_squares_scaled (c : R) (vec : vector) :
  sum_squares (Rmult c <$> vec) = c ^ 2 * sum_squares vec.
Proof.
  induction vec as [|k x m Hk IH] using map_ind.
  - rewrite fmap_empty, sum_squares_empty. lra.
  - rewrite fmap_insert.
    rewrite !sum_squares_insert by by rewrite ?lookup_fmap, Hk.
    rewrite IH. lra.
Qed.

(** X13: over the reals the cosine similarity does not depend on the
    magnitude of a vector: multiplying all weights of one vector by a
    positive factor leaves it unchanged. (Rounding is left out.) *)
Theorem cosine_similarity_scale_invariant (c : R) (vec1 vec2 : vector) :
  0 < c ->
  FindSimilar.cosine_similarity (Rmult c <$> vec1) vec2
  = FindSimilar.cosine_similarity vec1 vec2.
Proof.
  intros Hc. unfold FindSimilar.cosine_similarity.
  assert (E : bool_decide (Rmult c <$> vec1 = ∅) = bool_decide (vec1 = ∅))
    by (apply bool_decide_ext, fmap_empty_iff).
  rewrite E, dom_fmap_L, dot_over_scaled, sum_squares_scaled.
  destruct (bool_decide (vec1 = ∅) || bool_decide (vec2 = ∅)); [done|].
  destruct (bool_decide (dom vec1 ∩ dom vec2 = ∅)); [done|].
  pose proof (sum_squares_nonneg vec1).
  rewrite sqrt_mult, sqrt_pow2 by (first [apply pow2_ge_0 | lra]).
  pose proof (sqrt_pos (sum_squares vec1)) as Hm1.
  pose proof (sqrt_pos (sum_squares vec2)) as Hm2.
  set (m1 := sqrt (sum_squares vec1)) in *.
  set (m2 := sqrt (sum_squares vec2)) in *.
  assert (E1 : bool_decide (c * m1 = 0) = bool_decide (m1 = 0)).
  { apply bool_decide_ext. split; [|intros ->; lra]. intros H0.
    apply Rmult_integral in H0 as [?|?]; [lra|done]. }
  rewrite E1. destruct (bool_decide (m1 = 0)) eqn:H1; [done|].
  destruct (bool_decide (m2 = 0)) eqn:H2; [done|].
  apply bool_decide_eq_false in H1, H2. simpl. field. lra.
Qed.

End CosineAlgebra.

(** ** More on the pair-finding step *)

Section PipelineEdges.
Open Scope R_scope.

Lemma vectors_of_length (all_texts : list str) :
  length (FindSimilar.vectors_of all_texts) = length all_texts.
Proof. unfold FindSimilar.vectors_of. by rewrite length_fmap. Qed.

(** X14: over the reals, in the pipeline of [find_similar_questions.py]
    two documents with the same cleaned text, which has a token of
    more than two characters, have similarity exactly 1, and their
    pair is retained at every threshold up to 1. (In binary64
    arithmetic the computed similarity is 1 up to rounding, so at a
    threshold within rounding of 1 the pair can be dropped.) *)
Theorem identical_documents_always_retained
    (all_texts : list str) (i j : nat) (text w : str) (threshold : R) :
  (i < j)%nat ->
  all_texts !! i = Some text -> all_texts !! j = Some text ->
  (2 < length w)%nat -> w ∈ split text ->
  threshold <= 1 ->
  (i, j, 1) ∈ FindSimilar.find_similar_questions all_texts threshold.
Proof.
  intros Hij Hi Hj Hw Hin Ht. unfold FindSimilar.find_similar_questions.
  apply elem_of_similar_pairs.
  rewrite vectors_of_length, (vectors_of_lookup _ _ _ Hi),
    (vectors_of_lookup _ _ _ Hj).
  split; [split; [done|by eapply lookup_lt_Some]|]. split; [|lra].
  symmetry. apply cosine_similarity_self.
  pose proof (compute_tfidf_vector_token
                text (FindSimilar.compute_idf all_texts) w Hw Hin) as Hx.
  assert (Htext : text ∈ all_texts) by (apply list_elem_of_lookup; eauto).
  pose proof (corpus_weight_pos all_texts _ _ _ Htext Hx).
  eapply sum_squares_pos; [exact Hx|lra].
Qed.

Lemma corpus_cosine_nonneg (all_texts : list str) (i j : nat) :
  0 <= FindSimilar.cosine_similarity
         (FindSimilar.vectors_of all_texts !!! i)
         (FindSimilar.vectors_of all_texts !!! j).
Proof.
  assert (Hvec : forall k,
             exists text,
               FindSimilar.vectors_of all_texts !!! k
               = FindSimilar.compute_tfidf_vector
                   text (FindSimilar.compute_idf all_texts)).
  { intros k. destruct (all_texts !! k) as [text|] eqn:Hk.
    - exists text. by apply vectors_of_lookup.
    - exists []. rewrite list_lookup_total_alt.
      unfold FindSimilar.vectors_of.
      by rewrite list_lookup_fmap, Hk. }
  destruct (Hvec i) as [text1 ->], (Hvec j) as [text2 ->].
  apply cosine_similarity_nonneg. intros w.
  apply same_table_products_nonneg.
Qed.

Lemma bind_length_sum {A B} (f : A -> list B) (l : list A) :
  length (l ≫= f) = sum_list ((fun a => length (f a)) <$> l).
Proof.
  induction l as [|a l IH]; [done|].
  rewrite bind_cons, length_app, IH. done.
Qed.

Lemma triangle_sum (k m : nat) :
  (2 * sum_list ((fun i => k + m - (i + 1)) <$> seq k m) = m * (m - 1))%nat.
Proof.
  revert k. induction m as [|m IH]; intros k; [done|].
  simpl seq. rewrite fmap_cons. simpl sum_list.
  replace ((fun i => k + S m - (i + 1))%nat <$> seq (S k) m)
    with ((fun i => S k + m - (i + 1))%nat <$> seq (S k) m).
  2:{ apply list_fmap_ext. intros _ i _. lia. }
  specialize (IH (S k)). destruct m; simpl in *; nia.
Qed.

Lemma compare_all_at_most_zero (vectors : list vector) (threshold : R) :
  (forall i j,
      threshold
      <= FindSimilar.cosine_similarity (vectors !!! i) (vectors !!! j)) ->
  (2 * length (FindSimilar.compare_all vectors threshold)
   = length vectors * (length vectors - 1))%nat.
Proof.
  intros Hall. unfold FindSimilar.compare_all.
  rewrite bind_length_sum.
  rewrite <- (triangle_sum 0 (length vectors)). f_equal. f_equal.
  apply list_fmap_ext. intros _ i _. rewrite bind_length_sum.
  rewrite (list_fmap_ext _ (fun _ => 1%nat)
             (seq (i + 1) (length vectors - (i + 1)))).
  - rewrite sum_list_fmap_const, length_seq. lia.
  - intros _ j _. simpl. rewrite bool_decide_eq_true_2; [done|].
    specialize (Hall i j). lra.
Qed.

(** X15: at a threshold of 0 or less the pipeline of
    [find_similar_questions.py] retains every pair [i < j] of the
    corpus, the pairs of similarity 0 too: [n (n - 1) / 2] pairs for
    [n] documents. *)
Theorem threshold_zero_retains_all_pairs
    (all_texts : list str) (threshold : R) :
  threshold <= 0 ->
  (forall i j : nat,
      (i < j < length all_texts)%nat ->
      exists s,
        (i, j, s) ∈ FindSimilar.find_similar_questions all_texts threshold)
  /\ (2 * length (FindSimilar.find_similar_questions all_texts threshold)
      = length all_texts * (length all_texts - 1))%nat.
Proof.
  intros Ht. unfold FindSimilar.find_similar_questions. split.
  - intros i j Hij. eexists. apply elem_of_similar_pairs.
    rewrite vectors_of_length. split; [done|]. split; [done|].
    pose proof (corpus_cosine_nonneg all_texts i j). lra.
  - unfold FindSimilar.similar_pairs. rewrite sort_desc_length.
    rewrite compare_all_at_most_zero, vectors_of_length; [done|].
    intros i j. pose proof (corpus_cosine_nonneg all_texts i j). lra.
Qed.

(** X16: over the reals no cosine similarity exceeds 1, so at a
    threshold above 1 the pair-finding step retains nothing, for any
    vectors. (In binary64 arithmetic a similarity can be rounded to
    just above 1.) *)
Theorem threshold_above_one_retains_nothing
    (vectors : list vector) (threshold : R) :
  1 < threshold -> FindSimilar.similar_pairs vectors threshold = [].
Proof.
  intros Ht. apply elem_of_nil_inv. intros [[i j] s].
  rewrite elem_of_similar_pairs. intros (_ & -> & Hge).
  pose proof (cosine_similarity_abs_le_1 (vectors !!! i) (vectors !!! j)).
  lra.
Qed.

Lemma sum_squares_all_zero (vec : vector) :
  (forall w x, vec !! w = Some x -> x = 0) -> sum_squares vec = 0.
Proof.
  induction vec as [|k x m Hk IH] using map_ind; intros Hzero.
  - apply sum_squares_empty.
  - rewrite sum_squares_insert by done.
    rewrite (Hzero k x) by apply lookup_insert_eq.
    rewrite IH; [lra|]. intros w y Hw. apply (Hzero w).
    rewrite lookup_insert_ne; [done|]. intros ->. congruence.
Qed.

(** A vector whose weights are all 0 has similarity 0 with every
    vector: the guard on the magnitudes returns 0. *)
Lemma cosine_similarity_zero_vector (vec other : vector) :
  (forall w x, vec !! w = Some x -> x = 0) ->
  FindSimilar.cosine_similarity vec other = 0
  /\ FindSimilar.cosine_similarity other vec = 0.
Proof.
  intros Hzero. apply sum_squares_all_zero in Hzero.
  unfold FindSimilar.cosine_similarity. rewrite Hzero, sqrt_0.
  rewrite (bool_decide_eq_true_2 (0 = 0)) by done.
  rewrite orb_true_r. simpl.
  split; repeat (destruct (bool_decide _)); done.
Qed.

Lemma analyzer_weight_zero (all_texts : list str) (text w : str) (x : R) :
  text ∈ all_texts ->
  (forall w' : str,
      (2 < length w')%nat -> w' ∈ split text ->
      (document_frequency w' all_texts + 1 = length all_texts)%nat) ->
  QuestionAnalyzer.compute_tfidf_vector
    text (QuestionAnalyzer.compute_idf all_texts) !! w = Some x ->
  x = 0.
Proof.
  intros Hin Hdf. rewrite compute_tfidf_vector_same.
  intros (count & Hfreq & _ & ->)%compute_tfidf_vector_Some.
  apply compute_word_freq_Some in Hfreq as (Hw & Hsplit & _).
  pose proof (analyzer_compute_idf_token all_texts w text Hw Hin Hsplit)
    as Hidf.
  replace (1 + document_frequency w all_texts)%nat with (length all_texts)
    in Hidf by (specialize (Hdf w Hw Hsplit); lia).
  rewrite Hidf. simpl.
  assert (0 < INR (length all_texts)).
  { apply lt_0_INR. destruct all_texts; [by apply elem_of_nil in Hin|].
    simpl. lia. }
  unfold Rdiv at 2. rewrite Rinv_r, ln_1 by lra. lra.
Qed.

(** X17: in [QuestionAnalyzer] a document all of whose tokens of more
    than two characters occur in all documents but one gets weights
    that are all 0, so [find_duplicates] retains no pair with it at any
    threshold above 0: two identical questions in a collection of three
    are not reported. *)
Theorem analyzer_misses_documents_of_weight_zero
    (lower : str -> str) (questions : list QuestionAnalyzer.question)
    (k : nat) (text : str) (threshold : R) :
  let all_texts :=
    (fun q => QuestionAnalyzer.clean_text lower (QuestionAnalyzer.full_text q))
      <$> questions in
  all_texts !! k = Some text ->
  (forall w : str,
      (2 < length w)%nat -> w ∈ split text ->
      (document_frequency w all_texts + 1 = length all_texts)%nat) ->
  0 < threshold ->
  forall (i j : nat) (s : R),
    (i, j, s)
      ∈ QuestionAnalyzer.duplicates
          (QuestionAnalyzer.find_duplicates lower
             {| QuestionAnalyzer.similarity_threshold := threshold;
                QuestionAnalyzer.all_questions := questions;
                QuestionAnalyzer.duplicates := [] |}) ->
    i <> k /\ j <> k.
Proof.
  intros all_texts Hk Hdf Ht i j s.
  rewrite find_duplicates_fresh by done. simpl.
  rewrite elem_of_similar_pairs. intros (_ & Hs & Hge).
  assert (Hvec : QuestionAnalyzer.vectors_of lower questions !!! k
                 = QuestionAnalyzer.compute_tfidf_vector
                     text (QuestionAnalyzer.compute_idf all_texts)).
  { apply list_lookup_total_correct. unfold QuestionAnalyzer.vectors_of.
    fold all_texts. by rewrite list_lookup_fmap, Hk. }
  assert (Hzero : forall w x,
             (QuestionAnalyzer.vectors_of lower questions !!! k) !! w = Some x
             -> x = 0).
  { intros w x. rewrite Hvec. apply analyzer_weight_zero; [|done].
    apply list_elem_of_lookup. eauto. }
  split; intros ->.
  - destruct (cosine_similarity_zero_vector _
                (QuestionAnalyzer.vectors_of lower questions !!! j) Hzero)
      as [E _].
    rewrite E in Hs. lra.
  - destruct (cosine_similarity_zero_vector _
                (QuestionAnalyzer.vectors_of lower questions !!! i) Hzero)
      as [_ E].
    rewrite E in Hs. lra.
Qed.

End PipelineEdges.

(** ** Summary figures and the deletion script *)

Section Reports.
Open Scope R_scope.

(** X18: the summary takes the first similarity of the result as the
    maximum and the last as the minimum. Whatever similarities the run
    computed, they are: every retained similarity lies between them,
    and the minimum is at least the threshold. *)
Theorem reported_extremes_are_extremes
    (similarity : nat -> nat -> R) (n : nat) (threshold high low : R) :
  let result := FindSimilar.similar_pairs_with similarity n threshold in
  FindSimilar.reported_maximum result = Some high ->
  FindSimilar.reported_minimum result = Some low ->
  (forall p, p ∈ result -> low <= similarity_of p <= high)
  /\ threshold <= low <= high.
Proof.
  intros result Hmax Hmin.
  assert (Hsorted : StronglySorted
                      (fun p q => similarity_of p >= similarity_of q) result).
  { eapply StronglySorted_impl; [apply ranked_before_descending|].
    apply similar_pairs_with_ranked. }
  unfold FindSimilar.reported_maximum, FindSimilar.reported_minimum in *.
  apply fmap_Some in Hmax as (first & Hfirst & ->).
  apply fmap_Some in Hmin as (final & Hfinal & ->).
  assert (Hall : forall p,
             p ∈ result -> similarity_of final <= similarity_of p
                           <= similarity_of first).
  { apply head_Some in Hfirst as [tl Htl].
    apply last_Some in Hfinal as [front Hfront].
    intros p Hp. split.
    - rewrite Hfront in Hsorted, Hp.
      apply StronglySorted_app in Hsorted as (Hcross & _ & _).
      apply elem_of_app in Hp as [Hp|Hp%list_elem_of_singleton].
      + apply Rge_le, Hcross; [done|left].
      + subst. lra.
    - rewrite Htl in Hsorted, Hp.
      apply StronglySorted_cons in Hsorted as [Hfirst _].
      apply elem_of_cons in Hp as [->|Hp]; [lra|].
      rewrite Forall_forall in Hfirst. apply Rge_le. by apply Hfirst. }
  split; [done|].
  assert (Hin : final ∈ result).
  { apply last_Some in Hfinal as [front ->]. set_solver. }
  split; [|by apply Hall].
  destruct final as [[i j] s].
  apply elem_of_sort_desc, elem_of_compare_all_with in Hin as (_ & _ & Hge).
  simpl. lra.
Qed.

Lemma exact_duplicates_length (questions : list FindSimilar.question)
    (similar_pairs : list pair) :
  (length (FindSimilar.exact_duplicates questions similar_pairs)
   <= FindSimilar.exact_dups similar_pairs)%nat.
Proof.
  unfold FindSimilar.exact_duplicates, FindSimilar.exact_dups.
  induction similar_pairs as [|p l IH]; [done|].
  rewrite !filter_cons.
  destruct (decide (similarity_of p >= 0.99 /\ _)) as [[Hge _]|Hno].
  - rewrite decide_True by done. simpl. lia.
  - case_decide; simpl; lia.
Qed.

(** The selection of [generate_delete_script] and the counts of the
    summary, with the total subscript of the model. *)
Lemma files_to_delete_spec
    (questions : list FindSimilar.question) (similar_pairs : list pair) :
  (forall f : str,
      f ∈ FindSimilar.files_to_delete questions similar_pairs
      <-> exists p,
            p ∈ similar_pairs
            /\ similarity_of p >= 0.99
            /\ FindSimilar.file (questions !!! p.1.1)
               <> FindSimilar.file (questions !!! p.1.2)
            /\ FindSimilar.rel_file (questions !!! p.1.2) = f)
  /\ (FindSimilar.writes_delete_script questions similar_pairs = false
      <-> FindSimilar.files_to_delete questions similar_pairs = ∅)
  /\ (FindSimilar.cross_file_pairs questions similar_pairs
      + FindSimilar.same_file_pairs questions similar_pairs
      = length similar_pairs)%nat
  /\ (length (FindSimilar.exact_duplicates questions similar_pairs)
      <= FindSimilar.exact_dups similar_pairs <= length similar_pairs)%nat.
Proof.
  assert (Hfiles : forall f : str,
      f ∈ FindSimilar.files_to_delete questions similar_pairs
      <-> exists p,
            p ∈ similar_pairs
            /\ similarity_of p >= 0.99
            /\ FindSimilar.file (questions !!! p.1.1)
               <> FindSimilar.file (questions !!! p.1.2)
            /\ FindSimilar.rel_file (questions !!! p.1.2) = f).
  { intros f. unfold FindSimilar.files_to_delete,
      FindSimilar.exact_duplicates.
    rewrite elem_of_list_to_set, list_elem_of_fmap. split.
    - intros (p & -> & Hp). apply list_elem_of_filter in Hp as [[? ?] ?].
      by exists p.
    - intros (p & Hp & Hge & Hcross & <-). exists p. split; [done|].
      apply list_elem_of_filter. done. }
  split; [exact Hfiles|]. split; [|split].
  - unfold FindSimilar.writes_delete_script.
    rewrite bool_decide_eq_false. split.
    + intros Hnil%dec_stable. unfold FindSimilar.files_to_delete.
      by rewrite Hnil.
    + intros Hempty Hne.
      destruct (FindSimilar.exact_duplicates questions similar_pairs)
        as [|p l] eqn:E; [done|].
      assert (Hin : FindSimilar.rel_file (questions !!! p.1.2)
                    ∈ FindSimilar.files_to_delete questions similar_pairs).
      { unfold FindSimilar.files_to_delete. rewrite E. set_solver. }
      rewrite Hempty in Hin. set_solver.
  - unfold FindSimilar.same_file_pairs, FindSimilar.cross_file_pairs.
    pose proof (length_filter (FindSimilar.cross_file questions)
                  similar_pairs).
    lia.
  - split; [apply exact_duplicates_length|apply length_filter].
Qed.

(** X19: for pairs that index the list of questions,
    [generate_delete_script] schedules a file for deletion exactly
    when it holds the second question of a pair with similarity at
    least 0.99 whose questions come from different files; it writes no
    script when there is no such pair; and the counts of the summary
    add up. *)
Theorem delete_script_selection
    (questions : list FindSimilar.question) (similar_pairs : list pair) :
  Forall (fun p : pair =>
            (p.1.1 < length questions)%nat /\ (p.1.2 < length questions)%nat)
         similar_pairs ->
  (forall f : str,
      f ∈ FindSimilar.files_to_delete questions similar_pairs
      <-> exists p q1 q2,
            p ∈ similar_pairs
            /\ similarity_of p >= 0.99
            /\ questions !! p.1.1 = Some q1
            /\ questions !! p.1.2 = Some q2
            /\ FindSimilar.file q1 <> FindSimilar.file q2
            /\ FindSimilar.rel_file q2 = f)
  /\ (FindSimilar.writes_delete_script questions similar_pairs = false
      <-> FindSimilar.files_to_delete questions similar_pairs = ∅)
  /\ (FindSimilar.cross_file_pairs questions similar_pairs
      + FindSimilar.same_file_pairs questions similar_pairs
      = length similar_pairs)%nat
  /\ (length (FindSimilar.exact_duplicates questions similar_pairs)
      <= FindSimilar.exact_dups similar_pairs <= length similar_pairs)%nat.
Proof.
  intros Hrange. rewrite Forall_forall in Hrange.
  destruct (files_to_delete_spec questions similar_pairs) as (Hfiles & Hrest).
  split; [|exact Hrest].
  intros f. rewrite Hfiles. split.
  - intros (p & Hp & Hge & Hne & Hf).
    destruct (Hrange p Hp) as [H1 H2].
    apply lookup_lt_is_Some_2 in H1 as [q1 Hq1].
    apply lookup_lt_is_Some_2 in H2 as [q2 Hq2].
    rewrite (list_lookup_total_correct _ _ _ Hq1) in Hne.
    rewrite (list_lookup_total_correct _ _ _ Hq2) in Hne, Hf.
    by exists p, q1, q2.
  - intros (p & q1 & q2 & Hp & Hge & Hq1 & Hq2 & Hne & Hf).
    exists p.
    rewrite (list_lookup_total_correct _ _ _ Hq1),
      (list_lookup_total_correct _ _ _ Hq2).
    done.
Qed.

End Reports.

(** ** Reading the questions of a file *)

Section Loading.

Lemma elem_of_appended (elem : option ElementTree.Element) (t : str) :
  t ∈ FindSimilar.appended elem -> t <> [] /\ strip t = t.
Proof.
  destruct elem as [elem|]; simpl; [|by intros ?%elem_of_nil].
  case_bool_decide as Hne; [|by intros ?%elem_of_nil].
  intros ->%list_elem_of_singleton. split; [done|].
  destruct (ElementTree.text elem); simpl; [apply strip_idemp|done].
Qed.

Lemma appended_length (elem : option ElementTree.Element) :
  length (FindSimilar.appended elem) <= 1.
Proof.
  destruct elem as [elem|]; simpl; [|lia]. case_bool_decide; simpl; lia.
Qed.

Lemma bind_length_at_most_one {A B} (f : A -> list B) (l : list A) :
  (forall a, length (f a) <= 1) -> length (l ≫= f) <= length l.
Proof.
  intros Hf. induction l as [|a l IH]; [done|].
  rewrite bind_cons, length_app. specialize (Hf a). simpl. lia.
Qed.

Lemma text_or_empty_stripped (elem : option ElementTree.Element) :
  strip (FindSimilar.text_or_empty elem) = FindSimilar.text_or_empty elem.
Proof.
  destruct elem as [elem|]; simpl; [|done].
  destruct (ElementTree.text elem); simpl; [apply strip_idemp|done].
Qed.

(** X20: in the dictionary of [extract_question_info] the name, the
    question text and the general feedback are stripped, every answer
    and every feedback is stripped and not empty, and there are at most
    as many answers and as many feedbacks as [answer] elements. *)
Theorem extract_question_info_fields (question_elem : ElementTree.Element) :
  let info := FindSimilar.extract_question_info question_elem in
  let answer_elems :=
    ElementTree.findall_descendant (lit "answer") question_elem in
  strip (FindSimilar.name info) = FindSimilar.name info
  /\ strip (FindSimilar.text info) = FindSimilar.text info
  /\ strip (FindSimilar.generalfeedback info) = FindSimilar.generalfeedback info
  /\ Forall (fun t => t <> [] /\ strip t = t) (FindSimilar.answers info)
  /\ Forall (fun t => t <> [] /\ strip t = t) (FindSimilar.feedbacks info)
  /\ length (FindSimilar.answers info) <= length answer_elems
  /\ length (FindSimilar.feedbacks info) <= length answer_elems.
Proof.
  intros info answer_elems. simpl.
  split; [apply text_or_empty_stripped|].
  split; [apply text_or_empty_stripped|].
  split; [apply text_or_empty_stripped|].
  split; [|split; [|split]].
  - apply Forall_forall. intros t (a & Ht & _)%list_elem_of_bind.
    by apply elem_of_appended in Ht.
  - apply Forall_forall. intros t (a & Ht & _)%list_elem_of_bind.
    by apply elem_of_appended in Ht.
  - apply bind_length_at_most_one. intros a. apply appended_length.
  - apply bind_length_at_most_one. intros a. apply appended_length.
Qed.

Lemma StronglySorted_lookup {A} (R : relation A) (l : list A)
    (i j : nat) (a b : A) :
  StronglySorted R l -> i < j -> l !! i = Some a -> l !! j = Some b ->
  R a b.
Proof.
  intros Hsorted Hij Ha Hb.
  rewrite <- (take_drop j l) in Hsorted.
  eapply StronglySorted_app_1_elem_of; [exact Hsorted| |].
  - apply list_elem_of_lookup. exists i. by rewrite lookup_take_lt.
  - apply list_elem_of_lookup. exists 0.
    by rewrite lookup_drop, Nat.add_0_r.
Qed.

Lemma elem_of_zip_seq {A} (l : list A) (start i : nat) (x : A) :
  (i, x) ∈ zip (seq start (length l)) l
  <-> start <= i /\ l !! (i - start) = Some x.
Proof.
  rewrite list_elem_of_lookup. split.
  - intros [k Hk]. apply lookup_zip_Some in Hk as [Hseq Hl].
    apply lookup_seq in Hseq as [-> Hlt]. simpl in *.
    split; [lia|]. by replace (start + k - start) with k by lia.
  - intros [Hle Hl]. exists (i - start). apply lookup_zip_Some. split; [|done].
    apply lookup_seq. split; [simpl; lia|]. by eapply lookup_lt_Some.
Qed.

Lemma zip_seq_sorted {A} (l : list A) (start : nat) :
  StronglySorted (fun p q : nat * A => p.1 < q.1)
                 (zip (seq start (length l)) l).
Proof.
  revert start. induction l as [|x l IH]; intros start; simpl;
    constructor; [apply IH|].
  apply Forall_forall. intros [i y] Hin.
  apply elem_of_zip_l, elem_of_seq in Hin. simpl. lia.
Qed.

Variable lower : str -> str.

(** What the loop body of [load_questions_from_file] appends for the
    element of index [i]. *)
Lemma elem_of_load_questions (root : ElementTree.Element)
    (file rel_file : str) (q : FindSimilar.question) :
  q ∈ FindSimilar.load_questions_from_file lower root file rel_file
  <-> exists question_elem,
        ElementTree.findall_child (lit "question") root
          !! FindSimilar.index q = Some question_elem
        /\ ElementTree.get question_elem (lit "type") [] <> lit "category"
        /\ FindSimilar.info q
           = FindSimilar.extract_question_info question_elem
        /\ FindSimilar.full_text q
           = FindSimilar.get_question_full_text (FindSimilar.info q)
        /\ FindSimilar.cleaned q
           = FindSimilar.clean_text lower (FindSimilar.full_text q)
        /\ FindSimilar.cleaned q <> []
        /\ FindSimilar.file q = file
        /\ FindSimilar.rel_file q = rel_file.
Proof.
  unfold FindSimilar.load_questions_from_file.
  rewrite list_elem_of_bind. split.
  - intros ([i question_elem] & Hq & Hin).
    apply elem_of_zip_seq in Hin as [_ Hin]. rewrite Nat.sub_0_r in Hin.
    simpl in Hq.
    case_bool_decide as Hcat; [by apply elem_of_nil in Hq|].
    case_bool_decide as Hclean; [|by apply elem_of_nil in Hq].
    apply list_elem_of_singleton in Hq. subst q. simpl.
    by exists question_elem.
  - intros (question_elem & Hin & Hcat & Hinfo & Hfull & Hclean & Hne
            & Hfile & Hrel).
    exists (FindSimilar.index q, question_elem). split.
    + simpl. rewrite bool_decide_eq_false_2 by done.
      rewrite <- Hinfo, <- Hfull, <- Hclean.
      rewrite bool_decide_eq_true_2 by done.
      apply list_elem_of_singleton. destruct q. simpl in *. by subst.
    + apply elem_of_zip_seq. by rewrite Nat.sub_0_r; split; [lia|].
Qed.

Lemma load_questions_sorted (root : ElementTree.Element)
    (file rel_file : str) :
  StronglySorted
    (fun a b => FindSimilar.index a < FindSimilar.index b)
    (FindSimilar.load_questions_from_file lower root file rel_file).
Proof.
  unfold FindSimilar.load_questions_from_file.
  apply (bind_sorted (fun p q : nat * ElementTree.Element => p.1 < q.1));
    [apply zip_seq_sorted| |].
  - intros [i e]. simpl. repeat case_bool_decide; repeat constructor.
  - intros [i e] [i' e'] a b Hlt Ha Hb. simpl in *.
    repeat case_bool_decide; try (by apply elem_of_nil in Ha);
      try (by apply elem_of_nil in Hb).
    apply list_elem_of_singleton in Ha, Hb. by subst.
Qed.

(** X21: [load_questions_from_file] loads exactly the [question]
    elements whose type is not [category] and whose cleaned text is not
    empty: a loaded question carries the index of its element, the
    dictionary extracted from it, the assembled and the cleaned text
    and the two paths; and the questions come in document order, each
    element at most once. *)
Theorem load_questions_from_file_exact (root : ElementTree.Element)
    (file rel_file : str) :
  let loaded :=
    FindSimilar.load_questions_from_file lower root file rel_file in
  let question_elems := ElementTree.findall_child (lit "question") root in
  (forall q : FindSimilar.question,
      q ∈ loaded
      <-> exists question_elem,
            question_elems !! FindSimilar.index q = Some question_elem
            /\ ElementTree.get question_elem (lit "type") []
               <> lit "category"
            /\ FindSimilar.info q
               = FindSimilar.extract_question_info question_elem
            /\ FindSimilar.full_text q
               = FindSimilar.get_question_full_text (FindSimilar.info q)
            /\ FindSimilar.cleaned q
               = FindSimilar.clean_text lower (FindSimilar.full_text q)
            /\ FindSimilar.cleaned q <> []
            /\ FindSimilar.file q = file
            /\ FindSimilar.rel_file q = rel_file)
  /\ StronglySorted
       (fun a b => FindSimilar.index a < FindSimilar.index b) loaded
  /\ length loaded <= length question_elems.
Proof.
  intros loaded question_elems.
  split; [intros q; apply elem_of_load_questions|]. split.
  - apply load_questions_sorted.
  - unfold loaded, FindSimilar.load_questions_from_file.
    etrans; [apply bind_length_at_most_one|].
    + intros [i e]. simpl. repeat case_bool_decide; simpl; lia.
    + rewrite length_zip, length_seq. fold question_elems. lia.
Qed.

(** X22: the directory mode on a single file returns what the file
    mode returns on that file. *)
Theorem directory_of_one_file (root : ElementTree.Element)
    (file rel_file : str) (threshold : R) :
  FindSimilar.find_similar_questions_in_directory
    lower [(root, file, rel_file)] threshold
  = FindSimilar.find_similar_questions_in_file
      lower root file rel_file threshold.
Proof.
  unfold FindSimilar.find_similar_questions_in_directory,
    FindSimilar.find_similar_questions_in_file.
  rewrite bool_decide_eq_false_2 by done.
  rewrite bind_cons. simpl. rewrite (right_id_L [] (++)).
  destruct (FindSimilar.load_questions_from_file lower root file rel_file)
    as [|q l]; done.
Qed.

(** X23: every pair that [find_similar_questions_in_file] returns
    indexes two different questions of the list it returns, the lower
    index first, and carries the cosine similarity of their vectors, so
    the subscripts [questions[i]] and [questions[j]] of the callers do
    not raise. *)
Theorem returned_pairs_index_returned_questions
    (root : ElementTree.Element) (file rel_file : str) (threshold : R)
    (i j : nat) (s : R) :
  let result :=
    FindSimilar.find_similar_questions_in_file
      lower root file rel_file threshold in
  (i, j, s) ∈ result.2 ->
  i < j
  /\ exists q1 v1 q2 v2,
       result.1 !! i = Some (q1, v1)
       /\ result.1 !! j = Some (q2, v2)
       /\ s = FindSimilar.cosine_similarity v1 v2
       /\ (s >= threshold)%R
       /\ FindSimilar.index q1 < FindSimilar.index q2.
Proof.
  intros result. unfold result, FindSimilar.find_similar_questions_in_file,
    FindSimilar.analyse. simpl.
  set (questions :=
         FindSimilar.load_questions_from_file lower root file rel_file).
  set (vectors := _ <$> (FindSimilar.cleaned <$> questions)).
  intros (Hij & -> & Hge)%elem_of_similar_pairs.
  assert (Hlen : length vectors = length questions)
    by (unfold vectors; by rewrite !length_fmap).
  split; [lia|].
  destruct (lookup_lt_is_Some_2 questions i ltac:(lia)) as [q1 Hq1].
  destruct (lookup_lt_is_Some_2 questions j ltac:(lia)) as [q2 Hq2].
  destruct (lookup_lt_is_Some_2 vectors i ltac:(lia)) as [v1 Hv1].
  destruct (lookup_lt_is_Some_2 vectors j ltac:(lia)) as [v2 Hv2].
  exists q1, v1, q2, v2.
  rewrite (list_lookup_total_correct _ _ _ Hv1),
    (list_lookup_total_correct _ _ _ Hv2) in *.
  split; [by apply lookup_zip_Some|]. split; [by apply lookup_zip_Some|].
  split; [done|]. split; [done|].
  apply (StronglySorted_lookup
           (fun a b => FindSimilar.index a < FindSimilar.index b)
           questions i j q1 q2);
    [apply load_questions_sorted|lia|done|done].
Qed.

End Loading.

(** ** Validating and scanning in [QuestionAnalyzer] *)

Section Scanning.

Lemma bind_nil_iff {A B} (f : A -> list B) (l : list A) :
  l ≫= f = [] <-> Forall (fun a => f a = []) l.
Proof.
  induction l as [|a l IH]; [by split; [constructor|]|].
  rewrite bind_cons, app_nil, Forall_cons, IH. done.
Qed.

Lemma bind_length_bounded {A B} (f : A -> list B) (l : list A) (k : nat) :
  (forall a, length (f a) <= k) -> length (l ≫= f) <= k * length l.
Proof.
  intros Hf. induction l as [|a l IH]; [simpl; lia|].
  rewrite bind_cons, length_app. specialize (Hf a). simpl. lia.
Qed.

Lemma Forall_zip_seq {A} (P : A -> Prop) (l : list A) (start : nat) :
  Forall (fun p : nat * A => P p.2) (zip (seq start (length l)) l)
  <-> Forall P l.
Proof.
  revert start. induction l as [|x l IH]; intros start; simpl.
  - split; constructor.
  - rewrite !Forall_cons, IH. done.
Qed.

Lemma validate_question_nil (idx : nat) (question : ElementTree.Element) :
  QuestionAnalyzer.validate_question idx question = []
  <-> well_formed_question question.
Proof.
  unfold QuestionAnalyzer.validate_question, well_formed_question.
  destruct (ElementTree.attrib question !! lit "type") as [q_type|];
    [|by split].
  case_bool_decide as Hempty; [split; [done|tauto]|].
  case_bool_decide as Hcat.
  - destruct (ElementTree.find_descendant_child _ _ question).
    + split; [split; [done|by eexists]|done].
    + split; [done|]. intros [_ [? ?]]. done.
  - rewrite (bool_decide_decide (q_type ≠ _)).
    destruct (decide (q_type = lit "description")) as [->|Hdesc].
    + rewrite decide_False by (intros H; by apply H).
      rewrite bool_decide_eq_true_2 by done. by split.
    + rewrite decide_True by done.
      rewrite (bool_decide_eq_false_2 (q_type = lit "description")) by done.
      rewrite !app_nil.
      destruct (QuestionAnalyzer.blank
                  (ElementTree.find_descendant_child (lit "name") _ _));
        [split; [intros [? _]; done|intros (_ & ? & _); done]|].
      destruct (QuestionAnalyzer.blank
                  (ElementTree.find_descendant_child (lit "questiontext") _ _));
        [split; [intros (_ & ? & _); done|intros (_ & _ & ? & _); done]|].
      case_bool_decide as Hin; case_bool_decide as Hans; simpl;
        split; try done; try tauto.
      intros (_ & _ & ?). done.
Qed.

(** X24: [validate_xml_structure] returns no message exactly when the
    root is a [quiz] and every question has a type and, by type: a
    category has its text; a description needs nothing more; any other
    question has a name and a question text that are not blank and,
    for the four answered types, at least one answer. *)
Theorem validate_xml_structure_accepts (root : ElementTree.Element) :
  QuestionAnalyzer.validate_xml_structure root = []
  <-> ElementTree.tag root = lit "quiz"
      /\ Forall well_formed_question
                (ElementTree.findall_child (lit "question") root).
Proof.
  unfold QuestionAnalyzer.validate_xml_structure.
  case_bool_decide as Htag; [split; [done|tauto]|].
  rewrite bind_nil_iff.
  rewrite <- (Forall_zip_seq well_formed_question _ 1).
  split.
  - intros Hall. split; [done|]. eapply Forall_impl; [exact Hall|].
    intros [idx q]. simpl. apply validate_question_nil.
  - intros [_ Hall]. eapply Forall_impl; [exact Hall|].
    intros [idx q]. simpl. apply validate_question_nil.
Qed.

Lemma validate_question_errors (idx : nat) (question : ElementTree.Element) :
  length (QuestionAnalyzer.validate_question idx question) <= 3
  /\ Forall (fun e => error_index e = Some idx)
            (QuestionAnalyzer.validate_question idx question)
  /\ (ElementTree.attrib question !! lit "type" = Some (lit "description") ->
      QuestionAnalyzer.validate_question idx question = []).
Proof.
  unfold QuestionAnalyzer.validate_question.
  destruct (ElementTree.attrib question !! lit "type") as [q_type|];
    [|simpl; split; [lia|split; [by repeat constructor|done]]].
  case_bool_decide as Hempty;
    [simpl; split; [lia|split; [by repeat constructor|by intros [= ->]]]|].
  case_bool_decide as Hcat.
  - destruct (ElementTree.find_descendant_child _ _ question); simpl;
      (split; [lia|split; [by repeat constructor|by intros [= ->]]]).
  - rewrite (bool_decide_decide (q_type ≠ _)).
    destruct (decide (q_type = lit "description")) as [->|Hdesc].
    + rewrite decide_False by (intros H; by apply H).
      simpl. split; [lia|split; [constructor|done]].
    + rewrite decide_True by done.
      split; [|split; [|by intros [= ->]]].
      * rewrite !length_app.
        repeat (match goal with
                | |- context [if ?b then _ else _] => destruct b
                end); simpl; lia.
      * rewrite !Forall_app.
        repeat (match goal with
                | |- context [if ?b then _ else _] => destruct b
                end); repeat split; by repeat constructor.
Qed.

(** X25: a root that is not a [quiz] gets the single message about the
    root. Otherwise every message names a question by its number, from
    1 to the number of questions, there are at most three times as
    many messages as questions, and a [description] question gets
    none. *)
Theorem validate_xml_structure_messages (root : ElementTree.Element) :
  let questions := ElementTree.findall_child (lit "question") root in
  (ElementTree.tag root <> lit "quiz" ->
   QuestionAnalyzer.validate_xml_structure root
   = [QuestionAnalyzer.RootNotQuiz])
  /\ (ElementTree.tag root = lit "quiz" ->
      length (QuestionAnalyzer.validate_xml_structure root)
      <= 3 * length questions
      /\ forall e,
           e ∈ QuestionAnalyzer.validate_xml_structure root ->
           exists idx question,
             error_index e = Some idx
             /\ 1 <= idx <= length questions
             /\ questions !! (idx - 1) = Some question
             /\ ElementTree.attrib question !! lit "type"
                <> Some (lit "description")).
Proof.
  intros questions. unfold QuestionAnalyzer.validate_xml_structure. split.
  - intros Htag. by rewrite bool_decide_eq_true_2.
  - intros Htag. rewrite bool_decide_eq_false_2 by (intros H; by apply H).
    fold questions. split.
    + etrans; [apply (bind_length_bounded _ _ 3)|].
      * intros [idx q]. apply validate_question_errors.
      * rewrite length_zip, length_seq. lia.
    + intros e ([idx q] & He & Hin)%list_elem_of_bind. simpl in He.
      apply elem_of_zip_seq in Hin as [Hle Hq].
      destruct (validate_question_errors idx q) as (_ & Hidx & Hdesc).
      rewrite Forall_forall in Hidx. exists idx, q.
      split; [by apply Hidx|].
      apply lookup_lt_Some in Hq as Hlt. split; [lia|]. split; [done|].
      intros Htype. rewrite (Hdesc Htype) in He. by apply elem_of_nil in He.
Qed.

Lemma analyze_question_questions (question_elem : ElementTree.Element)
    (filepath : str)
    (st : QuestionAnalyzer.stats * list QuestionAnalyzer.question) :
  questions_consistent st ->
  questions_consistent
    (QuestionAnalyzer.analyze_question question_elem filepath st).
Proof.
  destruct st as [s qs].
  unfold questions_consistent, QuestionAnalyzer.analyze_question.
  intros (H2 & H3 & H4 & H5 & H6 & H7 & H8 & H9 & H10 & H11).
  simpl in *. case_bool_decide as Hcat.
  - destruct (ElementTree.find_descendant_child _ _ question_elem); simpl;
      repeat split; done.
  - simpl. rewrite sum_values_incr, !length_app. simpl.
    repeat split; try lia;
      repeat (match goal with
              | |- context [if ?b then _ else _] => destruct b
              end); rewrite ?length_app; simpl; lia.
Qed.

(** [analyze_question] leaves the counters of the files alone. *)
Lemma analyze_question_files (question_elem : ElementTree.Element)
    (filepath : str)
    (st : QuestionAnalyzer.stats * list QuestionAnalyzer.question) :
  let st' := QuestionAnalyzer.analyze_question question_elem filepath st in
  QuestionAnalyzer.total_files st'.1 = QuestionAnalyzer.total_files st.1
  /\ QuestionAnalyzer.valid_files st'.1 = QuestionAnalyzer.valid_files st.1
  /\ QuestionAnalyzer.invalid_files st'.1
     = QuestionAnalyzer.invalid_files st.1.
Proof.
  destruct st as [s qs]. unfold QuestionAnalyzer.analyze_question.
  case_bool_decide; [|done].
  by destruct (ElementTree.find_descendant_child _ _ question_elem).
Qed.

Lemma analyze_question_consistent (question_elem : ElementTree.Element)
    (filepath : str)
    (st : QuestionAnalyzer.stats * list QuestionAnalyzer.question) :
  consistent st ->
  consistent (QuestionAnalyzer.analyze_question question_elem filepath st).
Proof.
  intros [Hfiles Hquestions].
  destruct (analyze_question_files question_elem filepath st)
    as (Ht & Hv & Hi).
  split; [|by apply analyze_question_questions].
  rewrite Ht, Hv, Hi. done.
Qed.

Lemma analyze_questions_questions (questions : list ElementTree.Element)
    (filepath : str)
    (st : QuestionAnalyzer.stats * list QuestionAnalyzer.question) :
  questions_consistent st ->
  questions_consistent
    (foldl (fun st question_elem =>
              QuestionAnalyzer.analyze_question question_elem filepath st)
           st questions).
Proof.
  revert st. induction questions as [|q l IH]; intros st Hst; simpl; [done|].
  by apply IH, analyze_question_questions.
Qed.

Lemma analyze_questions_consistent (questions : list ElementTree.Element)
    (filepath : str)
    (st : QuestionAnalyzer.stats * list QuestionAnalyzer.question) :
  consistent st ->
  consistent
    (foldl (fun st question_elem =>
              QuestionAnalyzer.analyze_question question_elem filepath st)
           st questions).
Proof.
  revert st. induction questions as [|q l IH]; intros st Hst; simpl; [done|].
  by apply IH, analyze_question_consistent.
Qed.

(** The statistics after the file has been counted, before its
    questions are analysed. *)
Lemma counted_questions (s s' : QuestionAnalyzer.stats)
    (qs : list QuestionAnalyzer.question) :
  questions_consistent (s, qs) ->
  QuestionAnalyzer.total_questions s' = QuestionAnalyzer.total_questions s ->
  QuestionAnalyzer.by_type s' = QuestionAnalyzer.by_type s ->
  QuestionAnalyzer.with_tags s' = QuestionAnalyzer.with_tags s ->
  QuestionAnalyzer.without_tags s' = QuestionAnalyzer.without_tags s ->
  QuestionAnalyzer.with_feedback s' = QuestionAnalyzer.with_feedback s ->
  QuestionAnalyzer.without_feedback s' = QuestionAnalyzer.without_feedback s ->
  QuestionAnalyzer.empty_questions s' = QuestionAnalyzer.empty_questions s ->
  QuestionAnalyzer.avg_answers_per_question s'
  = QuestionAnalyzer.avg_answers_per_question s ->
  QuestionAnalyzer.question_lengths s' = QuestionAnalyzer.question_lengths s ->
  QuestionAnalyzer.html_format_questions s'
  = QuestionAnalyzer.html_format_questions s ->
  length (QuestionAnalyzer.parse_errors s')
  - length (QuestionAnalyzer.parse_errors s)
  <= QuestionAnalyzer.invalid_files s' - QuestionAnalyzer.invalid_files s ->
  QuestionAnalyzer.invalid_files s <= QuestionAnalyzer.invalid_files s' ->
  length (QuestionAnalyzer.xml_validation_errors s')
  - length (QuestionAnalyzer.xml_validation_errors s)
  <= QuestionAnalyzer.valid_files s' - QuestionAnalyzer.valid_files s ->
  QuestionAnalyzer.valid_files s <= QuestionAnalyzer.valid_files s' ->
  questions_consistent (s', qs).
Proof.
  unfold questions_consistent. simpl.
  intros (H2 & H3 & H4 & H5 & H6 & H7 & H8 & H9 & H10 & H11).
  intros -> -> -> -> -> -> -> -> -> -> Herr Hinv Hval Hvalid.
  repeat split; try done; lia.
Qed.

Lemma analyze_file_questions (base_path : option str)
    (parsed : QuestionAnalyzer.parse_outcome) (filepath : str)
    (st : QuestionAnalyzer.stats * list QuestionAnalyzer.question) :
  questions_consistent st ->
  questions_consistent
    (QuestionAnalyzer.analyze_file base_path parsed filepath st).
Proof.
  destruct st as [s qs]. intros Hst.
  unfold QuestionAnalyzer.analyze_file.
  destruct parsed as [root|message|].
  - case_bool_decide as Htag.
    + eapply counted_questions; [exact Hst|simpl; try done..];
        rewrite ?length_app; simpl; lia.
    + destruct base_path as [base|].
      * apply analyze_questions_questions.
        eapply counted_questions; [exact Hst|simpl; try done..];
          rewrite ?length_app; try case_bool_decide; simpl; lia.
      * eapply counted_questions; [exact Hst|simpl; try done..];
          rewrite ?length_app; try case_bool_decide; simpl; lia.
  - eapply counted_questions; [exact Hst|simpl; try done..];
      rewrite ?length_app; simpl; lia.
  - eapply counted_questions; [exact Hst|simpl; try done..];
      rewrite ?length_app; simpl; lia.
Qed.

Lemma analyze_questions_files (questions : list ElementTree.Element)
    (filepath : str)
    (st : QuestionAnalyzer.stats * list QuestionAnalyzer.question) :
  let st' :=
    foldl (fun st question_elem =>
             QuestionAnalyzer.analyze_question question_elem filepath st)
          st questions in
  QuestionAnalyzer.total_files st'.1 = QuestionAnalyzer.total_files st.1
  /\ QuestionAnalyzer.valid_files st'.1 = QuestionAnalyzer.valid_files st.1
  /\ QuestionAnalyzer.invalid_files st'.1
     = QuestionAnalyzer.invalid_files st.1.
Proof.
  revert st. induction questions as [|q l IH]; intros st; simpl; [done|].
  destruct (IH (QuestionAnalyzer.analyze_question q filepath st))
    as (Ht & Hv & Hi).
  destruct (analyze_question_files q filepath st) as (Ht' & Hv' & Hi').
  simpl in *. rewrite Ht, Hv, Hi, Ht', Hv', Hi'. done.
Qed.

(** What a call of [analyze_file] adds to the counters of the files:
    one file, counted as valid or as invalid when [self.base_path] is
    set. *)
Lemma analyze_file_files (base_path : option str)
    (parsed : QuestionAnalyzer.parse_outcome) (filepath : str)
    (st : QuestionAnalyzer.stats * list QuestionAnalyzer.question) :
  let st' := QuestionAnalyzer.analyze_file base_path parsed filepath st in
  QuestionAnalyzer.total_files st'.1 = QuestionAnalyzer.total_files st.1 + 1
  /\ (is_Some base_path ->
      QuestionAnalyzer.valid_files st'.1 + QuestionAnalyzer.invalid_files st'.1
      = QuestionAnalyzer.valid_files st.1
        + QuestionAnalyzer.invalid_files st.1 + 1).
Proof.
  destruct st as [s qs]. unfold QuestionAnalyzer.analyze_file.
  destruct parsed as [root|message|]; [|simpl; lia..].
  case_bool_decide as Htag; [simpl; lia|].
  destruct base_path as [base|].
  - match goal with
    | |- context [foldl ?f ?init ?l] =>
        destruct (analyze_questions_files l filepath init) as (Ht & Hv & Hi)
    end.
    simpl in *. rewrite Ht, Hv, Hi. lia.
  - simpl. split; [lia|]. by intros [? ?].
Qed.

Lemma analyze_file_consistent (base : str)
    (parsed : QuestionAnalyzer.parse_outcome) (filepath : str)
    (st : QuestionAnalyzer.stats * list QuestionAnalyzer.question) :
  consistent st ->
  consistent (QuestionAnalyzer.analyze_file (Some base) parsed filepath st).
Proof.
  intros [Hfiles Hquestions].
  split; [|by apply analyze_file_questions].
  destruct (analyze_file_files (Some base) parsed filepath st) as [Ht Hvi].
  specialize (Hvi ltac:(by eexists)). lia.
Qed.

Lemma scan_files_questions (base_path : option str)
    (xml_files : list (QuestionAnalyzer.parse_outcome * str))
    (st : QuestionAnalyzer.stats * list QuestionAnalyzer.question) :
  questions_consistent st ->
  questions_consistent
    (foldl (fun acc '(parsed, filepath) =>
              QuestionAnalyzer.analyze_file base_path parsed filepath acc)
           st xml_files).
Proof.
  revert st. induction xml_files as [|[parsed filepath] l IH];
    intros st Hst; simpl; [done|].
  by apply IH, analyze_file_questions.
Qed.

Lemma scan_files_consistent (base : str)
    (xml_files : list (QuestionAnalyzer.parse_outcome * str))
    (st : QuestionAnalyzer.stats * list QuestionAnalyzer.question) :
  consistent st ->
  consistent
    (foldl (fun acc '(parsed, filepath) =>
              QuestionAnalyzer.analyze_file (Some base) parsed filepath acc)
           st xml_files).
Proof.
  revert st. induction xml_files as [|[parsed filepath] l IH];
    intros st Hst; simpl; [done|].
  by apply IH, analyze_file_consistent.
Qed.

Lemma init_consistent : consistent (QuestionAnalyzer.init_stats, []).
Proof.
  unfold consistent, questions_consistent. simpl.
  rewrite sum_values_empty. repeat split; lia.
Qed.

(** X26: the counters of the analyzer stay consistent in a scan. With
    [self.base_path] set, as [scan_directory] sets it, and from a new
    analyzer, after any files: the files are the valid plus the invalid
    ones; the number of questions is the length of [all_questions],
    the questions with plus those without tags, those with plus those
    without feedback, the number of recorded lengths and the sum of the
    counts by type; and the other lists are no longer than the
    counters they go with. [analyze_question] and, with the path set,
    [analyze_file] keep this from any state that has it; without the
    path [analyze_file] still keeps the relations between the counters
    of the questions. *)
Theorem analyzer_counters_consistent :
  (forall question_elem filepath st,
      consistent st ->
      consistent (QuestionAnalyzer.analyze_question question_elem filepath st))
  /\ (forall (base : str) parsed filepath st,
         consistent st ->
         consistent
           (QuestionAnalyzer.analyze_file (Some base) parsed filepath st))
  /\ (forall (base : str)
             (xml_files : list (QuestionAnalyzer.parse_outcome * str)),
         consistent
           (foldl (fun acc '(parsed, filepath) =>
                     QuestionAnalyzer.analyze_file
                       (Some base) parsed filepath acc)
                  (QuestionAnalyzer.init_stats, []) xml_files))
  /\ (forall parsed filepath st,
         questions_consistent st ->
         questions_consistent
           (QuestionAnalyzer.analyze_file None parsed filepath st)).
Proof.
  split; [exact analyze_question_consistent|].
  split; [exact analyze_file_consistent|].
  split; [|exact (analyze_file_questions None)].
  intros base xml_files. apply scan_files_consistent, init_consistent.
Qed.

(** X29: [analyze_file] on an analyzer whose [base_path] is not set (no
    [scan_directory] before) counts a file whose root is a [quiz] once
    as valid and once as invalid, and analyses none of its questions:
    the statistics of the questions and [all_questions] stay as they
    were. *)
Theorem analyze_file_without_base_path
    (root : ElementTree.Element) (filepath : str)
    (st : QuestionAnalyzer.stats * list QuestionAnalyzer.question) :
  ElementTree.tag root = lit "quiz" ->
  let st' :=
    QuestionAnalyzer.analyze_file
      None (QuestionAnalyzer.Parsed root) filepath st in
  QuestionAnalyzer.total_files st'.1 = QuestionAnalyzer.total_files st.1 + 1
  /\ QuestionAnalyzer.valid_files st'.1
     = QuestionAnalyzer.valid_files st.1 + 1
  /\ QuestionAnalyzer.invalid_files st'.1
     = QuestionAnalyzer.invalid_files st.1 + 1
  /\ QuestionAnalyzer.total_questions st'.1
     = QuestionAnalyzer.total_questions st.1
  /\ QuestionAnalyzer.by_type st'.1 = QuestionAnalyzer.by_type st.1
  /\ st'.2 = st.2
  /\ (QuestionAnalyzer.xml_validation_errors st'.1
      = QuestionAnalyzer.xml_validation_errors st.1
        ++ (if bool_decide
                 (QuestionAnalyzer.validate_xml_structure root ≠ [])
            then [(filepath, QuestionAnalyzer.validate_xml_structure root)]
            else [])).
Proof.
  intros Htag. destruct st as [s qs]. unfold QuestionAnalyzer.analyze_file.
  rewrite bool_decide_eq_false_2 by (intros H; by apply H).
  simpl. done.
Qed.

Lemma find_duplicates_all_questions (lower : str -> str)
    (self : QuestionAnalyzer.analyzer) :
  QuestionAnalyzer.all_questions (QuestionAnalyzer.find_duplicates lower self)
  = QuestionAnalyzer.all_questions self
  /\ QuestionAnalyzer.similarity_threshold
       (QuestionAnalyzer.find_duplicates lower self)
     = QuestionAnalyzer.similarity_threshold self.
Proof.
  unfold QuestionAnalyzer.find_duplicates.
  by destruct (length (QuestionAnalyzer.all_questions self) <? 2).
Qed.

(** X27: [scan_directory] sets [self.base_path] to the directory. After
    it, on a new analyzer, the counters are consistent with the
    questions gathered, the threshold is the one given, and every
    tuple of [self.duplicates] indexes two different gathered
    questions, the lower index first, with a similarity at least the
    threshold: the subscripts of [generate_report] do not raise. With
    no XML file it returns with the statistics, the questions and the
    duplicates of any analyzer as they were. *)
Theorem scan_directory_result (lower : str -> str) (directory : str)
    (xml_files : list (QuestionAnalyzer.parse_outcome * str))
    (threshold : R) :
  let result :=
    QuestionAnalyzer.scan_directory
      lower directory xml_files QuestionAnalyzer.init_stats
      (QuestionAnalyzer.init threshold) in
  result.1.1 = Some directory
  /\ consistent (result.1.2, QuestionAnalyzer.all_questions result.2)
  /\ QuestionAnalyzer.similarity_threshold result.2 = threshold
  /\ (forall i j s,
         (i, j, s) ∈ QuestionAnalyzer.duplicates result.2 ->
         i < j < QuestionAnalyzer.total_questions result.1.2
         /\ (s >= threshold)%R)
  /\ (forall (st : QuestionAnalyzer.stats)
             (self : QuestionAnalyzer.analyzer),
         QuestionAnalyzer.scan_directory lower directory [] st self
         = (Some directory, st, self)).
Proof.
  intros result. unfold result, QuestionAnalyzer.scan_directory.
  split.
  { case_bool_decide; [done|].
    by destruct (foldl _ (QuestionAnalyzer.init_stats, _) xml_files). }
  split; [|split; [|split; [|done]]].
  - case_bool_decide as Hfiles; [apply init_consistent|].
    pose proof (scan_files_consistent directory xml_files _ init_consistent)
      as Hst.
    simpl QuestionAnalyzer.all_questions.
    destruct (foldl _ (QuestionAnalyzer.init_stats, []) xml_files)
      as [st qs] eqn:E.
    simpl. by rewrite (proj1 (find_duplicates_all_questions lower _)).
  - case_bool_decide as Hfiles; [done|].
    destruct (foldl _ (QuestionAnalyzer.init_stats, _) xml_files)
      as [st qs] eqn:E.
    simpl. by rewrite (proj2 (find_duplicates_all_questions lower _)).
  - case_bool_decide as Hfiles.
    { intros i j s Hin. by apply elem_of_nil in Hin. }
    pose proof (scan_files_consistent directory xml_files _ init_consistent)
      as Hst.
    simpl QuestionAnalyzer.all_questions in *.
    destruct (foldl _ (QuestionAnalyzer.init_stats, []) xml_files)
      as [st qs] eqn:E.
    simpl. intros i j s. rewrite find_duplicates_fresh by done. simpl.
    rewrite elem_of_similar_pairs. intros (Hij & _ & Hge).
    unfold QuestionAnalyzer.vectors_of in Hij. rewrite !length_fmap in Hij.
    destruct Hst as (_ & Hlen & _). simpl in Hlen. split; [lia|done].
Qed.

(** X30: [find_duplicates] does not empty [self.duplicates] before it
    appends to it. After a second call on the same analyzer, whose
    first call started from the empty list, [self.duplicates] holds
    every retained pair twice. *)
Theorem find_duplicates_twice (lower : str -> str)
    (self : QuestionAnalyzer.analyzer) :
  QuestionAnalyzer.duplicates self = [] ->
  let once := QuestionAnalyzer.find_duplicates lower self in
  let twice := QuestionAnalyzer.find_duplicates lower once in
  QuestionAnalyzer.duplicates twice
  ≡ₚ QuestionAnalyzer.duplicates once ++ QuestionAnalyzer.duplicates once
  /\ length (QuestionAnalyzer.duplicates twice)
     = 2 * length (QuestionAnalyzer.duplicates once).
Proof.
  intros Hfresh once twice.
  assert (Hperm : QuestionAnalyzer.duplicates twice
                  ≡ₚ QuestionAnalyzer.duplicates once
                     ++ QuestionAnalyzer.duplicates once).
  { unfold twice, once, QuestionAnalyzer.find_duplicates.
    destruct (length (QuestionAnalyzer.all_questions self) <? 2) eqn:E.
    - rewrite E, Hfresh. done.
    - simpl. rewrite E. simpl. rewrite Hfresh. simpl.
      rewrite !sort_desc_perm. done. }
  split; [exact Hperm|].
  rewrite Hperm, length_app. lia.
Qed.

Lemma percentage_bounds (count total : nat) :
  count <= total ->
  (0 <= QuestionAnalyzer.percentage count total <= 100)%R.
Proof.
  intros Hle. unfold QuestionAnalyzer.percentage.
  destruct (0 <? total) eqn:E; [|lra]. apply Nat.ltb_lt in E.
  assert (0 < INR total)%R by by apply lt_0_INR.
  assert (0 <= INR count <= INR total)%R
    by (split; [apply pos_INR|by apply le_INR]).
  assert (0 <= INR count / INR total <= 1)%R.
  { split.
    - apply Rmult_le_pos; [lra|]. left. by apply Rinv_0_lt_compat.
    - apply (Rmult_le_reg_r (INR total)); [done|].
      unfold Rdiv. rewrite Rmult_assoc, Rinv_l by lra. lra. }
  lra.
Qed.

(** X28: the percentages of the report (a question type, the questions
    without tags, without feedback, with HTML format) lie between 0
    and 100 after any scan of a new analyzer, with [self.base_path] set
    or not, and with no question at all they are 0 instead of a
    division by zero. *)
Theorem report_percentages_bounded (base_path : option str)
    (xml_files : list (QuestionAnalyzer.parse_outcome * str)) :
  let st :=
    (foldl (fun acc '(parsed, filepath) =>
              QuestionAnalyzer.analyze_file base_path parsed filepath acc)
           (QuestionAnalyzer.init_stats, []) xml_files).1 in
  let total := QuestionAnalyzer.total_questions st in
  (forall (q_type : str) (count : nat),
      QuestionAnalyzer.by_type st !! q_type = Some count ->
      (0 <= QuestionAnalyzer.percentage count total <= 100)%R)
  /\ (0 <= QuestionAnalyzer.percentage
             (QuestionAnalyzer.without_tags st) total <= 100)%R
  /\ (0 <= QuestionAnalyzer.percentage
             (QuestionAnalyzer.without_feedback st) total <= 100)%R
  /\ (0 <= QuestionAnalyzer.percentage
             (length (QuestionAnalyzer.html_format_questions st)) total
      <= 100)%R
  /\ (forall count, QuestionAnalyzer.percentage count 0 = 0%R).
Proof.
  intros st total.
  destruct (scan_files_questions base_path xml_files _
              (proj2 init_consistent))
    as (_ & Htags & Hfeedback & _ & Htypes & _ & _ & Hhtml & _).
  fold st in Htags, Hfeedback, Htypes, Hhtml.
  fold total in Htags, Hfeedback, Htypes, Hhtml.
  split.
  { intros q_type count Hcount. apply percentage_bounds.
    apply sum_values_ge in Hcount. lia. }
  repeat split; try (apply percentage_bounds; lia); done.
Qed.

End Scanning.

(** ** Instances of the further properties *)

(** The tokens "mundo" (in one document of three) and "hola" (in two). *)
Lemma idf_weight_antitone_witness :
  let all_texts := [lit "hola mundo"; lit "hola clase"; lit "otra cosa"] in
  let w1 := lit "mundo" in
  let w2 := lit "hola" in
  document_frequency w1 all_texts <= document_frequency w2 all_texts
  /\ (forall x1 x2 : R,
         FindSimilar.compute_idf all_texts !! w1 = Some x1 ->
         FindSimilar.compute_idf all_texts !! w2 = Some x2 ->
         (1 <= x2 <= x1)%R
         /\ (x1 <= ln (INR (length all_texts + 1) / 2) + 1)%R)
  /\ (forall y1 y2 : R,
         QuestionAnalyzer.compute_idf all_texts !! w1 = Some y1 ->
         QuestionAnalyzer.compute_idf all_texts !! w2 = Some y2 ->
         (y2 <= y1)%R).
Proof.
  intros all_texts w1 w2.
  assert (H : document_frequency w1 all_texts
              <= document_frequency w2 all_texts) by (vm_compute; lia).
  split; [exact H|].
  exact (idf_weight_antitone all_texts w1 w2 H).
Defined.

(** A vector with the single weight 2. *)
Lemma cosine_similarity_with_itself_witness :
  FindSimilar.cosine_similarity
    ({[ lit "hola" := 2%R ]} : vector) {[ lit "hola" := 2%R ]} = 1%R.
Proof.
  apply (cosine_similarity_with_itself {[ lit "hola" := 2%R ]} (lit "hola") 2).
  - apply lookup_singleton_eq.
  - lra.
Defined.

(** Two texts without a common token. *)
Lemma no_common_token_similarity_zero_witness :
  let idf := FindSimilar.compute_idf [lit "hola mundo"; lit "otra cosa"] in
  FindSimilar.cosine_similarity
    (FindSimilar.compute_tfidf_vector (lit "hola mundo") idf)
    (FindSimilar.compute_tfidf_vector (lit "otra cosa") idf) = 0%R.
Proof.
  intros idf.
  apply (no_common_token_similarity_zero
           (lit "hola mundo") (lit "otra cosa") idf idf).
  intros w _ Hin.
  change (w ∈ [lit "hola"; lit "mundo"]) in Hin.
  change (w ∉ [lit "otra"; lit "cosa"]).
  rewrite !elem_of_cons, elem_of_nil in Hin.
  rewrite !not_elem_of_cons.
  destruct Hin as [->|[->|[]]];
    (split; [discriminate|split; [discriminate|apply not_elem_of_nil]]).
Defined.

(** Doubling the weights of the first vector. *)
Lemma cosine_similarity_scale_invariant_witness :
  let vec1 : vector := {[ lit "hola" := 1%R ]} in
  let vec2 : vector := {[ lit "hola" := 3%R; lit "mundo" := 4%R ]} in
  FindSimilar.cosine_similarity (Rmult 2 <$> vec1) vec2
  = FindSimilar.cosine_similarity vec1 vec2.
Proof.
  intros vec1 vec2.
  apply (cosine_similarity_scale_invariant 2 vec1 vec2). lra.
Defined.

(** Two questions with the text "hola mundo", at threshold 0.99. *)
Lemma identical_documents_always_retained_witness :
  (0%nat, 1%nat, 1%R)
    ∈ FindSimilar.find_similar_questions
        [lit "hola mundo"; lit "hola mundo"] 0.99.
Proof.
  apply (identical_documents_always_retained
           [lit "hola mundo"; lit "hola mundo"] 0 1
           (lit "hola mundo") (lit "hola") 0.99).
  - lia.
  - reflexivity.
  - reflexivity.
  - vm_compute. lia.
  - vm_compute. left.
  - lra.
Defined.

(** The example corpus at threshold 0: its three pairs are retained. *)
Lemma threshold_zero_retains_all_pairs_witness :
  (forall i j : nat,
      i < j < length example_corpus ->
      exists s,
        (i, j, s) ∈ FindSimilar.find_similar_questions example_corpus 0)
  /\ 2 * length (FindSimilar.find_similar_questions example_corpus 0)
     = length example_corpus * (length example_corpus - 1).
Proof.
  apply (threshold_zero_retains_all_pairs example_corpus 0). lra.
Defined.

(** The example corpus at threshold 1.5. *)
Lemma threshold_above_one_retains_nothing_witness :
  FindSimilar.similar_pairs (FindSimilar.vectors_of example_corpus) 1.5 = [].
Proof.
  apply (threshold_above_one_retains_nothing
           (FindSimilar.vectors_of example_corpus) 1.5). lra.
Defined.

(** Three stored questions, the first two with the same text: each
    token of the first occurs in two of the three documents, so the
    first question is in no retained pair. *)
Lemma analyzer_misses_documents_of_weight_zero_witness :
  let questions :=
    [QuestionAnalyzer.stored_question
       (lit "a.xml") (lit "multichoice") (lit "Q1") (lit "hola mundo") [];
     QuestionAnalyzer.stored_question
       (lit "b.xml") (lit "multichoice") (lit "Q2") (lit "hola mundo") [];
     QuestionAnalyzer.stored_question
       (lit "c.xml") (lit "multichoice") (lit "Q3") (lit "otra cosa") []] in
  Forall (fun p : pair => p.1.1 <> 0 /\ p.1.2 <> 0)
         (QuestionAnalyzer.duplicates
            (QuestionAnalyzer.find_duplicates ascii_lower
               {| QuestionAnalyzer.similarity_threshold := 0.85;
                  QuestionAnalyzer.all_questions := questions;
                  QuestionAnalyzer.duplicates := [] |})).
Proof.
  intros questions. apply Forall_forall. intros [[i j] s]. revert i j s.
  apply (analyzer_misses_documents_of_weight_zero
           ascii_lower questions 0 (lit "q1 hola mundo") 0.85).
  - vm_compute. reflexivity.
  - intros w Hlen Hin.
    change (w ∈ [lit "q1"; lit "hola"; lit "mundo"]) in Hin.
    rewrite !elem_of_cons, elem_of_nil in Hin.
    destruct Hin as [->|[->|[->|[]]]].
    + vm_compute in Hlen. lia.
    + vm_compute. reflexivity.
    + vm_compute. reflexivity.
  - lra.
Defined.

(** Two questions with the computed similarity 1, at threshold 0.99. *)
Lemma reported_extremes_are_extremes_witness :
  let result :=
    FindSimilar.similar_pairs_with (fun _ _ => 1%R) 2 0.99 in
  (forall p, p ∈ result -> (1 <= similarity_of p <= 1)%R)
  /\ (0.99 <= 1 <= 1)%R.
Proof.
  intros result.
  assert (Hresult : result = [(0%nat, 1%nat, 1%R)]).
  { unfold result, FindSimilar.similar_pairs_with,
      FindSimilar.compare_all_with.
    cbn [seq mbind list_bind app Nat.add Nat.sub].
    rewrite bool_decide_eq_true_2 by lra. reflexivity. }
  apply (reported_extremes_are_extremes (fun _ _ => 1%R) 2 0.99 1 1).
  - fold result. rewrite Hresult. reflexivity.
  - fold result. rewrite Hresult. reflexivity.
Defined.

(** A quiz of two questions with the same question text. *)
Lemma returned_pairs_index_returned_questions_witness :
  let question_elem :=
    ElementTree.mkElement
      (lit "question") {[ lit "type" := lit "multichoice" ]} None
      [ElementTree.mkElement
         (lit "questiontext") {[ lit "format" := lit "html" ]} None
         [ElementTree.mkElement (lit "text") ∅ (Some (lit " Hola, mundo! "))
                                []]] in
  let root :=
    ElementTree.mkElement (lit "quiz") ∅ None
                          [question_elem; question_elem] in
  let result :=
    FindSimilar.find_similar_questions_in_file
      ascii_lower root (lit "banco.xml") (lit "banco.xml") 0.99 in
  (0, 1, 1%R) ∈ result.2
  /\ 0 < 1
  /\ exists q1 v1 q2 v2,
       result.1 !! 0 = Some (q1, v1)
       /\ result.1 !! 1 = Some (q2, v2)
       /\ 1%R = FindSimilar.cosine_similarity v1 v2
       /\ (1 >= 0.99)%R
       /\ FindSimilar.index q1 < FindSimilar.index q2.
Proof.
  intros question_elem root result.
  assert (Hin : (0, 1, 1%R) ∈ result.2).
  { assert (Htexts :
              FindSimilar.cleaned
                <$> FindSimilar.load_questions_from_file
                      ascii_lower root (lit "banco.xml") (lit "banco.xml")
              = [lit "hola mundo"; lit "hola mundo"])
      by (vm_compute; reflexivity).
    unfold result, FindSimilar.find_similar_questions_in_file,
      FindSimilar.analyse.
    cbn [snd]. rewrite Htexts.
    change (FindSimilar.similar_pairs _ 0.99)
      with (FindSimilar.find_similar_questions
              [lit "hola mundo"; lit "hola mundo"] 0.99).
    rewrite identical_documents_retained. left. }
  split; [exact Hin|].
  exact (returned_pairs_index_returned_questions
           ascii_lower root (lit "banco.xml") (lit "banco.xml") 0.99
           0 1 1 Hin).
Defined.

(** Two questions with the same text in two files: the file of the
    second one is scheduled for deletion. *)
Lemma delete_script_selection_witness :
  let info :=
    {| FindSimilar.type := lit "multichoice"; FindSimilar.name := lit "Q";
       FindSimilar.text := lit "Hola mundo"; FindSimilar.answers := [];
       FindSimilar.feedbacks := []; FindSimilar.generalfeedback := [] |} in
  let stored (path rel_path : str) :=
    {| FindSimilar.file := path; FindSimilar.rel_file := rel_path;
       FindSimilar.index := 0; FindSimilar.info := info;
       FindSimilar.cleaned := lit "hola mundo";
       FindSimilar.full_text := lit "Hola mundo" |} in
  let questions :=
    [stored (lit "/banco/a.xml") (lit "a.xml");
     stored (lit "/banco/b.xml") (lit "b.xml")] in
  let similar_pairs : list pair := [(0, 1, 1%R)] in
  lit "b.xml" ∈ FindSimilar.files_to_delete questions similar_pairs.
Proof.
  intros info stored questions similar_pairs.
  assert (Hrange :
            Forall (fun p : pair =>
                      p.1.1 < length questions /\ p.1.2 < length questions)
                   similar_pairs)
    by (repeat constructor; simpl; lia).
  apply (proj1 (delete_script_selection questions similar_pairs Hrange)).
  exists (0, 1, 1%R), (stored (lit "/banco/a.xml") (lit "a.xml")),
    (stored (lit "/banco/b.xml") (lit "b.xml")).
  split; [left|]. split; [simpl; lra|].
  split; [reflexivity|]. split; [reflexivity|].
  split; [discriminate|reflexivity].
Defined.

(** A file with a [quiz] root and no question, given to an analyzer
    that has not scanned a directory. *)
Lemma analyze_file_without_base_path_witness :
  let root := ElementTree.mkElement (lit "quiz") ∅ None [] in
  let st :=
    QuestionAnalyzer.analyze_file
      None (QuestionAnalyzer.Parsed root) (lit "banco.xml")
      (QuestionAnalyzer.init_stats, []) in
  QuestionAnalyzer.total_files st.1 = 1
  /\ QuestionAnalyzer.valid_files st.1 = 1
  /\ QuestionAnalyzer.invalid_files st.1 = 1.
Proof.
  intros root st.
  assert (Htag : ElementTree.tag root = lit "quiz") by reflexivity.
  destruct (analyze_file_without_base_path
              root (lit "banco.xml") (QuestionAnalyzer.init_stats, []) Htag)
    as (Ht & Hv & Hi & _).
  split; [exact Ht|]. split; [exact Hv|exact Hi].
Defined.

(** Two stored questions with the same text: the pair of the first
    call is stored again by the second. *)
Lemma find_duplicates_twice_witness :
  let self :=
    {| QuestionAnalyzer.similarity_threshold := 0.85;
       QuestionAnalyzer.all_questions :=
         [QuestionAnalyzer.stored_question
            (lit "a.xml") (lit "multichoice") (lit "Q1") (lit "hola mundo") [];
          QuestionAnalyzer.stored_question
            (lit "b.xml") (lit "multichoice") (lit "Q1") (lit "hola mundo") []];
       QuestionAnalyzer.duplicates := [] |} in
  let once := QuestionAnalyzer.find_duplicates ascii_lower self in
  let twice := QuestionAnalyzer.find_duplicates ascii_lower once in
  length (QuestionAnalyzer.duplicates twice)
  = 2 * length (QuestionAnalyzer.duplicates once).
Proof.
  intros self once twice.
  assert (Hfresh : QuestionAnalyzer.duplicates self = []) by reflexivity.
  exact (proj2 (find_duplicates_twice ascii_lower self Hfresh)).
Defined.
